(** * Text2ChakraConverter: a shallow embedding of textconverter.back.py

    The converter reads a per-layer training schedule and writes, for
    every simulated device, a stream of execution-trace records.  The
    Python code is imperative: it threads a node-id counter, mutates
    "slot" attributes of shared [Layer] objects and appends records to
    an open file.  The embedding below keeps that shape: a state and
    exception monad [M] over the converter state, one definition per
    method of the source, and loops written as folds over the iterated
    range.

    Modelling conventions.
    - Python integers are unbounded: [Z] for parsed quantities and the
      configuration, [nat] for node ids and loop indices.
    - Strings are byte strings; the builtins [str.split] and [int] are
      modelled on ASCII input.
    - A slot attribute of a layer holds a reference to a node object.
      The only attribute ever read through a slot is the node's id,
      which is fixed when the node is created, so a slot is modelled
      as an optional node id.
    - Messages are plain records; the range checks of the message
      library on numeric fields are not modelled, and the debugging
      [print] statements are omitted. *)

From Stdlib Require Import ZArith Lia.
From Stdlib Require Import Ascii.
From stdpp Require Import base list strings.

Set Default Proof Using "Type".

(** ** Python builtins used by the parser *)

(** Characters on which [str.split()] and [str.strip()] cut. *)
Definition py_isspace (c : ascii) : bool :=
  let n := nat_of_ascii c in
  ((9 <=? n) && (n <=? 13)) || ((28 <=? n) && (n <=? 32)).

Fixpoint split_aux (s : string) : string * list string :=
  match s with
  | EmptyString => (EmptyString, [])
  | String c s' =>
      let '(w, ws) := split_aux s' in
      if py_isspace c
      then (EmptyString, match w with EmptyString => ws | _ => w :: ws end)
      else (String c w, ws)
  end.

(** [s.strip().split()]: the maximal runs of non-blank characters. *)
Definition py_split (s : string) : list string :=
  let '(w, ws) := split_aux s in
  match w with EmptyString => ws | _ => w :: ws end.

Definition py_isdigit (c : ascii) : bool :=
  let n := nat_of_ascii c in (48 <=? n) && (n <=? 57).

(** Decimal digits, single underscores allowed between two digits. *)
Fixpoint int_digits (acc : Z) (after_digit : bool) (s : string) : option Z :=
  match s with
  | EmptyString => if after_digit then Some acc else None
  | String c s' =>
      if py_isdigit c
      then int_digits (10 * acc + Z.of_nat (nat_of_ascii c - 48)) true s'
      else if Ascii.eqb c "_"%char
           then (if after_digit then int_digits acc false s' else None)
           else None
  end.

Definition int_token (t : string) : option Z :=
  match t with
  | String "-"%char ds => Z.opp <$> int_digits 0 false ds
  | String "+"%char ds => int_digits 0 false ds
  | _ => int_digits 0 false t
  end.

(** [int(s)]: surrounding blanks are ignored, then an optional sign and
    the digits; [None] stands for the [ValueError] of the builtin. *)
Definition py_int (s : string) : option Z :=
  match py_split s with
  | [t] => int_token t
  | _ => None
  end.

(** ** Exceptions *)

Inductive exn : Type :=
  | ValueError (msg : string)
  | IndexError
  | AttributeError
  | RuntimeError (msg : string).

(** ** Data model *)

(** A reference to a node object, as stored in a layer slot. *)
Definition node_ref : Type := nat.

Record Layer : Type := mkLayer {
  name : string;
  is_trainable : bool;
  (* forward *)
  fwd_comp_time : Z;
  fwd_comm_type : string;
  fwd_comm_size : Z;
  fwd_comp_node : option node_ref;
  fwd_comm_node : option node_ref;
  (* backward input gradient *)
  bwd_ig_comp_time : Z;
  bwd_ig_comm_type : string;
  bwd_ig_comm_size : Z;
  bwd_ig_comp_node : option node_ref;
  bwd_ig_comm_node : option node_ref;
  (* backward weight gradient *)
  bwd_wg_comp_time : Z;
  bwd_wg_comm_type : string;
  bwd_wg_comm_size : Z;
  bwd_wg_update_time : string;
  bwd_wg_comp_node : option node_ref;
  bwd_wg_comm_node : option node_ref
}.

(** Assignments to the six slot attributes. *)
Definition set_fwd_comp_node (v : option node_ref) (l : Layer) : Layer :=
  mkLayer (name l) (is_trainable l)
    (fwd_comp_time l) (fwd_comm_type l) (fwd_comm_size l)
    v (fwd_comm_node l)
    (bwd_ig_comp_time l) (bwd_ig_comm_type l) (bwd_ig_comm_size l)
    (bwd_ig_comp_node l) (bwd_ig_comm_node l)
    (bwd_wg_comp_time l) (bwd_wg_comm_type l) (bwd_wg_comm_size l)
    (bwd_wg_update_time l) (bwd_wg_comp_node l) (bwd_wg_comm_node l).

Definition set_fwd_comm_node (v : option node_ref) (l : Layer) : Layer :=
  mkLayer (name l) (is_trainable l)
    (fwd_comp_time l) (fwd_comm_type l) (fwd_comm_size l)
    (fwd_comp_node l) v
    (bwd_ig_comp_time l) (bwd_ig_comm_type l) (bwd_ig_comm_size l)
    (bwd_ig_comp_node l) (bwd_ig_comm_node l)
    (bwd_wg_comp_time l) (bwd_wg_comm_type l) (bwd_wg_comm_size l)
    (bwd_wg_update_time l) (bwd_wg_comp_node l) (bwd_wg_comm_node l).

Definition set_bwd_ig_comp_node (v : option node_ref) (l : Layer) : Layer :=
  mkLayer (name l) (is_trainable l)
    (fwd_comp_time l) (fwd_comm_type l) (fwd_comm_size l)
    (fwd_comp_node l) (fwd_comm_node l)
    (bwd_ig_comp_time l) (bwd_ig_comm_type l) (bwd_ig_comm_size l)
    v (bwd_ig_comm_node l)
    (bwd_wg_comp_time l) (bwd_wg_comm_type l) (bwd_wg_comm_size l)
    (bwd_wg_update_time l) (bwd_wg_comp_node l) (bwd_wg_comm_node l).

Definition set_bwd_ig_comm_node (v : option node_ref) (l : Layer) : Layer :=
  mkLayer (name l) (is_trainable l)
    (fwd_comp_time l) (fwd_comm_type l) (fwd_comm_size l)
    (fwd_comp_node l) (fwd_comm_node l)
    (bwd_ig_comp_time l) (bwd_ig_comm_type l) (bwd_ig_comm_size l)
    (bwd_ig_comp_node l) v
    (bwd_wg_comp_time l) (bwd_wg_comm_type l) (bwd_wg_comm_size l)
    (bwd_wg_update_time l) (bwd_wg_comp_node l) (bwd_wg_comm_node l).

Definition set_bwd_wg_comp_node (v : option node_ref) (l : Layer) : Layer :=
  mkLayer (name l) (is_trainable l)
    (fwd_comp_time l) (fwd_comm_type l) (fwd_comm_size l)
    (fwd_comp_node l) (fwd_comm_node l)
    (bwd_ig_comp_time l) (bwd_ig_comm_type l) (bwd_ig_comm_size l)
    (bwd_ig_comp_node l) (bwd_ig_comm_node l)
    (bwd_wg_comp_time l) (bwd_wg_comm_type l) (bwd_wg_comm_size l)
    (bwd_wg_update_time l) v (bwd_wg_comm_node l).

Definition set_bwd_wg_comm_node (v : option node_ref) (l : Layer) : Layer :=
  mkLayer (name l) (is_trainable l)
    (fwd_comp_time l) (fwd_comm_type l) (fwd_comm_size l)
    (fwd_comp_node l) (fwd_comm_node l)
    (bwd_ig_comp_time l) (bwd_ig_comm_type l) (bwd_ig_comm_size l)
    (bwd_ig_comp_node l) (bwd_ig_comm_node l)
    (bwd_wg_comp_time l) (bwd_wg_comm_type l) (bwd_wg_comm_size l)
    (bwd_wg_update_time l) (bwd_wg_comp_node l) v.

Definition dquote : string := String (ascii_of_nat 34) EmptyString.

(** [Layer.__init__]: any failure inside the [try] block (a missing
    column, a column that is not an integer) is re-raised as the same
    [ValueError], so the order in which the columns are read is not
    observable. *)
Definition Layer_init (line : string) : exn + Layer :=
  let col := py_split line in
  let parsed : option Layer :=
    c0 ← col !! 0;
    c1 ← col !! 1; v1 ← py_int c1;
    c2 ← col !! 2; v2 ← py_int c2;
    c3 ← col !! 3;
    c4 ← col !! 4; v4 ← py_int c4;
    c5 ← col !! 5; v5 ← py_int c5;
    c6 ← col !! 6;
    c7 ← col !! 7; v7 ← py_int c7;
    c8 ← col !! 8; v8 ← py_int c8;
    c9 ← col !! 9;
    c10 ← col !! 10; v10 ← py_int c10;
    c11 ← col !! 11;
    Some (mkLayer c0 (0 <? v1)%Z
            v2 c3 v4 None None
            v5 c6 v7 None None
            v8 c9 v10 c11 None None) in
  match parsed with
  | Some l => inr l
  | None =>
      inl (ValueError ("Cannot parse the following layer -- " +:+ dquote
                         +:+ line +:+ dquote))
  end.

Inductive NodeType : Type := COMP_NODE | COMM_COLL_NODE.

(** Collective kinds of the trace schema; [get_comm_type] returns the
    integer [0] for a kind it does not know. *)
Inductive CollectiveCommType : Type :=
  | ALL_REDUCE | ALL_TO_ALL | ALL_GATHER | REDUCE_SCATTER.

Inductive AttrValue : Type :=
  | string_val (s : string)
  | int64_val (c : option CollectiveCommType)
  | uint64_val (z : Z)
  | bool_list (values : list bool).

Record ChakraAttr : Type := mkAttr {
  attr_name : string;
  attr_value : AttrValue
}.

Record Node : Type := mkNode {
  node_id : nat;
  node_name : string;
  node_type : NodeType;
  duration_micros : Z;
  attr : list ChakraAttr;
  data_deps : list nat
}.

Record GlobalMetadata : Type := mkGlobalMetadata {
  metadata_attr : list ChakraAttr
}.

Inductive Message : Type :=
  | MsgMetadata (m : GlobalMetadata)
  | MsgNode (n : Node).

(** What the run does to the file system: [Open d] creates the output
    file of device [d] (named [output_filename.d.et]); [Write m]
    appends a record to the file opened last.  The [with] blocks of the
    source never overlap, so the file written to is always the one
    opened last. *)
Inductive Event : Type :=
  | Open (npu_id : nat)
  | Write (m : Message).

(** Constructor arguments of [Text2ChakraConverter] that the builders
    read; [next_node_id] lives in the state. *)
Record Text2ChakraConverter : Type := mkConverter {
  num_dims : Z;
  num_npus : Z;
  num_passes : Z
}.

Record state : Type := mkState {
  next_node_id : nat;
  layers : list Layer;
  events : list Event
}.

(** State at the end of [__init__]. *)
Definition init_state : state := mkState 0 [] [].

(** ** The state and exception monad *)

Definition M (A : Type) : Type := state → (exn + A) * state.

Definition ret {A} (a : A) : M A := λ s, (inr a, s).

Definition bind {A B} (m : M A) (k : A → M B) : M B :=
  λ s, match m s with
       | (inl e, s') => (inl e, s')
       | (inr a, s') => k a s'
       end.

Definition raise {A} (e : exn) : M A := λ s, (inl e, s).

Declare Scope M_scope.
Delimit Scope M_scope with M.
Bind Scope M_scope with M.
Notation "x <- c1 ;; c2" := (bind c1 (λ x, c2))
  (at level 100, c1 at next level, c2 at level 200, right associativity) : M_scope.
Notation "c1 ;; c2" := (bind c1 (λ _, c2))
  (at level 100, c2 at level 200, right associativity) : M_scope.
Local Open Scope M_scope.

(** A [for] loop whose body updates the local variables [acc]. *)
Fixpoint for_fold {A T} (l : list A) (acc : T) (body : A → T → M T) : M T :=
  match l with
  | [] => ret acc
  | x :: l' => acc' <- body x acc ;; for_fold l' acc' body
  end.

Definition for_each {A} (l : list A) (body : A → M unit) : M unit :=
  for_fold l tt (λ x _, body x).

(** [range(n)] for a Python integer [n]. *)
Definition range (n : Z) : list nat := seq 0 (Z.to_nat n).

(** ** Primitive operations on the state *)

Definition get_layers_len : M nat := λ s, (inr (length (layers s)), s).

(** [layers[i]] for a non-negative [i]. *)
Definition layer_at (i : nat) : M Layer :=
  λ s, match layers s !! i with
       | Some l => (inr l, s)
       | None => (inl IndexError, s)
       end.

(** [layers[i].slot = v], through the setter [f]. *)
Definition update_layer (i : nat) (f : Layer → Layer) : M unit :=
  λ s, (inr tt, mkState (next_node_id s) (alter f i (layers s)) (events s)).

Definition set_layers (ls : list Layer) : M unit :=
  λ s, (inr tt, mkState (next_node_id s) ls (events s)).

Definition open_output (npu_id : nat) : M unit :=
  λ s, (inr tt, mkState (next_node_id s) (layers s) (events s ++ [Open npu_id])).

Definition encode_message (m : Message) : M unit :=
  λ s, (inr tt, mkState (next_node_id s) (layers s) (events s ++ [Write m])).

(** ** Methods of [Text2ChakraConverter] *)

Definition get_global_metadata (input_text : string) : GlobalMetadata :=
  mkGlobalMetadata
    [ mkAttr "schema" (string_val "1.0.2-chakra.0.0.4");
      mkAttr "input_file" (string_val input_text) ].

(** [get_layers]: the remaining lines of the input, one [Layer] each;
    the declared count is not consulted. *)
Fixpoint get_layers (f : list string) (num_layers : Z) : exn + list Layer :=
  match f with
  | [] => inr []
  | line :: f' =>
      match Layer_init line with
      | inl e => inl e
      | inr l =>
          match get_layers f' num_layers with
          | inl e => inl e
          | inr ls => inr (l :: ls)
          end
      end
  end.

Definition get_node (name : string) (node_type : NodeType) : M Node :=
  λ s, (inr (mkNode (next_node_id s) name node_type 0 [] []),
        mkState (S (next_node_id s)) (layers s) (events s)).

Definition get_comp_node (layer_name phase : string) (comp_time : Z) : M Node :=
  node <- get_node ("COMP_NODE_" +:+ layer_name +:+ "_" +:+ phase) COMP_NODE ;;
  ret (mkNode (node_id node) (node_name node) (node_type node)
         comp_time (attr node) (data_deps node)).

Definition get_comm_type (comm_type : string) : option CollectiveCommType :=
  if String.eqb comm_type "ALLREDUCE" then Some ALL_REDUCE
  else if String.eqb comm_type "ALLTOALL" then Some ALL_TO_ALL
  else if String.eqb comm_type "ALLGATHER" then Some ALL_GATHER
  else if String.eqb comm_type "REDUCESCATTER" then Some REDUCE_SCATTER
  else None.

Definition append_attr (a : ChakraAttr) (node : Node) : Node :=
  mkNode (node_id node) (node_name node) (node_type node)
    (duration_micros node) (attr node ++ [a]) (data_deps node).

Definition get_comm_coll_node (layer_name comm_type : string) (comm_size : Z)
  : M Node :=
  node <- get_node ("COMM_COLL_NODE_" +:+ layer_name +:+ "_" +:+ comm_type)
            COMM_COLL_NODE ;;
  let node := append_attr (mkAttr "comm_type" (int64_val (get_comm_type comm_type))) node in
  let node := append_attr (mkAttr "comm_size" (uint64_val comm_size)) node in
  ret node.

(** [add_parent]: reading [parent_node.id] when the parent is [None]
    raises [AttributeError]. *)
Definition add_parent (child_node : Node) (parent_node : option node_ref) : M Node :=
  match parent_node with
  | Some parent_id =>
      ret (mkNode (node_id child_node) (node_name child_node)
             (node_type child_node) (duration_micros child_node)
             (attr child_node) (data_deps child_node ++ [parent_id]))
  | None => raise AttributeError
  end.

(** The [involved_dim] attribute, from the appended flags. *)
Definition involved_dim (values : list bool) : ChakraAttr :=
  mkAttr "involved_dim" (bool_list values).

Definition lift {A} (r : exn + A) : M A :=
  match r with
  | inl e => raise e
  | inr a => ret a
  end.

(** [lst[i]] on a Python list, for a non-negative [i]. *)
Definition list_get {A} (lst : list A) (i : nat) : M A :=
  match lst !! i with
  | Some a => ret a
  | None => raise IndexError
  end.

(** *** convert_custom_paralellism *)

(** The inner [for j in range(0, layer_id)] loop with its [break]. *)
Fixpoint has_trainable_underneath (js : list nat) : M bool :=
  match js with
  | [] => ret false
  | j :: js' =>
      layer_j <- layer_at j ;;
      if is_trainable layer_j then ret true else has_trainable_underneath js'
  end.

(** One round of the classification loop; [layer_types] is the list
    built so far. *)
Definition custom_layer_type (layer_id : nat) (layer_types : list string)
  : M (list string) :=
  underneath <- has_trainable_underneath (seq 0 layer_id) ;;
  layer <- layer_at layer_id ;;
  if is_trainable layer
  then (if underneath
        then ret (layer_types ++ ["FP+IG+WG"])
        else ret (layer_types ++ ["FP+WG"]))
  else (if underneath
        then ret (layer_types ++ ["FP+IG"])
        else ret (layer_types ++ ["FP"])).

(** Body of the forward loop; the accumulator is the local variable
    [fwd_comp_node]. *)
Definition custom_forward (idx : nat) (_ : option node_ref) : M (option node_ref) :=
  layer <- layer_at idx ;;
  node <- get_comp_node (name layer) "FWD" (fwd_comp_time layer) ;;
  node <- (if negb (idx =? 0)
           then prev <- layer_at (idx - 1) ;; add_parent node (fwd_comp_node prev)
           else ret node) ;;
  update_layer idx (set_fwd_comp_node (Some (node_id node))) ;;
  encode_message (MsgNode node) ;;
  ret (Some (node_id node)).

(** Body of the loop over [enumerate(reversed(layers))]: [idx] counts
    from the last layer, [layer] is [layers[n - 1 - idx]], and the
    accumulator is the local variable [prev_comp_node]. *)
Definition custom_backward (layer_types : list string) (n : nat)
    (fwd_node : option node_ref) (idx : nat) (prev_comp_node : option node_ref)
  : M (option node_ref) :=
  let i := n - 1 - idx in
  layer <- layer_at i ;;
  ty <- list_get layer_types idx ;;
  if String.eqb ty "FP" then
    update_layer i (set_bwd_ig_comp_node None) ;;
    update_layer i (set_bwd_wg_comp_node None) ;;
    ret prev_comp_node
  else if String.eqb ty "FP+IG" then
    ig_comp_node <- get_comp_node (name layer) "BWD_IG" (bwd_ig_comp_time layer) ;;
    ig_comp_node <- (if idx =? 0
                     then add_parent ig_comp_node fwd_node
                     else add_parent ig_comp_node prev_comp_node) ;;
    update_layer i (set_bwd_ig_comp_node (Some (node_id ig_comp_node))) ;;
    update_layer i (set_bwd_wg_comp_node None) ;;
    encode_message (MsgNode ig_comp_node) ;;
    ret (Some (node_id ig_comp_node))
  else if String.eqb ty "FP+WG" then
    wg_comp_node <- get_comp_node (name layer) "BWD_WG" (bwd_wg_comp_time layer) ;;
    wg_comp_node <- (if idx =? 0
                     then add_parent wg_comp_node fwd_node
                     else add_parent wg_comp_node prev_comp_node) ;;
    update_layer i (set_bwd_ig_comp_node None) ;;
    update_layer i (set_bwd_wg_comp_node (Some (node_id wg_comp_node))) ;;
    encode_message (MsgNode wg_comp_node) ;;
    ret (Some (node_id wg_comp_node))
  else if String.eqb ty "FP+IG+WG" then
    ig_comp_node <- get_comp_node (name layer) "BWD_IG" (bwd_ig_comp_time layer) ;;
    wg_comp_node <- get_comp_node (name layer) "BWD_WG" (bwd_wg_comp_time layer) ;;
    ig_comp_node <- add_parent ig_comp_node (Some (node_id wg_comp_node)) ;;
    wg_comp_node <- (if idx =? 0
                     then add_parent wg_comp_node fwd_node
                     else add_parent wg_comp_node prev_comp_node) ;;
    update_layer i (set_bwd_ig_comp_node (Some (node_id ig_comp_node))) ;;
    update_layer i (set_bwd_wg_comp_node (Some (node_id wg_comp_node))) ;;
    encode_message (MsgNode ig_comp_node) ;;
    encode_message (MsgNode wg_comp_node) ;;
    ret (Some (node_id ig_comp_node))
  else
    raise (RuntimeError ("Unknown compute type: " +:+ ty)).

(** Body of [for _ in range(self.num_passes)]. *)
Definition custom_pass (layer_types : list string) : M unit :=
  n <- get_layers_len ;;
  fwd_node <- for_fold (seq 0 n) None custom_forward ;;
  _ <- for_fold (seq 0 n) None (custom_backward layer_types n fwd_node) ;;
  ret tt.

Definition custom_device (self : Text2ChakraConverter) (layer_types : list string)
    (npu_id : nat) : M unit :=
  open_output npu_id ;;
  for_each (range (num_passes self)) (λ _, custom_pass layer_types).

Definition convert_custom_paralellism (self : Text2ChakraConverter)
    (f : list string) (num_layers : Z) : M unit :=
  ls <- lift (get_layers f num_layers) ;;
  set_layers ls ;;
  layer_types <- for_fold (range num_layers) [] custom_layer_type ;;
  for_each (range (num_npus self)) (custom_device self layer_types).

(** *** convert_microbenchmark *)

Definition micro_body (self : Text2ChakraConverter) (idx : nat) : M unit :=
  layer <- layer_at idx ;;
  bwd_wg_comm_node <- get_comm_coll_node (name layer)
                        (bwd_wg_comm_type layer) (bwd_wg_comm_size layer) ;;
  let bwd_wg_comm_node :=
    append_attr (involved_dim (replicate (Z.to_nat (num_dims self)) true))
      bwd_wg_comm_node in
  encode_message (MsgNode bwd_wg_comm_node).

Definition micro_pass (self : Text2ChakraConverter) : M unit :=
  n <- get_layers_len ;;
  for_each (seq 0 n) (micro_body self).

Definition micro_device (self : Text2ChakraConverter) (input_text : string)
    (npu_id : nat) : M unit :=
  open_output npu_id ;;
  encode_message (MsgMetadata (get_global_metadata input_text)) ;;
  for_each (range (num_passes self)) (λ _, micro_pass self).

Definition convert_microbenchmark (self : Text2ChakraConverter)
    (input_text : string) (f : list string) (num_layers : Z) : M unit :=
  ls <- lift (get_layers f num_layers) ;;
  set_layers ls ;;
  for_each (range (num_npus self)) (micro_device self input_text).

(** *** convert_data_parallel *)

Definition data_forward (idx : nat) (_ : option node_ref) : M (option node_ref) :=
  layer <- layer_at idx ;;
  node <- get_comp_node (name layer) "FWD" (fwd_comp_time layer) ;;
  node <- (if negb (idx =? 0)
           then prev <- layer_at (idx - 1) ;; add_parent node (fwd_comp_node prev)
           else ret node) ;;
  node <- (match bwd_wg_comm_node layer with
           | Some c => add_parent node (Some c)
           | None => ret node
           end) ;;
  update_layer idx (set_fwd_comp_node (Some (node_id node))) ;;
  encode_message (MsgNode node) ;;
  ret (Some (node_id node)).

Definition data_backward (self : Text2ChakraConverter) (n : nat)
    (fwd_node : option node_ref) (idx : nat) : M unit :=
  let i := n - 1 - idx in
  layer <- layer_at i ;;
  wg_comp <- get_comp_node (name layer) "BWD_WG" (bwd_wg_comp_time layer) ;;
  wg_comp <- (if idx =? 0
              then match fwd_node with
                   | None => raise (ValueError "fwd_comp_node is None")
                   | Some _ => add_parent wg_comp fwd_node
                   end
              else next <- layer_at (n - idx) ;;
                   add_parent wg_comp (bwd_ig_comp_node next)) ;;
  encode_message (MsgNode wg_comp) ;;
  wg_comm <- get_comm_coll_node (name layer)
               (bwd_wg_comm_type layer) (bwd_wg_comm_size layer) ;;
  let wg_comm :=
    append_attr (involved_dim (replicate (Z.to_nat (num_dims self)) true)) wg_comm in
  wg_comm <- add_parent wg_comm (Some (node_id wg_comp)) ;;
  update_layer i (set_bwd_wg_comm_node (Some (node_id wg_comm))) ;;
  encode_message (MsgNode wg_comm) ;;
  if negb (idx =? n - 1)
  then ig_comp <- get_comp_node (name layer) "BWD_IG" (bwd_ig_comp_time layer) ;;
       ig_comp <- add_parent ig_comp (Some (node_id wg_comp)) ;;
       update_layer i (set_bwd_ig_comp_node (Some (node_id ig_comp))) ;;
       encode_message (MsgNode ig_comp)
  else ret tt.

Definition data_pass (self : Text2ChakraConverter) : M unit :=
  n <- get_layers_len ;;
  fwd_node <- for_fold (seq 0 n) None data_forward ;;
  for_each (seq 0 n) (data_backward self n fwd_node).

(** The trailing [for layer in layers: layer.slot = None] loops. *)
Definition clear_slots (f : Layer → Layer) : M unit :=
  n <- get_layers_len ;;
  for_each (seq 0 n) (λ i, update_layer i f).

Definition data_device (self : Text2ChakraConverter) (input_text : string)
    (npu_id : nat) : M unit :=
  open_output npu_id ;;
  encode_message (MsgMetadata (get_global_metadata input_text)) ;;
  for_each (range (num_passes self)) (λ _, data_pass self) ;;
  clear_slots (set_bwd_wg_comm_node None).

Definition convert_data_parallel (self : Text2ChakraConverter)
    (input_text : string) (f : list string) (num_layers : Z) : M unit :=
  ls <- lift (get_layers f num_layers) ;;
  set_layers ls ;;
  for_each (range (num_npus self)) (data_device self input_text).

(** *** convert_model_parallel *)

(** Forward loop body; the accumulator is the local [fwd_comm_node]. *)
Definition model_forward (self : Text2ChakraConverter) (idx : nat)
    (_ : option node_ref) : M (option node_ref) :=
  layer <- layer_at idx ;;
  comp <- get_comp_node (name layer) "FWD" (fwd_comp_time layer) ;;
  comp <- (if negb (idx =? 0)
           then prev <- layer_at (idx - 1) ;; add_parent comp (fwd_comm_node prev)
           else ret comp) ;;
  comp <- (match bwd_wg_comp_node layer with
           | Some c => add_parent comp (Some c)
           | None => ret comp
           end) ;;
  update_layer idx (set_fwd_comp_node (Some (node_id comp))) ;;
  encode_message (MsgNode comp) ;;
  comm <- get_comm_coll_node (name layer)
            (fwd_comm_type layer) (fwd_comm_size layer) ;;
  let comm :=
    append_attr (involved_dim (replicate (Z.to_nat (num_dims self)) true)) comm in
  update_layer idx (set_fwd_comm_node (Some (node_id comm))) ;;
  comm <- add_parent comm (Some (node_id comp)) ;;
  encode_message (MsgNode comm) ;;
  ret (Some (node_id comm)).

Definition model_backward (self : Text2ChakraConverter) (num_layers : Z)
    (n : nat) (fwd_comm : option node_ref) (idx : nat) : M unit :=
  let i := n - 1 - idx in
  layer <- layer_at i ;;
  ig_comp <- get_comp_node (name layer) "BWD_IG" (bwd_ig_comp_time layer) ;;
  ig_comp <- (if idx =? 0
              then match fwd_comm with
                   | None => raise (ValueError "fwd_comm_node is None")
                   | Some _ => add_parent ig_comp fwd_comm
                   end
              else next <- layer_at (n - idx) ;;
                   ig_comp <- add_parent ig_comp (bwd_wg_comp_node next) ;;
                   next <- layer_at (n - idx) ;;
                   add_parent ig_comp (bwd_ig_comm_node next)) ;;
  encode_message (MsgNode ig_comp) ;;
  (if negb (Z.of_nat idx =? num_layers - 1)%Z
   then ig_comm <- get_comm_coll_node (name layer)
                     (bwd_ig_comm_type layer) (bwd_ig_comm_size layer) ;;
        let ig_comm :=
          append_attr (involved_dim (replicate (Z.to_nat (num_dims self)) true))
            ig_comm in
        ig_comm <- add_parent ig_comm (Some (node_id ig_comp)) ;;
        update_layer i (set_bwd_ig_comm_node (Some (node_id ig_comm))) ;;
        encode_message (MsgNode ig_comm)
   else ret tt) ;;
  wg_comp <- get_comp_node (name layer) "BWD_WG" (bwd_wg_comp_time layer) ;;
  wg_comp <- add_parent wg_comp (Some (node_id ig_comp)) ;;
  update_layer i (set_bwd_wg_comp_node (Some (node_id wg_comp))) ;;
  encode_message (MsgNode wg_comp).

Definition model_pass (self : Text2ChakraConverter) (num_layers : Z) : M unit :=
  n <- get_layers_len ;;
  fwd_comm <- for_fold (seq 0 n) None (model_forward self) ;;
  for_each (seq 0 n) (model_backward self num_layers n fwd_comm).

Definition model_device (self : Text2ChakraConverter) (input_text : string)
    (num_layers : Z) (npu_id : nat) : M unit :=
  open_output npu_id ;;
  encode_message (MsgMetadata (get_global_metadata input_text)) ;;
  for_each (range (num_passes self)) (λ _, model_pass self num_layers) ;;
  clear_slots (set_bwd_wg_comp_node None).

Definition convert_model_parallel (self : Text2ChakraConverter)
    (input_text : string) (f : list string) (num_layers : Z) : M unit :=
  ls <- lift (get_layers f num_layers) ;;
  set_layers ls ;;
  for_each (range (num_npus self)) (model_device self input_text num_layers).

(** *** convert_hybrid_data_model *)

Definition hybrid_data_model_forward (self : Text2ChakraConverter) (idx : nat)
    (_ : option node_ref) : M (option node_ref) :=
  layer <- layer_at idx ;;
  comp <- get_comp_node (name layer) "FWD" (fwd_comp_time layer) ;;
  comp <- (match bwd_wg_comm_node layer with
           | Some c => add_parent comp (Some c)
           | None => ret comp
           end) ;;
  comp <- (if negb (idx =? 0)
           then prev <- layer_at (idx - 1) ;; add_parent comp (fwd_comm_node prev)
           else ret comp) ;;
  encode_message (MsgNode comp) ;;
  comm <- get_comm_coll_node (name layer)
            (fwd_comm_type layer) (fwd_comm_size layer) ;;
  let comm :=
    append_attr
      (involved_dim ([true] ++ replicate (Z.to_nat (num_dims self - 1)) false))
      comm in
  comm <- add_parent comm (Some (node_id comp)) ;;
  update_layer idx (set_fwd_comm_node (Some (node_id comm))) ;;
  encode_message (MsgNode comm) ;;
  ret (Some (node_id comm)).

Definition hybrid_data_model_backward (self : Text2ChakraConverter)
    (num_layers : Z) (n : nat) (fwd_comm : option node_ref) (idx : nat)
  : M unit :=
  let i := n - 1 - idx in
  layer <- layer_at i ;;
  ig_comp <- get_comp_node (name layer) "BWD_IG" (bwd_ig_comp_time layer) ;;
  ig_comp <- (if idx =? 0
              then match fwd_comm with
                   | None => raise (ValueError "fwd_comm_node is None")
                   | Some _ => add_parent ig_comp fwd_comm
                   end
              else next <- layer_at (n - idx) ;;
                   ig_comp <- add_parent ig_comp (bwd_wg_comp_node next) ;;
                   next <- layer_at (n - idx) ;;
                   add_parent ig_comp (bwd_ig_comm_node next)) ;;
  encode_message (MsgNode ig_comp) ;;
  (if negb (Z.of_nat idx =? num_layers - 1)%Z
   then ig_comm <- get_comm_coll_node (name layer +:+ "_IG_COMM_")
                     (bwd_ig_comm_type layer) (bwd_ig_comm_size layer) ;;
        let ig_comm :=
          append_attr
            (involved_dim ([true] ++ replicate (Z.to_nat (num_dims self - 1)) false))
            ig_comm in
        ig_comm <- add_parent ig_comm (Some (node_id ig_comp)) ;;
        update_layer i (set_bwd_ig_comm_node (Some (node_id ig_comm))) ;;
        encode_message (MsgNode ig_comm)
   else ret tt) ;;
  wg_comp <- get_comp_node (name layer) "BWD_WG" (bwd_wg_comp_time layer) ;;
  wg_comp <- add_parent wg_comp (Some (node_id ig_comp)) ;;
  update_layer i (set_bwd_wg_comp_node (Some (node_id wg_comp))) ;;
  encode_message (MsgNode wg_comp) ;;
  wg_comm <- get_comm_coll_node (name layer)
               (bwd_wg_comm_type layer) (bwd_wg_comm_size layer) ;;
  let wg_comm :=
    append_attr
      (involved_dim ([false] ++ replicate (Z.to_nat (num_dims self - 1)) true))
      wg_comm in
  wg_comm <- add_parent wg_comm (Some (node_id wg_comp)) ;;
  update_layer i (set_bwd_wg_comm_node (Some (node_id wg_comm))) ;;
  encode_message (MsgNode wg_comm).

Definition hybrid_data_model_pass (self : Text2ChakraConverter) (num_layers : Z)
  : M unit :=
  n <- get_layers_len ;;
  fwd_comm <- for_fold (seq 0 n) None (hybrid_data_model_forward self) ;;
  for_each (seq 0 n) (hybrid_data_model_backward self num_layers n fwd_comm).

Definition hybrid_data_model_device (self : Text2ChakraConverter)
    (input_text : string) (num_layers : Z) (npu_id : nat) : M unit :=
  open_output npu_id ;;
  encode_message (MsgMetadata (get_global_metadata input_text)) ;;
  for_each (range (num_passes self)) (λ _, hybrid_data_model_pass self num_layers) ;;
  clear_slots (set_bwd_wg_comm_node None).

Definition convert_hybrid_data_model (self : Text2ChakraConverter)
    (input_text : string) (f : list string) (num_layers : Z) : M unit :=
  ls <- lift (get_layers f num_layers) ;;
  set_layers ls ;;
  for_each (range (num_npus self))
    (hybrid_data_model_device self input_text num_layers).

(** *** convert_hybrid_model_data *)

Definition hybrid_model_data_forward (self : Text2ChakraConverter) (idx : nat)
    (_ : option node_ref) : M (option node_ref) :=
  layer <- layer_at idx ;;
  comp <- get_comp_node (name layer) "FWD" (fwd_comp_time layer) ;;
  comp <- (match bwd_wg_comm_node layer with
           | Some c => add_parent comp (Some c)
           | None => ret comp
           end) ;;
  comp <- (if negb (idx =? 0)
           then prev <- layer_at (idx - 1) ;; add_parent comp (fwd_comm_node prev)
           else ret comp) ;;
  encode_message (MsgNode comp) ;;
  comm <- get_comm_coll_node (name layer)
            (fwd_comm_type layer) (fwd_comm_size layer) ;;
  let comm :=
    append_attr
      (involved_dim ([false] ++ replicate (Z.to_nat (num_dims self - 1)) true))
      comm in
  comm <- add_parent comm (Some (node_id comp)) ;;
  update_layer idx (set_fwd_comm_node (Some (node_id comm))) ;;
  encode_message (MsgNode comm) ;;
  ret (Some (node_id comm)).

Definition hybrid_model_data_backward (self : Text2ChakraConverter)
    (num_layers : Z) (n : nat) (fwd_comm : option node_ref) (idx : nat)
  : M unit :=
  let i := n - 1 - idx in
  layer <- layer_at i ;;
  ig_comp <- get_comp_node (name layer) "BWD_IG" (bwd_ig_comp_time layer) ;;
  ig_comp <- (if idx =? 0
              then match fwd_comm with
                   | None => raise (ValueError "fwd_comm_node is None")
                   | Some _ => add_parent ig_comp fwd_comm
                   end
              else next <- layer_at (n - idx) ;;
                   ig_comp <- add_parent ig_comp (bwd_wg_comp_node next) ;;
                   next <- layer_at (n - idx) ;;
                   add_parent ig_comp (bwd_ig_comm_node next)) ;;
  encode_message (MsgNode ig_comp) ;;
  (if negb (Z.of_nat idx =? num_layers - 1)%Z
   then ig_comm <- get_comm_coll_node (name layer)
                     (bwd_ig_comm_type layer) (bwd_ig_comm_size layer) ;;
        let ig_comm :=
          append_attr
            (involved_dim ([false] ++ replicate (Z.to_nat (num_dims self - 1)) true))
            ig_comm in
        ig_comm <- add_parent ig_comm (Some (node_id ig_comp)) ;;
        update_layer i (set_bwd_ig_comm_node (Some (node_id ig_comm))) ;;
        encode_message (MsgNode ig_comm)
   else ret tt) ;;
  wg_comp <- get_comp_node (name layer) "BWD_WG" (bwd_wg_comp_time layer) ;;
  wg_comp <- add_parent wg_comp (Some (node_id ig_comp)) ;;
  update_layer i (set_bwd_wg_comp_node (Some (node_id wg_comp))) ;;
  encode_message (MsgNode wg_comp) ;;
  wg_comm <- get_comm_coll_node (name layer)
               (bwd_wg_comm_type layer) (bwd_wg_comm_size layer) ;;
  let wg_comm :=
    append_attr
      (involved_dim ([true] ++ replicate (Z.to_nat (num_dims self - 1)) false))
      wg_comm in
  wg_comm <- add_parent wg_comm (Some (node_id wg_comp)) ;;
  update_layer i (set_bwd_wg_comm_node (Some (node_id wg_comm))) ;;
  encode_message (MsgNode wg_comm).

Definition hybrid_model_data_pass (self : Text2ChakraConverter) (num_layers : Z)
  : M unit :=
  n <- get_layers_len ;;
  fwd_comm <- for_fold (seq 0 n) None (hybrid_model_data_forward self) ;;
  for_each (seq 0 n) (hybrid_model_data_backward self num_layers n fwd_comm).

Definition hybrid_model_data_device (self : Text2ChakraConverter)
    (input_text : string) (num_layers : Z) (npu_id : nat) : M unit :=
  open_output npu_id ;;
  encode_message (MsgMetadata (get_global_metadata input_text)) ;;
  for_each (range (num_passes self)) (λ _, hybrid_model_data_pass self num_layers) ;;
  clear_slots (set_bwd_wg_comm_node None).

Definition convert_hybrid_model_data (self : Text2ChakraConverter)
    (input_text : string) (f : list string) (num_layers : Z) : M unit :=
  ls <- lift (get_layers f num_layers) ;;
  set_layers ls ;;
  for_each (range (num_npus self))
    (hybrid_model_data_device self input_text num_layers).

(** *** convert_hybrid_dlrm *)

(** Forward loop body; the accumulator is the local [fwd_comp_node]. *)
Definition dlrm_forward (self : Text2ChakraConverter) (last_bottom_layer : Z)
    (idx : nat) (_ : option node_ref) : M (option node_ref) :=
  layer <- layer_at idx ;;
  comp <- get_comp_node (name layer) "FWD" (fwd_comp_time layer) ;;
  comp <- (match bwd_wg_comm_node layer with
           | Some c => add_parent comp (Some c)
           | None =>
               match bwd_wg_comp_node layer with
               | Some c => add_parent comp (Some c)
               | None => ret comp
               end
           end) ;;
  comp <- (if negb (idx =? 0)
           then prev <- layer_at (idx - 1) ;; add_parent comp (fwd_comp_node prev)
           else ret comp) ;;
  comp <- (if (Z.of_nat idx =? last_bottom_layer)%Z
           then first <- layer_at 0 ;; add_parent comp (fwd_comm_node first)
           else ret comp) ;;
  update_layer idx (set_fwd_comp_node (Some (node_id comp))) ;;
  encode_message (MsgNode comp) ;;
  (if String.eqb (fwd_comm_type layer) "ALLTOALL"
   then comm <- get_comm_coll_node (name layer)
                  (fwd_comm_type layer) (fwd_comm_size layer) ;;
        let comm :=
          append_attr (involved_dim (replicate (Z.to_nat (num_dims self)) true))
            comm in
        comm <- add_parent comm (Some (node_id comp)) ;;
        update_layer idx (set_fwd_comm_node (Some (node_id comm))) ;;
        encode_message (MsgNode comm)
   else ret tt) ;;
  ret (Some (node_id comp)).

Definition dlrm_backward (self : Text2ChakraConverter) (last_bottom_layer : Z)
    (n : nat) (fwd_node : option node_ref) (idx : nat) : M unit :=
  let i := n - 1 - idx in
  layer <- layer_at i ;;
  wg_comp <- get_comp_node (name layer) "BWD_WG" (bwd_wg_comp_time layer) ;;
  wg_comp <- (if idx =? 0
              then match fwd_node with
                   | None => raise (ValueError "fwd_comp_node is None")
                   | Some _ => add_parent wg_comp fwd_node
                   end
              else next <- layer_at (n - idx) ;;
                   wg_comp <- (match bwd_ig_comp_node next with
                               | Some c => add_parent wg_comp (Some c)
                               | None => ret wg_comp
                               end) ;;
                   this <- layer_at (n - idx - 1) ;;
                   match bwd_ig_comm_node this with
                   | Some c => add_parent wg_comp (Some c)
                   | None => ret wg_comp
                   end) ;;
  update_layer i (set_bwd_wg_comp_node (Some (node_id wg_comp))) ;;
  encode_message (MsgNode wg_comp) ;;
  (if negb (String.eqb (bwd_wg_comm_type layer) "NONE")
   then wg_comm <- get_comm_coll_node (name layer)
                     (bwd_wg_comm_type layer) (bwd_wg_comm_size layer) ;;
        let wg_comm :=
          append_attr (involved_dim (replicate (Z.to_nat (num_dims self)) true))
            wg_comm in
        wg_comm <- add_parent wg_comm (Some (node_id wg_comp)) ;;
        update_layer i (set_bwd_wg_comm_node (Some (node_id wg_comm))) ;;
        encode_message (MsgNode wg_comm)
   else ret tt) ;;
  ig_comp <- (if negb (idx =? n - 1)
              then ig_comp <- get_comp_node (name layer) "BWD_IG"
                                (bwd_ig_comp_time layer) ;;
                   ig_comp <- add_parent ig_comp (Some (node_id wg_comp)) ;;
                   update_layer i (set_bwd_ig_comp_node (Some (node_id ig_comp))) ;;
                   encode_message (MsgNode ig_comp) ;;
                   ret (Some (node_id ig_comp))
              else ret None) ;;
  if (Z.of_nat (n - idx - 1) =? last_bottom_layer + 1)%Z
  then first <- layer_at 0 ;;
       ig_comm <- get_comm_coll_node (name first)
                    (bwd_ig_comm_type first) (bwd_ig_comm_size first) ;;
       let ig_comm :=
         append_attr (involved_dim (replicate (Z.to_nat (num_dims self)) true))
           ig_comm in
       match ig_comp with
       | None => raise (ValueError "bwd_ig_comp_node is None")
       | Some _ =>
           ig_comm <- add_parent ig_comm ig_comp ;;
           update_layer 0 (set_bwd_ig_comm_node (Some (node_id ig_comm))) ;;
           encode_message (MsgNode ig_comm)
       end
  else ret tt.

Definition dlrm_pass (self : Text2ChakraConverter) (last_bottom_layer : Z)
  : M unit :=
  n <- get_layers_len ;;
  fwd_node <- for_fold (seq 0 n) None (dlrm_forward self last_bottom_layer) ;;
  for_each (seq 0 n) (dlrm_backward self last_bottom_layer n fwd_node).

Definition dlrm_clear (l : Layer) : Layer :=
  set_bwd_ig_comp_node None
    (set_bwd_ig_comm_node None
       (set_bwd_wg_comp_node None
          (set_bwd_wg_comm_node None l))).

Definition dlrm_device (self : Text2ChakraConverter) (input_text : string)
    (last_bottom_layer : Z) (npu_id : nat) : M unit :=
  open_output npu_id ;;
  encode_message (MsgMetadata (get_global_metadata input_text)) ;;
  for_each (range (num_passes self)) (λ _, dlrm_pass self last_bottom_layer) ;;
  clear_slots dlrm_clear.

Definition convert_hybrid_dlrm (self : Text2ChakraConverter)
    (input_text : string) (f : list string) (num_layers : Z)
    (last_bottom_layer : Z) : M unit :=
  ls <- lift (get_layers f num_layers) ;;
  set_layers ls ;;
  for_each (range (num_npus self))
    (dlrm_device self input_text last_bottom_layer).

(** *** convert *)

(** [f.readline()] on the lines that are left: the empty string at the
    end of the file. *)
Definition readline (f : list string) : string * list string :=
  match f with
  | [] => (EmptyString, [])
  | line :: f' => (line, f')
  end.

Definition int_error (s : string) : exn :=
  ValueError ("invalid literal for int() with base 10: '" +:+ s +:+ "'").

(** [input_file] is the list of the lines of the input file, each with
    its line terminator; [get_global_metadata] reads the same file
    again as one text. *)
Definition convert (self : Text2ChakraConverter) (input_file : list string)
  : M unit :=
  let input_text := foldr String.append EmptyString input_file in
  let '(line1, f) := readline input_file in
  let first_line := py_split line1 in
  parallelism_type <- list_get first_line 0 ;;
  let '(line2, f) := readline f in
  match py_int line2 with
  | None => raise (int_error line2)
  | Some num_layers =>
      if String.eqb parallelism_type "MICRO" then
        convert_microbenchmark self input_text f num_layers
      else if String.eqb parallelism_type "DATA" then
        convert_data_parallel self input_text f num_layers
      else if String.eqb parallelism_type "MODEL" then
        convert_model_parallel self input_text f num_layers
      else if String.eqb parallelism_type "HYBRID_DATA_MODEL" then
        convert_hybrid_data_model self input_text f num_layers
      else if String.eqb parallelism_type "HYBRID_MODEL_DATA" then
        convert_hybrid_model_data self input_text f num_layers
      else if String.eqb parallelism_type "CUSTOM" then
        convert_custom_paralellism self f num_layers
      else if String.eqb parallelism_type "HYBRID_DLRM"
              || String.eqb parallelism_type "HYBRID_DLRM_ENHANCED" then
        last_bottom <- list_get first_line 1 ;;
        match py_int last_bottom with
        | None => raise (int_error last_bottom)
        | Some last_bottom_layer =>
            convert_hybrid_dlrm self input_text f num_layers last_bottom_layer
        end
      else
        raise (ValueError ("Unsupported parallelism type, " +:+ parallelism_type))
  end.

(** ** Reading the result of a run *)

Definition run {A} (m : M A) : (exn + A) * state := m init_state.

(** The node records among some events, in emission order. *)
Fixpoint nodes_of (evs : list Event) : list Node :=
  match evs with
  | [] => []
  | Write (MsgNode n) :: evs' => n :: nodes_of evs'
  | _ :: evs' => nodes_of evs'
  end.

Definition node_ids (evs : list Event) : list nat :=
  map node_id (nodes_of evs).

(** ** Specification vocabulary *)

(** [triple P m Q E]: started in a state satisfying [P], the
    computation [m] either returns a value and a state related by [Q],
    or raises an exception in a state satisfying [E]. *)
Definition triple {A} (P : state → Prop) (m : M A)
    (Q : A → state → Prop) (E : exn → state → Prop) : Prop :=
  ∀ s, P s →
    match m s with
    | (inr a, s') => Q a s'
    | (inl e, s') => E e s'
    end.

(** [consecutive s]: the node records written so far, over all output
    files in the order of writing, carry the ids [0, 1, 2, ...] and
    every id handed out has been written. *)
Definition consecutive (s : state) : Prop :=
  node_ids (events s) = seq 0 (next_node_id s).

(** The weaker statement that survives an exception: the ids written
    are an initial segment of the naturals. *)
Definition ids_prefix (s : state) : Prop :=
  ∃ k, node_ids (events s) = seq 0 k.

(** [trace_ok evs lo]: in the events [evs], no node record written
    after an [Open] names a dependency below the number of node
    records written before that [Open]; [lo] is that number for the
    file opened last. *)
Inductive trace_ok : list Event → nat → Prop :=
  | trace_ok_nil : trace_ok [] 0
  | trace_ok_open evs lo d :
      trace_ok evs lo →
      trace_ok (evs ++ [Open d]) (length (nodes_of evs))
  | trace_ok_metadata evs lo m :
      trace_ok evs lo →
      trace_ok (evs ++ [Write (MsgMetadata m)]) lo
  | trace_ok_node evs lo n :
      trace_ok evs lo →
      Forall (le lo) (data_deps n) →
      trace_ok (evs ++ [Write (MsgNode n)]) lo.

(** A slot is fresh for the device that started at id [lo] when it is
    empty or refers to a node created since. *)
Definition fresh (lo : nat) (slot : option node_ref) : Prop :=
  match slot with
  | Some i => lo ≤ i
  | None => True
  end.

(** All layers have a fresh slot [sl]. *)
Definition all_fresh (lo : nat) (sl : Layer → option node_ref)
    (ls : list Layer) : Prop :=
  Forall (λ l, fresh lo (sl l)) ls.

(** The layer at index [i], when there is one, has a fresh slot [sl]. *)
Definition fresh_at (lo : nat) (sl : Layer → option node_ref) (i : nat)
    (ls : list Layer) : Prop :=
  ∀ l, ls !! i = Some l → fresh lo (sl l).

(** What holds throughout the generation of the device that started at
    id [lo], for [n] layers. *)
Definition device_inv (lo n : nat) (s : state) : Prop :=
  trace_ok (events s) lo ∧ lo ≤ next_node_id s ∧ length (layers s) = n.

Definition data_pass_inv (lo n : nat) (s : state) : Prop :=
  device_inv lo n s ∧ all_fresh lo bwd_wg_comm_node (layers s).

Definition data_forward_inv (lo n : nat) (i : nat) (acc : option node_ref)
    (s : state) : Prop :=
  data_pass_inv lo n s ∧ fresh lo acc ∧
  (0 < i → fresh_at lo fwd_comp_node (i - 1) (layers s)).

Definition data_backward_inv (lo n : nat) (i : nat) (s : state) : Prop :=
  data_pass_inv lo n s ∧
  (0 < i < n → fresh_at lo bwd_ig_comp_node (n - i) (layers s)).

Definition custom_forward_inv (lo n : nat) (i : nat) (acc : option node_ref)
    (s : state) : Prop :=
  device_inv lo n s ∧ fresh lo acc ∧
  (0 < i → fresh_at lo fwd_comp_node (i - 1) (layers s)).

Definition custom_backward_inv (lo n : nat) (prev : option node_ref)
    (s : state) : Prop :=
  device_inv lo n s ∧ fresh lo prev.

(** In the model-parallel and hybrid builders the input-gradient
    communication slot of the layer visited at backward position
    [num_layers - 1] is never assigned. *)
Definition never_written (num_layers : Z) (ls : list Layer) : Prop :=
  ∀ j l, ls !! j = Some l →
    Z.of_nat (length ls - 1 - j) = (num_layers - 1)%Z →
    bwd_ig_comm_node l = None.

(** [guard] is the slot that the forward sweep tests against [None]:
    [bwd_wg_comp_node] in MODEL, [bwd_wg_comm_node] in the hybrids. *)
Definition model_pass_inv (lo n : nat) (num_layers : Z)
    (guard : Layer → option node_ref) (s : state) : Prop :=
  device_inv lo n s ∧ all_fresh lo guard (layers s) ∧
  never_written num_layers (layers s).

Definition model_forward_inv (lo n : nat) (num_layers : Z)
    (guard : Layer → option node_ref) (i : nat) (acc : option node_ref)
    (s : state) : Prop :=
  model_pass_inv lo n num_layers guard s ∧ fresh lo acc ∧
  (0 < i → fresh_at lo fwd_comm_node (i - 1) (layers s)).

Definition model_backward_inv (lo n : nat) (num_layers : Z)
    (guard : Layer → option node_ref) (i : nat) (s : state) : Prop :=
  model_pass_inv lo n num_layers guard s ∧
  (0 < i < n → fresh_at lo bwd_wg_comp_node (n - i) (layers s)) ∧
  (0 < i < n ∧ Z.of_nat (i - 1) ≠ (num_layers - 1)%Z →
   fresh_at lo bwd_ig_comm_node (n - i) (layers s)).

(** In the DLRM builder the forward communication slot of layer 0 is
    assigned only when that layer's forward kind is all-to-all, and a
    run with boundary 0 stops before the first assignment. *)
Definition dlrm_gate (last_bottom_layer : Z) (ls : list Layer) : Prop :=
  ∀ l0, ls !! 0 = Some l0 →
    last_bottom_layer = 0%Z ∨ fwd_comm_type l0 ≠ "ALLTOALL" →
    fwd_comm_node l0 = None.

Definition dlrm_pass_inv (lo n : nat) (last_bottom_layer : Z) (s : state)
  : Prop :=
  device_inv lo n s ∧
  all_fresh lo bwd_wg_comm_node (layers s) ∧
  all_fresh lo bwd_wg_comp_node (layers s) ∧
  all_fresh lo bwd_ig_comp_node (layers s) ∧
  all_fresh lo bwd_ig_comm_node (layers s) ∧
  dlrm_gate last_bottom_layer (layers s).

Definition dlrm_forward_inv (lo n : nat) (last_bottom_layer : Z) (i : nat)
    (acc : option node_ref) (s : state) : Prop :=
  dlrm_pass_inv lo n last_bottom_layer s ∧ fresh lo acc ∧
  (0 < i → fresh_at lo fwd_comp_node (i - 1) (layers s)) ∧
  (0 < i → fresh_at lo fwd_comm_node 0 (layers s)).

(** All layers have an empty slot [sl]. *)
Definition slots_none (sl : Layer → option node_ref) (ls : list Layer) : Prop :=
  Forall (λ l, sl l = None) ls.

(** The exceptional postcondition that asks nothing. *)
Definition any_exn : exn → state → Prop := λ _ _, True.

(** What holds between two devices, for [n] layers: [extra] is the
    builder's own condition on the layer slots. *)
Definition between (n : nat) (extra : list Layer → Prop) (s : state) : Prop :=
  consecutive s ∧ (∃ lo, trace_ok (events s) lo) ∧
  length (layers s) = n ∧ extra (layers s).

Definition no_extra : list Layer → Prop := λ _, True.

Definition data_extra (ls : list Layer) : Prop :=
  slots_none bwd_wg_comm_node ls.

Definition model_extra (num_layers : Z) (guard : Layer → option node_ref)
    (ls : list Layer) : Prop :=
  slots_none guard ls ∧ never_written num_layers ls.

Definition dlrm_extra (last_bottom_layer : Z) (ls : list Layer) : Prop :=
  slots_none bwd_wg_comm_node ls ∧ slots_none bwd_wg_comp_node ls ∧
  slots_none bwd_ig_comp_node ls ∧ slots_none bwd_ig_comm_node ls ∧
  dlrm_gate last_bottom_layer ls.

(** A freshly parsed layer: every slot is empty. *)
Definition unlinked (l : Layer) : Prop :=
  fwd_comp_node l = None ∧ fwd_comm_node l = None ∧
  bwd_ig_comp_node l = None ∧ bwd_ig_comm_node l = None ∧
  bwd_wg_comp_node l = None ∧ bwd_wg_comm_node l = None.

(** The part of [between] that does not mention the layers. *)
Definition local_deps (s : state) : Prop :=
  consecutive s ∧ ∃ lo, trace_ok (events s) lo.

(** [between] without the id bookkeeping. *)
Definition between_rest (n : nat) (extra : list Layer → Prop) (s : state)
  : Prop :=
  (∃ lo, trace_ok (events s) lo) ∧ length (layers s) = n ∧ extra (layers s).

(** ** Vocabulary for the data-parallel passes *)

Fixpoint starts_with (p l : list ascii) : bool :=
  match p, l with
  | [], _ => true
  | a :: p', b :: l' => Ascii.eqb a b && starts_with p' l'
  | _ :: _, [] => false
  end.

Definition ends_with (suffix s : string) : bool :=
  starts_with (rev (String.list_ascii_of_string suffix)) (rev (String.list_ascii_of_string s)).

(** A compute node of phase [phase]: the node type and the phase tag
    that [get_comp_node] puts at the end of the name.  No phase tag is
    the end of another, so the phase is read off unambiguously whatever
    the layer names are. *)
Definition is_comp_node (phase : string) (n : Node) : bool :=
  match node_type n with
  | COMP_NODE => ends_with ("_" +:+ phase) (node_name n)
  | COMM_COLL_NODE => false
  end.

Definition is_comm_node (n : Node) : bool :=
  match node_type n with
  | COMM_COLL_NODE => true
  | COMP_NODE => false
  end.

Fixpoint count_nodes (P : Node → bool) (ns : list Node) : nat :=
  match ns with
  | [] => 0
  | n :: ns' => (if P n then 1 else 0) + count_nodes P ns'
  end.

(** No string that ends with [y] ends with [suffix]. *)
Definition never_ends_with (suffix y : string) : Prop :=
  ∀ t, starts_with (rev (String.list_ascii_of_string suffix))
         (rev (String.list_ascii_of_string y) ++ t) = false.

Definition write_nodes (ns : list Node) : list Event :=
  map (λ n, Write (MsgNode n)) ns.


(** The exceptional postcondition of code that cannot fail. *)
Definition no_exn : exn → state → Prop := λ _ _, False.









(** ** Vocabulary for the hybrid builders *)





(** The two masks of the hybrid builders. *)
Definition first_dim_only (self : Text2ChakraConverter) : list bool :=
  [true] ++ replicate (Z.to_nat (num_dims self - 1)) false.

Definition all_but_first_dim (self : Text2ChakraConverter) : list bool :=
  [false] ++ replicate (Z.to_nat (num_dims self - 1)) true.

(** ** Vocabulary for the DLRM builder *)





(** A computation keeps the written ids a run [0, 1, 2, ...] when it
    finishes, and a prefix of one when it raises. *)
Definition keeps_ids {A} (m : M A) : Prop :=
  triple consecutive m (λ _, consecutive) (λ _, ids_prefix).


(** ** Example inputs *)

Definition newline : string := String (ascii_of_nat 10) EmptyString.

(** A layer line: name, trainable flag and forward communication kind
    vary, the other columns are fixed. *)
Definition example_line (nm trainable fwd_kind : string) : string :=
  nm +:+ " " +:+ trainable +:+ " 10 " +:+ fwd_kind
     +:+ " 100 20 ALLREDUCE 100 30 ALLREDUCE 100 5" +:+ newline.

(** One device, one pass, two dimensions. *)
Definition example_converter : Text2ChakraConverter := mkConverter 2 1 1.

(** Two devices, two passes, two dimensions. *)
Definition example_converter_2x2 : Text2ChakraConverter := mkConverter 2 2 2.

(** CUSTOM, layer a frozen, layer b trainable. *)
Definition custom_frozen_trainable : list string :=
  [ "CUSTOM" +:+ newline; "2" +:+ newline;
    example_line "a" "0" "ALLREDUCE"; example_line "b" "1" "ALLREDUCE" ].

(** CUSTOM, both layers trainable. *)
Definition custom_both_trainable : list string :=
  [ "CUSTOM" +:+ newline; "2" +:+ newline;
    example_line "a" "1" "ALLREDUCE"; example_line "b" "1" "ALLREDUCE" ].

(** CUSTOM, one layer line under a declared count of 2, and of 1. *)
Definition custom_count_overstated : list string :=
  [ "CUSTOM" +:+ newline; "2" +:+ newline; example_line "a" "1" "ALLREDUCE" ].

Definition custom_count_exact : list string :=
  [ "CUSTOM" +:+ newline; "1" +:+ newline; example_line "a" "1" "ALLREDUCE" ].


(** DATA, two layers. *)
Definition data_two_layers : list string :=
  [ "DATA" +:+ newline; "2" +:+ newline;
    example_line "a" "1" "ALLREDUCE"; example_line "b" "1" "ALLREDUCE" ].


(** The mode tags that [convert] dispatches on. *)
Definition known_modes : list string :=
  [ "MICRO"; "DATA"; "MODEL"; "HYBRID_DATA_MODEL"; "HYBRID_MODEL_DATA";
    "CUSTOM"; "HYBRID_DLRM"; "HYBRID_DLRM_ENHANCED" ].

(** Ids, names and dependencies of the node records of a run. *)
Definition node_summary (s : state) : list (nat * string * list nat) :=
  map (λ n, (node_id n, node_name n, data_deps n)) (nodes_of (events s)).

(** The layers of [custom_frozen_trainable], as loaded. *)
Definition frozen_trainable_layers : list Layer :=
  match get_layers (drop 2 custom_frozen_trainable) 2 with
  | inr ls => ls
  | inl _ => []
  end.

(** The layers of [data_two_layers], as loaded, and the state in which
    the first pass of the first device starts. *)
Definition data_layers : list Layer :=
  match get_layers (drop 2 data_two_layers) 2 with
  | inr ls => ls
  | inl _ => []
  end.


Definition data_layer_b : Layer :=
  default (mkLayer "" false 0 "" 0 None None 0 "" 0 None None 0 "" 0 "" None None)
    (data_layers !! 1).

(** The final state of the DATA example on two devices and two passes,
    cut at the second device's [Open]. *)
Definition data_run : state :=
  (run (convert example_converter_2x2 data_two_layers)).2.

Definition data_run_device0 : list Event := take 16 (events data_run).

Definition data_run_device1 : list Event := drop 17 (events data_run).

Definition data_run_node : Node :=
  default (mkNode 0 "" COMP_NODE 0 [] []) (nodes_of data_run_device1 !! 1).





(** ** Vocabulary for the parser and the dispatch *)

(** Columns of a layer line that [Layer.__init__] passes to [int]. *)
Definition int_columns : list nat := [1; 2; 4; 5; 7; 8; 10].

(** A line made of blanks only (the empty line included). *)
Fixpoint is_blank (s : string) : bool :=
  match s with
  | EmptyString => true
  | String c s' => py_isspace c && is_blank s'
  end.

(** The exception raised by [Layer.__init__] for [line]. *)
Definition layer_error (line : string) : exn :=
  ValueError ("Cannot parse the following layer -- " +:+ dquote
                +:+ line +:+ dquote).

(** The first two lines of the input and what is left for [get_layers]. *)
Definition header_line1 (input_file : list string) : string :=
  (readline input_file).1.

Definition header_line2 (input_file : list string) : string :=
  (readline (readline input_file).2).1.

Definition layer_lines (input_file : list string) : list string :=
  (readline (readline input_file).2).2.

(** The two tags that select [convert_hybrid_dlrm]. *)
Definition dlrm_modes : list string := [ "HYBRID_DLRM"; "HYBRID_DLRM_ENHANCED" ].


(** ** The output of the micro-benchmark builder *)





(** The whole text of the input file. *)
Definition input_text_of (input_file : list string) : string :=
  foldr String.append EmptyString input_file.


(** ** Shapes of the written records *)

(** The phases after which the builders name compute nodes. *)
Definition phases : list string := [ "FWD"; "BWD_IG"; "BWD_WG" ].

(** A compute node as [get_comp_node] makes it: named after a layer and
    a phase, without attributes. *)
Definition comp_shape (n : Node) : Prop :=
  node_type n = COMP_NODE ∧ attr n = [] ∧
  ∃ layer_name phase,
    phase ∈ phases ∧
    node_name n = "COMP_NODE_" +:+ layer_name +:+ "_" +:+ phase.

(** The three values the builders give to [involved_dim]. *)
Definition dim_masks (self : Text2ChakraConverter) : list (list bool) :=
  [ replicate (Z.to_nat (num_dims self)) true;
    first_dim_only self; all_but_first_dim self ].

(** A collective node as [get_comm_coll_node] and the builders make it:
    named after a layer and a communication kind, of duration zero,
    with the attributes [comm_type] (the code of that same kind),
    [comm_size] and [involved_dim], in this order. *)
Definition comm_shape (self : Text2ChakraConverter) (n : Node) : Prop :=
  node_type n = COMM_COLL_NODE ∧ duration_micros n = 0%Z ∧
  ∃ layer_name kind size dims,
    node_name n = "COMM_COLL_NODE_" +:+ layer_name +:+ "_" +:+ kind ∧
    attr n = [ mkAttr "comm_type" (int64_val (get_comm_type kind));
               mkAttr "comm_size" (uint64_val size);
               involved_dim dims ] ∧
    dims ∈ dim_masks self.

Definition node_shape (self : Text2ChakraConverter) (n : Node) : Prop :=
  comp_shape n ∨ comm_shape self n.

(** A computation keeps a property of the events, whether it returns or
    raises. *)
Definition keeps_events {A} (I : list Event → Prop) (m : M A) : Prop :=
  triple (λ s, I (events s)) m (λ _ s, I (events s)) (λ _ s, I (events s)).

(** ** The output as a sequence of files *)

(** The events of the file of device [d]: it is opened, the records
    [header] are written, then the nodes [ns]. *)
Definition file_events (header : list Event) (d : nat) (ns : list Node)
  : list Event :=
  Open d :: header ++ write_nodes ns.

(** The events of the files of the devices [0, 1, ...], given the nodes
    of each. *)
Definition files_events (header : list Event) (files : list (list Node))
  : list Event :=
  concat (imap (file_events header) files).

(** The run is inside device [k]: the files of the devices before it
    are complete. *)
Definition in_device (G : Node → Prop) (header : list Event) (k : nat)
    (evs : list Event) : Prop :=
  ∃ files ns,
    length files = k ∧
    evs = files_events header files ++ file_events header k ns ∧
    Forall (Forall G) files ∧ Forall G ns.

(** The run is between two devices, [k] files are complete. *)
Definition after_devices (G : Node → Prop) (header : list Event) (k : nat)
    (evs : list Event) : Prop :=
  ∃ files,
    length files = k ∧ evs = files_events header files ∧
    Forall (Forall G) files.

(** The metadata record at the head of a file. *)
Definition metadata_header (input_text : string) : list Event :=
  [ Write (MsgMetadata (get_global_metadata input_text)) ].

(** The outcome of a run as far as the files go: [k] files, all of
    them when the run completes. *)
Definition files_result (G : Node → Prop) (header : list Event) (N : nat)
    (r : exn + unit) (s : state) : Prop :=
  ∃ files,
    events s = files_events header files ∧
    Forall (Forall G) files ∧
    length files ≤ N ∧
    (r = inr tt → length files = N).


(** ** Dependencies point backwards *)

(** A slot or a loop-carried local is below [k] when it is empty or
    holds an id smaller than [k]. *)
Definition below (k : nat) (slot : option node_ref) : Prop :=
  match slot with
  | Some i => i < k
  | None => True
  end.

Definition layer_below (k : nat) (l : Layer) : Prop :=
  below k (fwd_comp_node l) ∧ below k (fwd_comm_node l) ∧
  below k (bwd_ig_comp_node l) ∧ below k (bwd_ig_comm_node l) ∧
  below k (bwd_wg_comp_node l) ∧ below k (bwd_wg_comm_node l).

Definition slots_below (k : nat) (ls : list Layer) : Prop :=
  Forall (layer_below k) ls.

(** Every dependency of [n] is an id smaller than its own. *)
Definition backward_deps (n : Node) : Prop :=
  Forall (λ d, d < node_id n) (data_deps n).

Definition no_forward_refs (evs : list Event) : Prop :=
  Forall backward_deps (nodes_of evs).

(** The slots hold ids that were handed out, and the nodes written so
    far depend on smaller ids only. *)
Definition ordered (s : state) : Prop :=
  slots_below (next_node_id s) (layers s) ∧ no_forward_refs (events s).

(** [ordered], with a loop-carried local that holds an id handed out. *)
Definition ordered_with (acc : option node_ref) (s : state) : Prop :=
  ordered s ∧ below (next_node_id s) acc.

(** What is left of [ordered] when a builder raises. *)
Definition ordered_exn : exn → state → Prop :=
  λ _ s, no_forward_refs (events s).


(** ** Runs that complete *)



(** The slot [sl] is filled in every layer below index [hi], and from
    index [lo] on. *)
Definition linked_upto (sl : Layer → option node_ref) (hi : nat)
    (ls : list Layer) : Prop :=
  ∀ j l, j < hi → ls !! j = Some l → is_Some (sl l).

Definition linked_from (sl : Layer → option node_ref) (lo : nat)
    (ls : list Layer) : Prop :=
  ∀ j l, lo ≤ j → ls !! j = Some l → is_Some (sl l).




(** The three modes whose builders chain through the forward
    communication nodes and consult the declared count. *)
Definition chain_modes : list string :=
  [ "MODEL"; "HYBRID_DATA_MODEL"; "HYBRID_MODEL_DATA" ].

(** Nothing but the number of layers is asked of the state. *)
Definition has_layers (n : nat) (s : state) : Prop := length (layers s) = n.

(** The only exception that a missing predecessor raises. *)
Definition attribute_error : exn → state → Prop :=
  λ e _, e = AttributeError.

(** Forward loop of a chaining builder on its way to the missing
    predecessor. *)
Definition chain_forward_doomed (num_layers : Z) (n i : nat)
    (acc : option node_ref) (s : state) : Prop :=
  length (layers s) = n ∧ never_written num_layers (layers s) ∧
  (0 < i → is_Some acc).

(** Backward loop of a chaining builder with an understated count: it
    cannot get past round [num_layers]. *)
Definition chain_backward_doomed (num_layers : Z) (n i : nat) (s : state)
  : Prop :=
  (Z.of_nat i ≤ num_layers)%Z ∧
  length (layers s) = n ∧ never_written num_layers (layers s).

(** A pass is entered with [n] layers and the slot of the layer at
    backward position [num_layers - 1] empty. *)
Definition doomed (num_layers : Z) (n : nat) (s : state) : Prop :=
  length (layers s) = n ∧ never_written num_layers (layers s).

(** The postcondition of a computation that cannot return. *)
Definition no_return {A} : A → state → Prop := λ _ _, False.

(** ** The kinds that CUSTOM gives to the layers *)

(** The kind of the layer [l] at index [i]: trainable or frozen, with
    or without a trainable layer at a smaller index. *)
Definition layer_kind (ls : list Layer) (i : nat) (l : Layer) : string :=
  if is_trainable l
  then (if existsb is_trainable (take i ls) then "FP+IG+WG" else "FP+WG")
  else (if existsb is_trainable (take i ls) then "FP+IG" else "FP").

(** The kinds of the first [k] layers, in the order of the layers. *)
Definition layer_kinds (k : nat) (ls : list Layer) : list string :=
  imap (layer_kind ls) (take k ls).

Definition custom_kinds : list string := [ "FP"; "FP+IG"; "FP+WG"; "FP+IG+WG" ].

(** The layer at index [j] is trainable and no layer of a smaller index is. *)
Definition first_trainable_at (j : nat) (ls : list Layer) : Prop :=
  (∀ i l, i < j → ls !! i = Some l → is_trainable l = false) ∧
  ∃ l, ls !! j = Some l ∧ is_trainable l = true.


(** Forward loop of CUSTOM after [i] rounds: the layers visited so far
    have their forward node. *)
Definition custom_forward_linked (n i : nat) (acc : option node_ref)
    (s : state) : Prop :=
  length (layers s) = n ∧ (0 < i → is_Some acc) ∧
  linked_upto fwd_comp_node i (layers s).


(** Backward loop of CUSTOM on its way to position [j], the first one
    whose kind makes a node: there is no previous node yet, and the
    loop cannot get past [j]. *)
Definition custom_backward_doomed (j n idx : nat) (prev : option node_ref)
    (s : state) : Prop :=
  idx ≤ j ∧ prev = None ∧ length (layers s) = n.

(** Backward loop of CUSTOM over more layers than the [k] kinds: it
    cannot get past round [k]. *)
Definition custom_backward_short (k n idx : nat) (_ : option node_ref)
    (s : state) : Prop :=
  idx ≤ k ∧ length (layers s) = n.

Definition index_or_attribute_error : exn → state → Prop :=
  λ e _, e = IndexError ∨ e = AttributeError.

(** The outcome of a computation that stops with an exception allowed
    by [E]. *)
Definition stops_with {A} (E : exn → state → Prop) (r : (exn + A) * state)
  : Prop :=
  match r with
  | (inl e, s) => E e s
  | (inr _, _) => False
  end.

(** ** More example inputs *)



Definition model_count_understated : list string :=
  [ "MODEL" +:+ newline; "1" +:+ newline;
    example_line "a" "1" "ALLREDUCE"; example_line "b" "1" "ALLREDUCE" ].

(** CUSTOM with a declared count of 1 for the two layer lines of
    [custom_both_trainable]. *)
Definition custom_count_understated : list string :=
  [ "CUSTOM" +:+ newline; "1" +:+ newline;
    example_line "a" "1" "ALLREDUCE"; example_line "b" "1" "ALLREDUCE" ].

(** The second layer of [custom_frozen_trainable], as loaded. *)
Definition frozen_trainable_layer_b : Layer :=
  default (mkLayer "" false 0 "" 0 None None 0 "" 0 None None 0 "" 0 "" None None)
    (frozen_trainable_layers !! 1).

(** DATA, one layer line followed by an empty line. *)
Definition data_blank_tail : list string :=
  [ "DATA" +:+ newline; "1" +:+ newline;
    example_line "a" "1" "ALLREDUCE"; newline ].

(** HYBRID_DLRM without the boundary on the first line. *)
Definition dlrm_no_boundary : list string :=
  [ "HYBRID_DLRM" +:+ newline; "1" +:+ newline;
    example_line "a" "1" "ALLTOALL" ].

(** The nodes written by the DATA example on two devices, and the
    second of them with what is written before and after it. *)
Definition data_run_nodes : list Node := nodes_of (events data_run).

Definition data_run_second : Node :=
  default (mkNode 0 "" COMP_NODE 0 [] []) (data_run_nodes !! 1).

(** * Proofs *)

(** ** Reasoning about monadic code *)

Section triple_rules.
Context {A B : Type}.

Lemma triple_ret (P : state → Prop) (a : A) Q E :
  (∀ s, P s → Q a s) → triple P (ret a) Q E.
Proof. intros H s Hs. simpl. auto. Qed.

Lemma triple_raise (P : state → Prop) (e : exn) (Q : A → state → Prop) E :
  (∀ s, P s → E e s) → triple P (raise e) Q E.
Proof. intros H s Hs. simpl. auto. Qed.

Lemma triple_bind P (m : M A) (k : A → M B) Q R E :
  triple P m Q E →
  (∀ a, triple (Q a) (k a) R E) →
  triple P (bind m k) R E.
Proof.
  intros Hm Hk s Hs. unfold bind.
  specialize (Hm s Hs). destruct (m s) as [[e|a] s']; [exact Hm|].
  apply Hk, Hm.
Qed.

Lemma triple_weaken (P P' : state → Prop) (m : M A)
    (Q Q' : A → state → Prop) (E E' : exn → state → Prop) :
  triple P m Q E →
  (∀ s, P' s → P s) →
  (∀ a s, Q a s → Q' a s) →
  (∀ e s, E e s → E' e s) →
  triple P' m Q' E'.
Proof.
  intros Hm HP HQ HE s Hs. specialize (Hm s (HP s Hs)).
  destruct (m s) as [[e|a] s']; auto.
Qed.
End triple_rules.

(** Loop rule: an invariant indexed by the iteration counter and the
    loop-carried local variables. *)
Lemma triple_for_fold {T} (I : nat → T → state → Prop) E
    (body : nat → T → M T) (k a : nat) (acc : T) :
  (∀ i acc', a ≤ i < a + k →
     triple (I i acc') (body i acc') (λ acc'' s', I (i + 1) acc'' s') E) →
  triple (I a acc) (for_fold (seq a k) acc body)
    (λ acc' s', I (a + k) acc' s') E.
Proof.
  revert a acc. induction k as [|k IH]; intros a acc Hbody.
  - simpl. apply triple_ret. intros s Hs. by replace (a + 0) with a by lia.
  - simpl. eapply triple_bind.
    + apply Hbody. lia.
    + intros acc'. replace (a + S k) with (S a + k) by lia.
      replace (a + 1) with (S a) by lia.
      apply IH. intros i acc'' Hi. apply Hbody. lia.
Qed.

Lemma triple_for_each (I : nat → state → Prop) E
    (body : nat → M unit) (k a : nat) :
  (∀ i, a ≤ i < a + k →
     triple (I i) (body i) (λ _ s', I (i + 1) s') E) →
  triple (I a) (for_each (seq a k) body) (λ _ s', I (a + k) s') E.
Proof.
  intros Hbody. unfold for_each.
  apply (triple_for_fold (λ i _ s, I i s) E (λ x _, body x) k a tt).
  intros i [] Hi. apply Hbody, Hi.
Qed.

(** The same rule for an invariant that does not mention the counter. *)
Lemma triple_for_fold_inv {A T} (I : state → Prop) E
    (body : A → T → M T) (l : list A) (acc : T) :
  (∀ x acc', triple I (body x acc') (λ _ s', I s') E) →
  triple I (for_fold l acc body) (λ _ s', I s') E.
Proof.
  intros Hbody. revert acc. induction l as [|x l IH]; intros acc.
  - simpl. apply triple_ret. auto.
  - simpl. eapply triple_bind; [apply Hbody|]. intros acc'. apply IH.
Qed.

Lemma triple_for_each_inv {A} (I : state → Prop) E
    (body : A → M unit) (l : list A) :
  (∀ x, triple I (body x) (λ _ s', I s') E) →
  triple I (for_each l body) (λ _ s', I s') E.
Proof.
  intros Hbody. unfold for_each. apply triple_for_fold_inv.
  intros x _. apply Hbody.
Qed.

(** ** Node ids are handed out and written consecutively *)

Lemma node_ids_app e1 e2 : node_ids (e1 ++ e2) = node_ids e1 ++ node_ids e2.
Proof.
  unfold node_ids.
  induction e1 as [|[d|[m|n]] e1 IH]; simpl; auto. by rewrite IH.
Qed.

Lemma node_ids_snoc_node ev n :
  node_ids (ev ++ [Write (MsgNode n)]) = node_ids ev ++ [node_id n].
Proof. by rewrite node_ids_app. Qed.

Lemma node_ids_snoc_metadata ev m :
  node_ids (ev ++ [Write (MsgMetadata m)]) = node_ids ev.
Proof. rewrite node_ids_app. apply app_nil_r. Qed.

Lemma node_ids_snoc_open ev d : node_ids (ev ++ [Open d]) = node_ids ev.
Proof. rewrite node_ids_app. apply app_nil_r. Qed.

(** Symbolic execution of a loop body: case analysis on the innermost
    scrutinee that blocks evaluation. *)
Ltac exec_step :=
  match goal with
  | |- context [match ?x with _ => _ end] =>
      lazymatch x with
      | context [match _ with _ => _ end] => fail
      | _ => destruct x eqn:?
      end
  end.

Ltac exec := simpl; repeat (exec_step; simpl).

Ltac unfold_prims :=
  unfold bind, layer_at, list_get, get_comm_coll_node, get_comp_node, get_node,
    add_parent, update_layer, encode_message, open_output, set_layers,
    get_layers_len, append_attr, lift, ret, raise.

Ltac ids_solve :=
  unfold consecutive, ids_prefix in *; simpl in *;
  rewrite ?node_ids_snoc_node, ?node_ids_snoc_metadata, ?node_ids_snoc_open;
  simpl;
  match goal with
  | H : node_ids _ = _ |- _ => rewrite ?H
  end;
  first [ rewrite <- ?seq_S; reflexivity
        | eexists; rewrite <- ?seq_S; reflexivity ].

Ltac ids_body :=
  intros [? ? ?] ?; unfold_prims; exec; try ids_solve.

Lemma keeps_ids_bind {A B} (m : M A) (k : A → M B) :
  keeps_ids m → (∀ a, keeps_ids (k a)) → keeps_ids (bind m k).
Proof. intros Hm Hk. eapply triple_bind; [exact Hm|exact Hk]. Qed.

Lemma keeps_ids_for_fold {A T} (l : list A) (acc : T) body :
  (∀ x acc', keeps_ids (body x acc')) → keeps_ids (for_fold l acc body).
Proof. intros H. apply triple_for_fold_inv, H. Qed.

Lemma keeps_ids_for_each {A} (l : list A) body :
  (∀ x, keeps_ids (body x)) → keeps_ids (for_each l body).
Proof. intros H. apply triple_for_each_inv, H. Qed.

Lemma keeps_ids_get_layers_len : keeps_ids get_layers_len.
Proof. ids_body. Qed.

Lemma keeps_ids_update_layer i f : keeps_ids (update_layer i f).
Proof. ids_body. Qed.

Lemma keeps_ids_set_layers lys : keeps_ids (set_layers lys).
Proof. ids_body. Qed.

Lemma keeps_ids_lift {A} (r : exn + A) : keeps_ids (lift r).
Proof. intros [n ls ev] H. destruct r; simpl; [by eexists|done]. Qed.

Lemma keeps_ids_open_output d : keeps_ids (open_output d).
Proof. ids_body. Qed.

Lemma keeps_ids_metadata m : keeps_ids (encode_message (MsgMetadata m)).
Proof. ids_body. Qed.

Lemma keeps_ids_clear_slots f : keeps_ids (clear_slots f).
Proof.
  apply keeps_ids_bind; [apply keeps_ids_get_layers_len|]. intros n.
  apply keeps_ids_for_each. intros i. apply keeps_ids_update_layer.
Qed.

Lemma keeps_ids_ret {A} (a : A) : keeps_ids (ret a).
Proof. by intros s Hs. Qed.

Lemma keeps_ids_layer_at i : keeps_ids (layer_at i).
Proof. ids_body. Qed.

Lemma keeps_ids_has_trainable_underneath js :
  keeps_ids (has_trainable_underneath js).
Proof.
  induction js as [|j js IH]; [apply keeps_ids_ret|].
  simpl. apply keeps_ids_bind; [apply keeps_ids_layer_at|].
  intros l. destruct (is_trainable l); [apply keeps_ids_ret|apply IH].
Qed.

Lemma keeps_ids_custom_layer_type layer_id layer_types :
  keeps_ids (custom_layer_type layer_id layer_types).
Proof.
  apply keeps_ids_bind; [apply keeps_ids_has_trainable_underneath|].
  intros u. unfold custom_layer_type. ids_body.
Qed.

Lemma keeps_ids_custom_forward idx acc : keeps_ids (custom_forward idx acc).
Proof. unfold custom_forward. ids_body. Qed.

Lemma keeps_ids_custom_backward tys n fwd idx prev :
  keeps_ids (custom_backward tys n fwd idx prev).
Proof. unfold custom_backward. ids_body. Qed.

Lemma keeps_ids_micro_body self idx : keeps_ids (micro_body self idx).
Proof. unfold micro_body. ids_body. Qed.

Lemma keeps_ids_data_forward idx acc : keeps_ids (data_forward idx acc).
Proof. unfold data_forward. ids_body. Qed.

Lemma keeps_ids_data_backward self n fwd idx :
  keeps_ids (data_backward self n fwd idx).
Proof. unfold data_backward. ids_body. Qed.

Lemma keeps_ids_model_forward self idx acc : keeps_ids (model_forward self idx acc).
Proof. unfold model_forward. ids_body. Qed.

Lemma keeps_ids_model_backward self nl n fwd idx :
  keeps_ids (model_backward self nl n fwd idx).
Proof. unfold model_backward. ids_body. Qed.

Lemma keeps_ids_hybrid_data_model_forward self idx acc :
  keeps_ids (hybrid_data_model_forward self idx acc).
Proof. unfold hybrid_data_model_forward. ids_body. Qed.

Lemma keeps_ids_hybrid_data_model_backward self nl n fwd idx :
  keeps_ids (hybrid_data_model_backward self nl n fwd idx).
Proof. unfold hybrid_data_model_backward. ids_body. Qed.

Lemma keeps_ids_hybrid_model_data_forward self idx acc :
  keeps_ids (hybrid_model_data_forward self idx acc).
Proof. unfold hybrid_model_data_forward. ids_body. Qed.

Lemma keeps_ids_hybrid_model_data_backward self nl n fwd idx :
  keeps_ids (hybrid_model_data_backward self nl n fwd idx).
Proof. unfold hybrid_model_data_backward. ids_body. Qed.

Lemma keeps_ids_dlrm_forward self b idx acc :
  keeps_ids (dlrm_forward self b idx acc).
Proof. unfold dlrm_forward. ids_body. Qed.

Lemma keeps_ids_dlrm_backward self b n fwd idx :
  keeps_ids (dlrm_backward self b n fwd idx).
Proof. unfold dlrm_backward. ids_body. Qed.

Ltac keeps_ids_step :=
  cbv beta;
  lazymatch goal with
  | |- keeps_ids (ret _) => apply keeps_ids_ret
  | |- keeps_ids (lift _) => apply keeps_ids_lift
  | |- keeps_ids get_layers_len => apply keeps_ids_get_layers_len
  | |- keeps_ids (set_layers _) => apply keeps_ids_set_layers
  | |- keeps_ids (open_output _) => apply keeps_ids_open_output
  | |- keeps_ids (encode_message (MsgMetadata _)) => apply keeps_ids_metadata
  | |- keeps_ids (clear_slots _) => apply keeps_ids_clear_slots
  | |- keeps_ids (custom_layer_type _ _) => apply keeps_ids_custom_layer_type
  | |- keeps_ids (custom_forward _ _) => apply keeps_ids_custom_forward
  | |- keeps_ids (custom_backward _ _ _ _ _) => apply keeps_ids_custom_backward
  | |- keeps_ids (micro_body _ _) => apply keeps_ids_micro_body
  | |- keeps_ids (data_forward _ _) => apply keeps_ids_data_forward
  | |- keeps_ids (data_backward _ _ _ _) => apply keeps_ids_data_backward
  | |- keeps_ids (model_forward _ _ _) => apply keeps_ids_model_forward
  | |- keeps_ids (model_backward _ _ _ _ _) => apply keeps_ids_model_backward
  | |- keeps_ids (hybrid_data_model_forward _ _ _) =>
      apply keeps_ids_hybrid_data_model_forward
  | |- keeps_ids (hybrid_data_model_backward _ _ _ _ _) =>
      apply keeps_ids_hybrid_data_model_backward
  | |- keeps_ids (hybrid_model_data_forward _ _ _) =>
      apply keeps_ids_hybrid_model_data_forward
  | |- keeps_ids (hybrid_model_data_backward _ _ _ _ _) =>
      apply keeps_ids_hybrid_model_data_backward
  | |- keeps_ids (dlrm_forward _ _ _ _) => apply keeps_ids_dlrm_forward
  | |- keeps_ids (dlrm_backward _ _ _ _ _) => apply keeps_ids_dlrm_backward
  | |- keeps_ids (for_fold _ _ _) => apply keeps_ids_for_fold; intros ? ?
  | |- keeps_ids (for_each _ _) => apply keeps_ids_for_each; intros ?
  | |- keeps_ids (bind _ _) => apply keeps_ids_bind; [|intros ?]
  end.

Ltac keeps_ids_auto := repeat keeps_ids_step.

Lemma keeps_ids_convert_custom_paralellism self f num_layers :
  keeps_ids (convert_custom_paralellism self f num_layers).
Proof.
  unfold convert_custom_paralellism, custom_device, custom_pass. keeps_ids_auto.
Qed.

Lemma keeps_ids_convert_microbenchmark self text f num_layers :
  keeps_ids (convert_microbenchmark self text f num_layers).
Proof.
  unfold convert_microbenchmark, micro_device, micro_pass. keeps_ids_auto.
Qed.

Lemma keeps_ids_convert_data_parallel self text f num_layers :
  keeps_ids (convert_data_parallel self text f num_layers).
Proof.
  unfold convert_data_parallel, data_device, data_pass. keeps_ids_auto.
Qed.

Lemma keeps_ids_convert_model_parallel self text f num_layers :
  keeps_ids (convert_model_parallel self text f num_layers).
Proof.
  unfold convert_model_parallel, model_device, model_pass. keeps_ids_auto.
Qed.

Lemma keeps_ids_convert_hybrid_data_model self text f num_layers :
  keeps_ids (convert_hybrid_data_model self text f num_layers).
Proof.
  unfold convert_hybrid_data_model, hybrid_data_model_device,
    hybrid_data_model_pass.
  keeps_ids_auto.
Qed.

Lemma keeps_ids_convert_hybrid_model_data self text f num_layers :
  keeps_ids (convert_hybrid_model_data self text f num_layers).
Proof.
  unfold convert_hybrid_model_data, hybrid_model_data_device,
    hybrid_model_data_pass.
  keeps_ids_auto.
Qed.

Lemma keeps_ids_convert_hybrid_dlrm self text f num_layers b :
  keeps_ids (convert_hybrid_dlrm self text f num_layers b).
Proof.
  unfold convert_hybrid_dlrm, dlrm_device, dlrm_pass. keeps_ids_auto.
Qed.

Lemma keeps_ids_raise {A} e : keeps_ids (@raise A e).
Proof. intros s Hs. simpl. by eexists. Qed.

Lemma keeps_ids_list_get {A} (l : list A) i : keeps_ids (list_get l i).
Proof.
  unfold list_get. destruct (l !! i); [apply keeps_ids_ret|apply keeps_ids_raise].
Qed.

Lemma keeps_ids_convert self input_file : keeps_ids (convert self input_file).
Proof.
  unfold convert.
  destruct (readline input_file) as [line1 f].
  apply keeps_ids_bind; [apply keeps_ids_list_get|]. intros ty.
  destruct (readline f) as [line2 f'].
  destruct (py_int line2) as [num_layers|]; [|apply keeps_ids_raise].
  repeat match goal with
         | |- keeps_ids (if ?b then _ else _) => destruct b
         end.
  - apply keeps_ids_convert_microbenchmark.
  - apply keeps_ids_convert_data_parallel.
  - apply keeps_ids_convert_model_parallel.
  - apply keeps_ids_convert_hybrid_data_model.
  - apply keeps_ids_convert_hybrid_model_data.
  - apply keeps_ids_convert_custom_paralellism.
  - apply keeps_ids_bind; [apply keeps_ids_list_get|]. intros b.
    destruct (py_int b); [apply keeps_ids_convert_hybrid_dlrm|apply keeps_ids_raise].
  - apply keeps_ids_raise.
Qed.

(** C4.  The id counter starts at 0 when the converter is created; each
    call of [get_node] returns the current counter value and advances
    it by exactly one; opening the next device's file leaves the
    counter alone.  Hence, for every configuration and every input,
    the ids of all node records written during one run, over all
    devices in the order of writing, are 0, 1, 2, ... without gap or
    repetition, and when the run completes every id handed out has
    been written. *)
Theorem node_ids_consecutive :
  next_node_id init_state = 0 ∧
  (∀ name ty s,
     ∃ node s', get_node name ty s = (inr node, s') ∧
       node_id node = next_node_id s ∧
       next_node_id s' = S (next_node_id s)) ∧
  (∀ d s, next_node_id (open_output d s).2 = next_node_id s) ∧
  (∀ self input_file,
     let '(r, s) := run (convert self input_file) in
     ∃ k, node_ids (events s) = seq 0 k ∧
          (r = inr tt → k = next_node_id s)).
Proof.
  split; [reflexivity|]. split; [|split].
  - intros name ty s. eexists _, _. split; [reflexivity|]. by simpl.
  - reflexivity.
  - intros self input_file.
    pose proof (keeps_ids_convert self input_file init_state eq_refl) as H.
    unfold run. destruct (convert self input_file init_state) as [[e|[]] s].
    + destruct H as [k Hk]. exists k. split; [exact Hk|]. discriminate.
    + exists (next_node_id s). split; [exact H|]. reflexivity.
Qed.

(** ** Dependencies stay inside a device *)

Lemma all_fresh_lookup lo sl ls i l :
  all_fresh lo sl ls → ls !! i = Some l → fresh lo (sl l).
Proof. intros H Hi. by apply (Forall_lookup_1 _ _ _ _ H Hi). Qed.

Lemma fresh_at_lookup lo sl ls i j l :
  fresh_at lo sl j ls → ls !! i = Some l → i = j → fresh lo (sl l).
Proof. intros H Hi ->. by apply H. Qed.

Lemma all_fresh_alter lo sl f i ls :
  all_fresh lo sl ls →
  (∀ l, fresh lo (sl l) → fresh lo (sl (f l))) →
  all_fresh lo sl (alter f i ls).
Proof.
  unfold all_fresh. intros H Hf. apply Forall_alter; [done|].
  intros l _. apply Hf.
Qed.

(** Booleans of the source's tests, as arithmetic facts. *)
Ltac bool_facts :=
  repeat match goal with
    | H : negb _ = true |- _ => apply negb_true_iff in H
    | H : negb _ = false |- _ => apply negb_false_iff in H
    | H : (_ =? _) = true |- _ => apply Nat.eqb_eq in H
    | H : (_ =? _) = false |- _ => apply Nat.eqb_neq in H
    | H : (_ =? _)%Z = true |- _ => apply Z.eqb_eq in H
    | H : (_ =? _)%Z = false |- _ => apply Z.eqb_neq in H
    | H : (_ =? _)%string = true |- _ => apply String.eqb_eq in H
    | H : (_ =? _)%string = false |- _ => apply String.eqb_neq in H
    | H : Some _ = Some _ |- _ => injection H as H; subst
    end.

(** Discharge the premises of conditional invariants by arithmetic. *)
Ltac use_premises :=
  repeat match goal with
    | H : ?c → fresh_at _ _ _ _ |- _ =>
        let Hc := fresh in
        first [ assert (Hc : c) by lia; specialize (H Hc)
              | clear H ]
    end.

(** Collect what the invariants say about the layers that were read. *)
Ltac fresh_facts :=
  repeat match goal with
    | Hall : all_fresh ?lo ?sl ?ls, Hl : ?ls !! _ = Some ?l |- _ =>
        lazymatch goal with
        | _ : fresh lo (sl l) |- _ => fail
        | _ => pose proof (all_fresh_lookup _ _ _ _ _ Hall Hl)
        end
    | Hat : fresh_at ?lo ?sl ?j ?ls, Hl : ?ls !! ?i = Some ?l |- _ =>
        lazymatch goal with
        | _ : fresh lo (sl l) |- _ => fail
        | _ =>
            let He := fresh in
            assert (He : i = j) by lia;
            pose proof (fresh_at_lookup _ _ _ _ _ _ Hat Hl He); clear He
        end
    end;
  repeat match goal with
    | Heq : ?sl ?l = Some _, H : fresh _ (?sl ?l) |- _ => rewrite Heq in H
    end;
  unfold fresh in *.

Ltac solve_trace :=
  repeat first
    [ assumption
    | apply trace_ok_node;
        [|simpl; repeat (apply Forall_cons_2; [lia|]); apply Forall_nil_2]
    | apply trace_ok_metadata ].

Ltac solve_all_fresh :=
  repeat first
    [ assumption
    | apply all_fresh_alter; [|intros ? ?; simpl; first [assumption | lia]] ].

(** A lookup in the updated layer list, reduced to a lookup in the
    list the body started from. *)
Ltac lookup_alter H :=
  simpl in H;
  repeat (rewrite list_lookup_alter in H;
          destruct (decide _) in H; [|try lia]);
  repeat (apply fmap_Some in H; destruct H as (? & H & ->)).

(** Two lookups at the same index read the same layer. *)
Ltac unify_lookups :=
  repeat match goal with
    | H : ?ls !! ?i = Some ?a, H' : ?ls !! ?j = Some ?b |- _ =>
        let He := fresh in
        assert (He : i = j) by lia;
        rewrite He in H; rewrite H in H'; injection H' as ->
    end.

Ltac rewrite_slots :=
  repeat match goal with
    | Heq : ?x = Some _ |- context [?x] => rewrite Heq
    | Heq : ?x = None |- context [?x] => rewrite Heq
    end.

Ltac solve_fresh_at :=
  let l := fresh "l" in
  let Hl := fresh "Hl" in
  unfold fresh_at; intros l Hl;
  lookup_alter Hl; simpl;
  first [ lia
        | unify_lookups; fresh_facts; simpl in *; rewrite_slots;
          first [assumption | lia | exact I] ].


Ltac unfold_invs :=
  unfold data_forward_inv, data_backward_inv, data_pass_inv,
    custom_forward_inv, custom_backward_inv,
    model_forward_inv, model_backward_inv, model_pass_inv,
    dlrm_forward_inv, dlrm_pass_inv, device_inv in *.

Ltac split_all := repeat match goal with |- _ ∧ _ => split end.

Ltac start_body :=
  let nid := fresh "nid" in
  let ls := fresh "ls" in
  let ev := fresh "ev" in
  unfold triple; intros [nid ls ev] ?;
  unfold_invs; simpl in *;
  repeat match goal with
    | H : _ ∧ _ |- _ => destruct H
    end.

Ltac finish_body :=
  simpl in *; bool_facts; use_premises; fresh_facts;
  simpl;
  split_all;
  first [ solve [solve_trace]
        | lia
        | rewrite ?length_alter; lia
        | solve [solve_all_fresh]
        | solve [intros; solve_fresh_at] ].

Lemma data_forward_fresh lo n i acc :
  triple (data_forward_inv lo n i acc) (data_forward i acc)
    (λ acc' s', data_forward_inv lo n (i + 1) acc' s') any_exn.
Proof.
  start_body. unfold data_forward. unfold_prims. exec; try exact I.
  all: finish_body.
Qed.

Lemma data_backward_fresh self lo n fwd i :
  fresh lo fwd → i < n →
  triple (data_backward_inv lo n i) (data_backward self n fwd i)
    (λ _ s', data_backward_inv lo n (i + 1) s') any_exn.
Proof.
  intros Hfwd Hi. start_body.
  unfold data_backward. unfold_prims. exec; try exact I.
  all: finish_body.
Qed.

Lemma micro_body_fresh self lo n i :
  triple (device_inv lo n) (micro_body self i) (λ _ s', device_inv lo n s') any_exn.
Proof.
  start_body. unfold micro_body. unfold_prims. exec; try exact I.
  all: finish_body.
Qed.

Lemma custom_forward_fresh lo n i acc :
  triple (custom_forward_inv lo n i acc) (custom_forward i acc)
    (λ acc' s', custom_forward_inv lo n (i + 1) acc' s') any_exn.
Proof.
  start_body. unfold custom_forward. unfold_prims. exec; try exact I.
  all: finish_body.
Qed.

Lemma custom_backward_fresh lo tys n fwd i prev :
  fresh lo fwd →
  triple (custom_backward_inv lo n prev) (custom_backward tys n fwd i prev)
    (λ prev' s', custom_backward_inv lo n prev' s') any_exn.
Proof.
  intros Hfwd. start_body. unfold custom_backward. unfold_prims.
  exec; try exact I.
  all: finish_body.
Qed.

(** A slot that is never assigned cannot have been read as [Some]. *)
Ltac never_written_contra :=
  match goal with
  | Hnw : never_written ?nl ?ls, Hl : ?ls !! ?j = Some ?l,
    Heq : bwd_ig_comm_node ?l = Some _ |- _ =>
      let Hj := fresh in
      assert (Hj : Z.of_nat (length ls - 1 - j) = (nl - 1)%Z) by lia;
      rewrite (Hnw j l Hl Hj) in Heq; discriminate Heq
  end.

Ltac solve_never_written :=
  let j := fresh "j" in
  let l := fresh "l" in
  let Hl := fresh "Hl" in
  let Hj := fresh "Hj" in
  intros j l Hl Hj; rewrite ?length_alter in Hj;
  lookup_alter Hl; simpl;
  first [ exfalso; lia
        | match goal with
          | Hnw : never_written _ ?ls, Hl' : ?ls !! ?k = Some ?a
            |- bwd_ig_comm_node ?a = None =>
              apply (Hnw k a Hl'); lia
          end ].

Ltac finish_model :=
  simpl in *; bool_facts;
  try never_written_contra;
  use_premises; fresh_facts; simpl;
  split_all;
  first [ solve [solve_trace]
        | lia
        | rewrite ?length_alter; lia
        | solve [solve_all_fresh]
        | solve [unfold never_written; solve_never_written]
        | solve [intros; solve_fresh_at] ].

Lemma model_forward_fresh self lo n nl i acc :
  triple (model_forward_inv lo n nl bwd_wg_comp_node i acc) (model_forward self i acc)
    (λ acc' s', model_forward_inv lo n nl bwd_wg_comp_node (i + 1) acc' s') any_exn.
Proof.
  start_body. unfold model_forward. unfold_prims. exec; try exact I.
  all: finish_model.
Qed.

Lemma model_backward_fresh self lo nl n fwd i :
  fresh lo fwd → i < n →
  triple (model_backward_inv lo n nl bwd_wg_comp_node i)
    (model_backward self nl n fwd i)
    (λ _ s', model_backward_inv lo n nl bwd_wg_comp_node (i + 1) s') any_exn.
Proof.
  intros Hfwd Hi. start_body. unfold model_backward. unfold_prims.
  exec; try exact I.
  all: destruct (decide (Z.of_nat (i - 1) = (nl - 1)%Z)).
  all: finish_model.
Qed.

Lemma hybrid_data_model_forward_fresh self lo n nl i acc :
  triple (model_forward_inv lo n nl bwd_wg_comm_node i acc)
    (hybrid_data_model_forward self i acc)
    (λ acc' s', model_forward_inv lo n nl bwd_wg_comm_node (i + 1) acc' s') any_exn.
Proof.
  start_body. unfold hybrid_data_model_forward. unfold_prims. exec; try exact I.
  all: finish_model.
Qed.

Lemma hybrid_data_model_backward_fresh self lo nl n fwd i :
  fresh lo fwd → i < n →
  triple (model_backward_inv lo n nl bwd_wg_comm_node i)
    (hybrid_data_model_backward self nl n fwd i)
    (λ _ s', model_backward_inv lo n nl bwd_wg_comm_node (i + 1) s') any_exn.
Proof.
  intros Hfwd Hi. start_body. unfold hybrid_data_model_backward. unfold_prims.
  exec; try exact I.
  all: destruct (decide (Z.of_nat (i - 1) = (nl - 1)%Z)).
  all: finish_model.
Qed.

Lemma hybrid_model_data_forward_fresh self lo n nl i acc :
  triple (model_forward_inv lo n nl bwd_wg_comm_node i acc)
    (hybrid_model_data_forward self i acc)
    (λ acc' s', model_forward_inv lo n nl bwd_wg_comm_node (i + 1) acc' s') any_exn.
Proof.
  start_body. unfold hybrid_model_data_forward. unfold_prims. exec; try exact I.
  all: finish_model.
Qed.

Lemma hybrid_model_data_backward_fresh self lo nl n fwd i :
  fresh lo fwd → i < n →
  triple (model_backward_inv lo n nl bwd_wg_comm_node i)
    (hybrid_model_data_backward self nl n fwd i)
    (λ _ s', model_backward_inv lo n nl bwd_wg_comm_node (i + 1) s') any_exn.
Proof.
  intros Hfwd Hi. start_body. unfold hybrid_model_data_backward. unfold_prims.
  exec; try exact I.
  all: destruct (decide (Z.of_nat (i - 1) = (nl - 1)%Z)).
  all: finish_model.
Qed.

Lemma dlrm_gate_alter b f i ls :
  dlrm_gate b ls →
  (∀ l, fwd_comm_type (f l) = fwd_comm_type l ∧
        fwd_comm_node (f l) = fwd_comm_node l) →
  dlrm_gate b (alter f i ls).
Proof.
  intros Hg Hf l0 Hl0 Hc. rewrite list_lookup_alter in Hl0.
  destruct (decide (i = 0)) as [->|].
  - apply fmap_Some in Hl0 as (l & Hl & ->).
    destruct (Hf l) as [Hty Hnode]. rewrite Hnode. rewrite Hty in Hc.
    by apply Hg.
  - by apply Hg.
Qed.

Ltac solve_gate :=
  repeat (apply dlrm_gate_alter; [|intros ?; split; reflexivity]);
  assumption.

Lemma dlrm_backward_fresh self lo b n fwd i :
  fresh lo fwd → i < n →
  triple (dlrm_pass_inv lo n b) (dlrm_backward self b n fwd i)
    (λ _ s', dlrm_pass_inv lo n b s') any_exn.
Proof.
  intros Hfwd Hi. start_body.
  unfold dlrm_backward. unfold_prims.
  exec; try exact I.
  all: simpl in *; bool_facts; use_premises; fresh_facts; simpl; split_all.
  all: first [ solve [solve_trace]
        | lia
        | rewrite ?length_alter; lia
        | solve [solve_all_fresh]
        | solve [solve_gate] ].
Qed.

(** What [dlrm_gate] tells about layer 0 when it was read. *)
Ltac gate_facts :=
  repeat match goal with
    | Hg : dlrm_gate ?b ?ls, Hl : ?ls !! ?k = Some ?l |- _ =>
        lazymatch goal with
        | _ : fwd_comm_node l = None |- _ => fail
        | _ =>
            let Hk := fresh in
            let Hc := fresh in
            assert (Hk : k = 0) by lia;
            assert (Hc : b = 0%Z ∨ fwd_comm_type l ≠ "ALLTOALL")
              by first [left; lia | right; assumption | right; congruence];
            rewrite Hk in Hl; pose proof (Hg l Hl Hc)
        end
    end.

Ltac solve_gate_forward :=
  let l := fresh "l" in
  let Hl := fresh "Hl" in
  let Hc := fresh "Hc" in
  unfold dlrm_gate; intros l Hl Hc;
  lookup_alter Hl; simpl in *; unify_lookups; gate_facts;
  first [ congruence
        | destruct Hc; first [lia | congruence]
        | match goal with
          | Hg : dlrm_gate _ ?ls, Hl' : ?ls !! 0 = Some ?a
            |- fwd_comm_node ?a = None => apply (Hg a Hl'); assumption
          end ].

Lemma dlrm_forward_fresh self lo n b i acc :
  triple (dlrm_forward_inv lo n b i acc) (dlrm_forward self b i acc)
    (λ acc' s', dlrm_forward_inv lo n b (i + 1) acc' s') any_exn.
Proof.
  start_body. unfold dlrm_forward. unfold_prims.
  exec; try exact I.
  all: simpl in *; bool_facts; use_premises; fresh_facts; simpl.
  all: try (exfalso; gate_facts; congruence).
  all: split_all.
  all: first [ solve [solve_trace]
        | lia
        | rewrite ?length_alter; lia
        | solve [solve_all_fresh]
        | solve [solve_gate]
        | solve [solve_gate_forward]
        | solve [intros; solve_fresh_at]
        | solve [intros; unfold fresh_at; intros lx Hlx; lookup_alter Hlx;
                 simpl; unify_lookups; gate_facts; fresh_facts; simpl in *;
                 rewrite_slots; first [assumption | lia | exact I]] ].
Qed.

(** *** One pass keeps the device invariant *)

Lemma triple_pure {A} (φ : Prop) (P : state → Prop) (m : M A) Q E :
  (φ → triple P m Q E) → triple (λ s, φ ∧ P s) m Q E.
Proof. intros H s [Hφ Hs]. by apply H. Qed.

Lemma triple_len {A} (n : nat) (P : state → Prop) (k : nat → M A) Q E :
  (∀ s, P s → length (layers s) = n) →
  triple P (k n) Q E →
  triple P (bind get_layers_len k) Q E.
Proof.
  intros Hlen Hk s Hs. unfold bind, get_layers_len. rewrite (Hlen s Hs).
  apply Hk, Hs.
Qed.

Ltac inv_trivial :=
  intros; unfold_invs; unfold any_exn; simpl in *;
  repeat match goal with
    | H : _ ∧ _ |- _ => destruct H
    end;
  split_all; first [ assumption | exact I | lia | (intros; lia) | idtac ].

Lemma data_pass_fresh self lo n :
  triple (data_pass_inv lo n) (data_pass self) (λ _, data_pass_inv lo n) any_exn.
Proof.
  unfold data_pass. apply (triple_len n); [inv_trivial|].
  eapply triple_bind
    with (Q := λ acc s, fresh lo acc ∧ data_pass_inv lo n s).
  - eapply triple_weaken.
    + apply (triple_for_fold (data_forward_inv lo n) any_exn data_forward n 0 None).
      intros i acc _. apply data_forward_fresh.
    + inv_trivial.
    + inv_trivial.
    + done.
  - intros fwd. apply triple_pure. intros Hfwd. eapply triple_weaken.
    + apply (triple_for_each (data_backward_inv lo n) any_exn _ n 0).
      intros i Hi. apply data_backward_fresh; [done|lia].
    + inv_trivial.
    + inv_trivial.
    + done.
Qed.

Lemma micro_pass_fresh self lo n :
  triple (device_inv lo n) (micro_pass self) (λ _, device_inv lo n) any_exn.
Proof.
  unfold micro_pass. apply (triple_len n); [inv_trivial|].
  apply triple_for_each_inv. intros i. apply micro_body_fresh.
Qed.

Lemma custom_pass_fresh tys lo n :
  triple (device_inv lo n) (custom_pass tys) (λ _, device_inv lo n) any_exn.
Proof.
  unfold custom_pass. apply (triple_len n); [inv_trivial|].
  eapply triple_bind
    with (Q := λ acc s, fresh lo acc ∧ device_inv lo n s).
  - eapply triple_weaken.
    + apply (triple_for_fold (custom_forward_inv lo n) any_exn custom_forward n 0 None).
      intros i acc _. apply custom_forward_fresh.
    + inv_trivial.
    + inv_trivial.
    + done.
  - intros fwd. apply triple_pure. intros Hfwd.
    eapply triple_bind with (Q := λ _ s, device_inv lo n s);
      [|intros; by apply triple_ret].
    eapply triple_weaken.
    + apply (triple_for_fold (λ _, custom_backward_inv lo n) any_exn
               (custom_backward tys n fwd) n 0 None).
      intros i acc _. by apply custom_backward_fresh.
    + inv_trivial.
    + inv_trivial.
    + done.
Qed.

Lemma model_pass_fresh self lo n nl :
  triple (model_pass_inv lo n nl bwd_wg_comp_node) (model_pass self nl)
    (λ _, model_pass_inv lo n nl bwd_wg_comp_node) any_exn.
Proof.
  unfold model_pass. apply (triple_len n); [inv_trivial|].
  eapply triple_bind
    with (Q := λ acc s, fresh lo acc ∧ model_pass_inv lo n nl bwd_wg_comp_node s).
  - eapply triple_weaken.
    + apply (triple_for_fold (model_forward_inv lo n nl bwd_wg_comp_node) any_exn
               (model_forward self) n 0 None).
      intros i acc _. apply model_forward_fresh.
    + inv_trivial.
    + inv_trivial.
    + done.
  - intros fwd. apply triple_pure. intros Hfwd. eapply triple_weaken.
    + apply (triple_for_each (model_backward_inv lo n nl bwd_wg_comp_node)
               any_exn _ n 0).
      intros i Hi. apply model_backward_fresh; [done|lia].
    + inv_trivial.
    + inv_trivial.
    + done.
Qed.

Lemma hybrid_data_model_pass_fresh self lo n nl :
  triple (model_pass_inv lo n nl bwd_wg_comm_node) (hybrid_data_model_pass self nl)
    (λ _, model_pass_inv lo n nl bwd_wg_comm_node) any_exn.
Proof.
  unfold hybrid_data_model_pass. apply (triple_len n); [inv_trivial|].
  eapply triple_bind
    with (Q := λ acc s, fresh lo acc ∧ model_pass_inv lo n nl bwd_wg_comm_node s).
  - eapply triple_weaken.
    + apply (triple_for_fold (model_forward_inv lo n nl bwd_wg_comm_node) any_exn
               (hybrid_data_model_forward self) n 0 None).
      intros i acc _. apply hybrid_data_model_forward_fresh.
    + inv_trivial.
    + inv_trivial.
    + done.
  - intros fwd. apply triple_pure. intros Hfwd. eapply triple_weaken.
    + apply (triple_for_each (model_backward_inv lo n nl bwd_wg_comm_node)
               any_exn _ n 0).
      intros i Hi. apply hybrid_data_model_backward_fresh; [done|lia].
    + inv_trivial.
    + inv_trivial.
    + done.
Qed.

Lemma hybrid_model_data_pass_fresh self lo n nl :
  triple (model_pass_inv lo n nl bwd_wg_comm_node) (hybrid_model_data_pass self nl)
    (λ _, model_pass_inv lo n nl bwd_wg_comm_node) any_exn.
Proof.
  unfold hybrid_model_data_pass. apply (triple_len n); [inv_trivial|].
  eapply triple_bind
    with (Q := λ acc s, fresh lo acc ∧ model_pass_inv lo n nl bwd_wg_comm_node s).
  - eapply triple_weaken.
    + apply (triple_for_fold (model_forward_inv lo n nl bwd_wg_comm_node) any_exn
               (hybrid_model_data_forward self) n 0 None).
      intros i acc _. apply hybrid_model_data_forward_fresh.
    + inv_trivial.
    + inv_trivial.
    + done.
  - intros fwd. apply triple_pure. intros Hfwd. eapply triple_weaken.
    + apply (triple_for_each (model_backward_inv lo n nl bwd_wg_comm_node)
               any_exn _ n 0).
      intros i Hi. apply hybrid_model_data_backward_fresh; [done|lia].
    + inv_trivial.
    + inv_trivial.
    + done.
Qed.

Lemma dlrm_pass_fresh self lo n b :
  triple (dlrm_pass_inv lo n b) (dlrm_pass self b)
    (λ _, dlrm_pass_inv lo n b) any_exn.
Proof.
  unfold dlrm_pass. apply (triple_len n); [inv_trivial|].
  eapply triple_bind
    with (Q := λ acc s, fresh lo acc ∧ dlrm_pass_inv lo n b s).
  - eapply triple_weaken.
    + apply (triple_for_fold (dlrm_forward_inv lo n b) any_exn
               (dlrm_forward self b) n 0 None).
      intros i acc _. apply dlrm_forward_fresh.
    + inv_trivial.
    + inv_trivial.
    + done.
  - intros fwd. apply triple_pure. intros Hfwd.
    apply (triple_for_each (λ _, dlrm_pass_inv lo n b) any_exn _ n 0).
    intros i Hi. apply dlrm_backward_fresh; [done|lia].
Qed.

(** *** One device keeps the invariant between devices *)

Lemma triple_conj {A} (P1 P2 : state → Prop) (m : M A) Q1 Q2 E1 E2 :
  triple P1 m Q1 E1 → triple P2 m Q2 E2 →
  triple (λ s, P1 s ∧ P2 s) m (λ a s, Q1 a s ∧ Q2 a s) (λ e s, E1 e s ∧ E2 e s).
Proof.
  intros H1 H2 s [Hs1 Hs2]. specialize (H1 s Hs1). specialize (H2 s Hs2).
  destruct (m s) as [[e|a] s']; auto.
Qed.

Lemma triple_at {A B} (f : state → B) (P : state → Prop) (m : M A) Q E :
  (∀ x, triple (λ s, f s = x ∧ P s) m Q E) → triple P m Q E.
Proof. intros H s Hs. by apply (H (f s)). Qed.

Lemma consecutive_length s :
  consecutive s → length (nodes_of (events s)) = next_node_id s.
Proof.
  unfold consecutive, node_ids. intros H.
  rewrite <- (length_map node_id), H. apply length_seq.
Qed.

Lemma slots_none_fresh lo sl ls : slots_none sl ls → all_fresh lo sl ls.
Proof.
  unfold slots_none, all_fresh. intros H. eapply Forall_impl; [exact H|].
  intros l ->. exact I.
Qed.

Lemma for_each_update_layer f pre post nid ev :
  for_each (seq (length pre) (length post)) (λ i, update_layer i f)
    (mkState nid (pre ++ post) ev)
  = (inr tt, mkState nid (pre ++ (f <$> post)) ev).
Proof.
  revert pre. induction post as [|x post IH]; intros pre; [done|].
  unfold for_each in *. simpl. unfold bind at 1, update_layer at 1. simpl.
  replace (alter f (length pre) (pre ++ x :: post))
    with ((pre ++ [f x]) ++ post).
  - replace (S (length pre)) with (length (pre ++ [f x]))
      by (rewrite length_app; simpl; lia).
    rewrite IH. by rewrite <- !app_assoc.
  - rewrite <- app_assoc. simpl.
    replace (length pre) with (length pre + 0) at 1 by lia.
    by rewrite alter_app_r.
Qed.

Lemma clear_slots_spec f s :
  clear_slots f s
  = (inr tt, mkState (next_node_id s) (f <$> layers s) (events s)).
Proof.
  destruct s as [nid ls ev]. unfold clear_slots, bind, get_layers_len. simpl.
  apply (for_each_update_layer f [] ls nid ev).
Qed.

Lemma triple_clear_slots f (P : state → Prop) (Q : state → Prop) :
  (∀ s, P s → Q (mkState (next_node_id s) (f <$> layers s) (events s))) →
  triple P (clear_slots f) (λ _, Q) any_exn.
Proof. intros H s Hs. rewrite clear_slots_spec. by apply H. Qed.

Lemma slots_none_fmap sl (f : Layer → Layer) (ls : list Layer) :
  (∀ l, sl (f l) = None) → slots_none sl (f <$> ls).
Proof.
  intros H. unfold slots_none. apply Forall_fmap, Forall_true. intros l. apply H.
Qed.

Lemma never_written_fmap nl (f : Layer → Layer) (ls : list Layer) :
  (∀ l, bwd_ig_comm_node (f l) = bwd_ig_comm_node l) →
  never_written nl ls → never_written nl (f <$> ls).
Proof.
  intros Hf H j l Hl Hj. rewrite length_fmap in Hj.
  rewrite list_lookup_fmap in Hl. apply fmap_Some in Hl as (l' & Hl' & ->).
  rewrite Hf. by apply (H j).
Qed.

Lemma dlrm_gate_fmap b (f : Layer → Layer) (ls : list Layer) :
  (∀ l, fwd_comm_type (f l) = fwd_comm_type l ∧
        fwd_comm_node (f l) = fwd_comm_node l) →
  dlrm_gate b ls → dlrm_gate b (f <$> ls).
Proof.
  intros Hf H l Hl Hc.
  rewrite list_lookup_fmap in Hl. apply fmap_Some in Hl as (l' & Hl' & ->).
  destruct (Hf l') as [Hty Hnode]. rewrite Hnode. rewrite Hty in Hc.
  by apply H.
Qed.

(** Opening the next file starts a device at the current counter. *)
Lemma triple_open_output d lo n (extra : list Layer → Prop) :
  triple (λ s, next_node_id s = lo ∧ between n extra s) (open_output d)
    (λ _ s, device_inv lo n s ∧ extra (layers s)) any_exn.
Proof.
  intros [nid ls ev] (Hlo & Hc & (lo0 & Htr) & Hlen & Hex).
  pose proof (consecutive_length _ Hc) as Hnodes. simpl in *.
  subst lo. unfold device_inv. simpl. split_all; try done.
  rewrite <- Hnodes. by eapply trace_ok_open.
Qed.

Lemma triple_metadata m (P : state → Prop) :
  (∀ nid ls ev, P (mkState nid ls ev) →
     P (mkState nid ls (ev ++ [Write (MsgMetadata m)]))) →
  triple P (encode_message (MsgMetadata m)) (λ _, P) any_exn.
Proof. intros H [nid ls ev] Hs. simpl. by apply H. Qed.

Lemma device_between (m : M unit) n extra :
  keeps_ids m →
  (∀ lo, triple (λ s, next_node_id s = lo ∧ between n extra s) m
           (λ _, between_rest n extra) any_exn) →
  triple (between n extra) m (λ _, between n extra) any_exn.
Proof.
  intros Hids Hm. eapply triple_weaken.
  - apply (triple_conj _ _ _ _ _ _ _ Hids (triple_at next_node_id _ _ _ _ Hm)).
  - intros s Hs. split; [apply Hs|exact Hs].
  - intros ? s [Hc (Htr & Hlen & Hex)]. by split_all.
  - done.
Qed.

Lemma device_inv_rest lo n (extra : list Layer → Prop) s :
  device_inv lo n s → extra (layers s) → between_rest n extra s.
Proof. intros (Htr & Hlo & Hlen) Hex. unfold between_rest. eauto. Qed.

Ltac metadata_step :=
  apply triple_metadata; intros ? ? ?; unfold_invs; simpl;
  intros; repeat match goal with H : _ ∧ _ |- _ => destruct H end;
  split_all; first [assumption | by apply trace_ok_metadata].

Lemma micro_device_fresh self text d n lo :
  triple (λ s, next_node_id s = lo ∧ between n no_extra s)
    (micro_device self text d) (λ _, between_rest n no_extra) any_exn.
Proof.
  unfold micro_device.
  eapply triple_bind; [apply triple_open_output|]. intros ?.
  eapply triple_bind with (Q := λ _, device_inv lo n).
  - eapply triple_weaken with (P := device_inv lo n);
      [metadata_step|by intros ? [? ?]|done|done].
  - intros ?. eapply triple_weaken.
    + apply triple_for_each_inv. intros ?. apply micro_pass_fresh.
    + done.
    + intros ? s Hdev. eapply device_inv_rest; [exact Hdev|exact I].
    + done.
Qed.

Lemma custom_device_fresh self tys d n lo :
  triple (λ s, next_node_id s = lo ∧ between n no_extra s)
    (custom_device self tys d) (λ _, between_rest n no_extra) any_exn.
Proof.
  unfold custom_device.
  eapply triple_bind; [apply triple_open_output|]. intros ?.
  eapply triple_weaken.
  - apply triple_for_each_inv. intros ?. apply (custom_pass_fresh tys lo n).
  - by intros ? [? ?].
  - intros ? s Hdev. eapply device_inv_rest; [exact Hdev|exact I].
  - done.
Qed.

Lemma data_device_fresh self text d n lo :
  triple (λ s, next_node_id s = lo ∧ between n data_extra s)
    (data_device self text d) (λ _, between_rest n data_extra) any_exn.
Proof.
  unfold data_device.
  eapply triple_bind; [apply triple_open_output|]. intros ?.
  eapply triple_bind with (Q := λ _, data_pass_inv lo n).
  - eapply triple_weaken with (P := data_pass_inv lo n);
      [metadata_step| |done|done].
    intros s [Hdev Hex]. unfold data_pass_inv. split; [done|].
    by apply slots_none_fresh.
  - intros ?. eapply triple_bind with (Q := λ _, data_pass_inv lo n).
    + apply triple_for_each_inv. intros ?. apply data_pass_fresh.
    + intros ?. apply triple_clear_slots.
      intros [nid ls ev] ((Htr & Hlo & Hlen) & Hall). simpl in *.
      unfold between_rest, data_extra. simpl. split_all; eauto.
      * by rewrite length_fmap.
      * by apply slots_none_fmap.
Qed.

Lemma model_like_clear lo n nl guard (f : Layer → Layer) s :
  (∀ l, guard (f l) = None) →
  (∀ l, bwd_ig_comm_node (f l) = bwd_ig_comm_node l) →
  model_pass_inv lo n nl guard s →
  between_rest n (model_extra nl guard)
    (mkState (next_node_id s) (f <$> layers s) (events s)).
Proof.
  intros Hg Hf ((Htr & Hlo & Hlen) & Hall & Hnw). destruct s as [nid ls ev].
  simpl in *. unfold between_rest, model_extra. simpl. split_all; eauto.
  - by rewrite length_fmap.
  - by apply slots_none_fmap.
  - by apply never_written_fmap.
Qed.

Lemma model_like_start lo n nl guard s :
  device_inv lo n s ∧ model_extra nl guard (layers s) →
  model_pass_inv lo n nl guard s.
Proof.
  intros [Hdev [Hnone Hnw]]. unfold model_pass_inv. split_all; try done.
  by apply slots_none_fresh.
Qed.

Lemma model_device_fresh self text nl d n lo :
  triple (λ s, next_node_id s = lo ∧ between n (model_extra nl bwd_wg_comp_node) s)
    (model_device self text nl d)
    (λ _, between_rest n (model_extra nl bwd_wg_comp_node)) any_exn.
Proof.
  unfold model_device.
  eapply triple_bind; [apply triple_open_output|]. intros ?.
  eapply triple_bind with (Q := λ _, model_pass_inv lo n nl bwd_wg_comp_node).
  - eapply triple_weaken with (P := model_pass_inv lo n nl bwd_wg_comp_node);
      [metadata_step|apply model_like_start|done|done].
  - intros ?.
    eapply triple_bind with (Q := λ _, model_pass_inv lo n nl bwd_wg_comp_node).
    + apply triple_for_each_inv. intros ?. apply model_pass_fresh.
    + intros ?. apply triple_clear_slots. intros s. by apply model_like_clear.
Qed.

Lemma hybrid_data_model_device_fresh self text nl d n lo :
  triple (λ s, next_node_id s = lo ∧ between n (model_extra nl bwd_wg_comm_node) s)
    (hybrid_data_model_device self text nl d)
    (λ _, between_rest n (model_extra nl bwd_wg_comm_node)) any_exn.
Proof.
  unfold hybrid_data_model_device.
  eapply triple_bind; [apply triple_open_output|]. intros ?.
  eapply triple_bind with (Q := λ _, model_pass_inv lo n nl bwd_wg_comm_node).
  - eapply triple_weaken with (P := model_pass_inv lo n nl bwd_wg_comm_node);
      [metadata_step|apply model_like_start|done|done].
  - intros ?.
    eapply triple_bind with (Q := λ _, model_pass_inv lo n nl bwd_wg_comm_node).
    + apply triple_for_each_inv. intros ?. apply hybrid_data_model_pass_fresh.
    + intros ?. apply triple_clear_slots. intros s. by apply model_like_clear.
Qed.

Lemma hybrid_model_data_device_fresh self text nl d n lo :
  triple (λ s, next_node_id s = lo ∧ between n (model_extra nl bwd_wg_comm_node) s)
    (hybrid_model_data_device self text nl d)
    (λ _, between_rest n (model_extra nl bwd_wg_comm_node)) any_exn.
Proof.
  unfold hybrid_model_data_device.
  eapply triple_bind; [apply triple_open_output|]. intros ?.
  eapply triple_bind with (Q := λ _, model_pass_inv lo n nl bwd_wg_comm_node).
  - eapply triple_weaken with (P := model_pass_inv lo n nl bwd_wg_comm_node);
      [metadata_step|apply model_like_start|done|done].
  - intros ?.
    eapply triple_bind with (Q := λ _, model_pass_inv lo n nl bwd_wg_comm_node).
    + apply triple_for_each_inv. intros ?. apply hybrid_model_data_pass_fresh.
    + intros ?. apply triple_clear_slots. intros s. by apply model_like_clear.
Qed.

Lemma dlrm_device_fresh self text b d n lo :
  triple (λ s, next_node_id s = lo ∧ between n (dlrm_extra b) s)
    (dlrm_device self text b d) (λ _, between_rest n (dlrm_extra b)) any_exn.
Proof.
  unfold dlrm_device.
  eapply triple_bind; [apply triple_open_output|]. intros ?.
  eapply triple_bind with (Q := λ _, dlrm_pass_inv lo n b).
  - eapply triple_weaken with (P := dlrm_pass_inv lo n b);
      [metadata_step| |done|done].
    intros s (Hdev & H1 & H2 & H3 & H4 & Hg). unfold dlrm_pass_inv.
    split_all; try done; by apply slots_none_fresh.
  - intros ?. eapply triple_bind with (Q := λ _, dlrm_pass_inv lo n b).
    + apply triple_for_each_inv. intros ?. apply dlrm_pass_fresh.
    + intros ?. apply triple_clear_slots.
      intros [nid ls ev] ((Htr & Hlo & Hlen) & H1 & H2 & H3 & H4 & Hg).
      simpl in *. unfold between_rest, dlrm_extra. simpl. split_all; eauto.
      * by rewrite length_fmap.
      * by apply slots_none_fmap.
      * by apply slots_none_fmap.
      * by apply slots_none_fmap.
      * by apply slots_none_fmap.
      * by apply dlrm_gate_fmap.
Qed.

(** *** A whole run *)

Lemma keeps_ids_micro_device self text d : keeps_ids (micro_device self text d).
Proof. unfold micro_device, micro_pass. keeps_ids_auto. Qed.

Lemma keeps_ids_custom_device self tys d : keeps_ids (custom_device self tys d).
Proof. unfold custom_device, custom_pass. keeps_ids_auto. Qed.

Lemma keeps_ids_data_device self text d : keeps_ids (data_device self text d).
Proof. unfold data_device, data_pass. keeps_ids_auto. Qed.

Lemma keeps_ids_model_device self text nl d :
  keeps_ids (model_device self text nl d).
Proof. unfold model_device, model_pass. keeps_ids_auto. Qed.

Lemma keeps_ids_hybrid_data_model_device self text nl d :
  keeps_ids (hybrid_data_model_device self text nl d).
Proof. unfold hybrid_data_model_device, hybrid_data_model_pass. keeps_ids_auto. Qed.

Lemma keeps_ids_hybrid_model_data_device self text nl d :
  keeps_ids (hybrid_model_data_device self text nl d).
Proof. unfold hybrid_model_data_device, hybrid_model_data_pass. keeps_ids_auto. Qed.

Lemma keeps_ids_dlrm_device self text b d :
  keeps_ids (dlrm_device self text b d).
Proof. unfold dlrm_device, dlrm_pass. keeps_ids_auto. Qed.

Lemma Layer_init_unlinked line l : Layer_init line = inr l → unlinked l.
Proof.
  unfold Layer_init. intros H.
  destruct (_ ≫= _) as [l'|] eqn:Hparsed in H; [|discriminate].
  injection H as ->. simplify_option_eq. by repeat split.
Qed.

Lemma get_layers_unlinked f nl ls :
  get_layers f nl = inr ls → Forall unlinked ls.
Proof.
  revert ls. induction f as [|line f IH]; intros ls; simpl.
  - intros [= <-]. constructor.
  - destruct (Layer_init line) as [e|l] eqn:Hl; [discriminate|].
    destruct (get_layers f nl) as [e|ls']; [discriminate|].
    intros [= <-]. constructor; [by eapply Layer_init_unlinked|by apply IH].
Qed.

Lemma unlinked_slots_none sl ls :
  (∀ l, unlinked l → sl l = None) → Forall unlinked ls → slots_none sl ls.
Proof. intros H Hall. eapply Forall_impl; [exact Hall|exact H]. Qed.

Lemma unlinked_never_written nl ls : Forall unlinked ls → never_written nl ls.
Proof.
  intros Hall j l Hl _. by destruct (Forall_lookup_1 _ _ _ _ Hall Hl) as (_&_&_&?&_).
Qed.

Lemma unlinked_dlrm_gate b ls : Forall unlinked ls → dlrm_gate b ls.
Proof.
  intros Hall l Hl _. by destruct (Forall_lookup_1 _ _ _ _ Hall Hl) as (_&?&_).
Qed.

Lemma between_local n extra s : between n extra s → local_deps s.
Proof. by intros (Hc & Htr & _). Qed.

(** The common outline of the builders: load the layers, then run the
    devices in turn. *)
Lemma triple_devices (extra : list Layer → Prop) (device : nat → M unit)
    (ls : list Layer) (npus : Z) :
  extra ls →
  (∀ d, keeps_ids (device d)) →
  (∀ d lo, triple (λ s, next_node_id s = lo ∧ between (length ls) extra s)
             (device d) (λ _, between_rest (length ls) extra) any_exn) →
  triple local_deps (set_layers ls ;; for_each (range npus) device)
    (λ _, local_deps) any_exn.
Proof.
  intros Hex Hids Hdev.
  eapply triple_bind with (Q := λ _, between (length ls) extra).
  - intros [nid ls0 ev] [Hc Htr]. simpl. by split_all.
  - intros ?. eapply triple_weaken.
    + apply triple_for_each_inv. intros d. apply device_between; [apply Hids|].
      intros lo. apply Hdev.
    + done.
    + intros ? s. apply between_local.
    + done.
Qed.

Lemma triple_lift {A B} (r : exn + A) (k : A → M B) (P : state → Prop) Q :
  (∀ a, r = inr a → triple P (k a) Q any_exn) →
  triple P (bind (lift r) k) Q any_exn.
Proof.
  intros H s Hs. destruct r as [e|a]; [done|]. simpl. by apply (H a).
Qed.

Lemma convert_microbenchmark_local self text f nl :
  triple local_deps (convert_microbenchmark self text f nl)
    (λ _, local_deps) any_exn.
Proof.
  apply triple_lift. intros ls Hls.
  apply (triple_devices no_extra); [done| |].
  - intros d. apply keeps_ids_micro_device.
  - intros d lo. apply micro_device_fresh.
Qed.

Lemma convert_data_parallel_local self text f nl :
  triple local_deps (convert_data_parallel self text f nl)
    (λ _, local_deps) any_exn.
Proof.
  apply triple_lift. intros ls Hls. apply get_layers_unlinked in Hls.
  apply (triple_devices data_extra).
  - apply unlinked_slots_none; [|done]. by intros l (_&_&_&_&_&?).
  - intros d. apply keeps_ids_data_device.
  - intros d lo. apply data_device_fresh.
Qed.

Lemma convert_model_parallel_local self text f nl :
  triple local_deps (convert_model_parallel self text f nl)
    (λ _, local_deps) any_exn.
Proof.
  apply triple_lift. intros ls Hls. apply get_layers_unlinked in Hls.
  apply (triple_devices (model_extra nl bwd_wg_comp_node)).
  - split; [|by apply unlinked_never_written].
    apply unlinked_slots_none; [|done]. by intros l (_&_&_&_&?&_).
  - intros d. apply keeps_ids_model_device.
  - intros d lo. apply model_device_fresh.
Qed.

Lemma convert_hybrid_data_model_local self text f nl :
  triple local_deps (convert_hybrid_data_model self text f nl)
    (λ _, local_deps) any_exn.
Proof.
  apply triple_lift. intros ls Hls. apply get_layers_unlinked in Hls.
  apply (triple_devices (model_extra nl bwd_wg_comm_node)).
  - split; [|by apply unlinked_never_written].
    apply unlinked_slots_none; [|done]. by intros l (_&_&_&_&_&?).
  - intros d. apply keeps_ids_hybrid_data_model_device.
  - intros d lo. apply hybrid_data_model_device_fresh.
Qed.

Lemma convert_hybrid_model_data_local self text f nl :
  triple local_deps (convert_hybrid_model_data self text f nl)
    (λ _, local_deps) any_exn.
Proof.
  apply triple_lift. intros ls Hls. apply get_layers_unlinked in Hls.
  apply (triple_devices (model_extra nl bwd_wg_comm_node)).
  - split; [|by apply unlinked_never_written].
    apply unlinked_slots_none; [|done]. by intros l (_&_&_&_&_&?).
  - intros d. apply keeps_ids_hybrid_model_data_device.
  - intros d lo. apply hybrid_model_data_device_fresh.
Qed.

Lemma convert_hybrid_dlrm_local self text f nl b :
  triple local_deps (convert_hybrid_dlrm self text f nl b)
    (λ _, local_deps) any_exn.
Proof.
  apply triple_lift. intros ls Hls. apply get_layers_unlinked in Hls.
  apply (triple_devices (dlrm_extra b)).
  - unfold dlrm_extra. split_all; [..|by apply unlinked_dlrm_gate];
      (apply unlinked_slots_none; [|done]).
    + by intros l (_&_&_&_&_&?).
    + by intros l (_&_&_&_&?&_).
    + by intros l (_&_&?&_).
    + by intros l (_&_&_&?&_).
  - intros d. apply keeps_ids_dlrm_device.
  - intros d lo. apply dlrm_device_fresh.
Qed.

(** Reading the layers does not change the state. *)
Lemma triple_layer_at i (P : state → Prop) :
  triple P (layer_at i) (λ _, P) any_exn.
Proof. intros s Hs. unfold layer_at. by destruct (layers s !! i). Qed.

Lemma triple_has_trainable_underneath js (P : state → Prop) :
  triple P (has_trainable_underneath js) (λ _, P) any_exn.
Proof.
  induction js as [|j js IH]; [by apply triple_ret|].
  simpl. eapply triple_bind; [apply triple_layer_at|]. intros l.
  destruct (is_trainable l); [by apply triple_ret|apply IH].
Qed.

Lemma triple_custom_layer_type i tys (P : state → Prop) :
  triple P (custom_layer_type i tys) (λ _, P) any_exn.
Proof.
  unfold custom_layer_type.
  eapply triple_bind; [apply triple_has_trainable_underneath|]. intros u.
  eapply triple_bind; [apply triple_layer_at|]. intros l.
  destruct (is_trainable l), u; by apply triple_ret.
Qed.

Lemma convert_custom_paralellism_local self f nl :
  triple local_deps (convert_custom_paralellism self f nl)
    (λ _, local_deps) any_exn.
Proof.
  apply triple_lift. intros ls Hls.
  eapply triple_bind with (Q := λ _, between (length ls) no_extra).
  { intros [nid ls0 ev] [Hc Htr]. simpl. by split_all. }
  intros ?.
  eapply triple_bind with (Q := λ _, between (length ls) no_extra).
  { apply triple_for_fold_inv. intros i tys. apply triple_custom_layer_type. }
  intros tys. eapply triple_weaken.
  - apply triple_for_each_inv. intros d.
    apply device_between; [apply keeps_ids_custom_device|].
    intros lo. apply custom_device_fresh.
  - done.
  - intros ? s. apply between_local.
  - done.
Qed.

Lemma triple_list_get {A} (l : list A) i (P : state → Prop) :
  triple P (list_get l i) (λ _, P) any_exn.
Proof. intros s Hs. unfold list_get. by destruct (l !! i). Qed.

Lemma convert_local self input_file :
  triple local_deps (convert self input_file) (λ _, local_deps) any_exn.
Proof.
  unfold convert.
  destruct (readline input_file) as [line1 f].
  eapply triple_bind; [apply triple_list_get|]. intros ty.
  destruct (readline f) as [line2 f'].
  destruct (py_int line2) as [num_layers|]; [|by apply triple_raise].
  repeat match goal with
         | |- triple _ (if ?b then _ else _) _ _ => destruct b
         end.
  - apply convert_microbenchmark_local.
  - apply convert_data_parallel_local.
  - apply convert_model_parallel_local.
  - apply convert_hybrid_data_model_local.
  - apply convert_hybrid_model_data_local.
  - apply convert_custom_paralellism_local.
  - eapply triple_bind; [apply triple_list_get|]. intros b.
    destruct (py_int b); [apply convert_hybrid_dlrm_local|by apply triple_raise].
  - by apply triple_raise.
Qed.

Lemma nodes_of_app e1 e2 : nodes_of (e1 ++ e2) = nodes_of e1 ++ nodes_of e2.
Proof.
  induction e1 as [|[d|[m|n]] e1 IH]; simpl; auto. by rewrite IH.
Qed.

Lemma snoc_eq_split {A} (evs pre post : list A) (x y : A) :
  evs ++ [x] = pre ++ y :: post →
  (post = [] ∧ evs = pre ∧ x = y) ∨
  (∃ post', post = post' ++ [x] ∧ evs = pre ++ y :: post').
Proof.
  destruct (decide (post = [])) as [->|Hne].
  - intros H. apply app_inj_tail in H as [-> ->]. by left.
  - destruct (exists_last Hne) as (post' & z & ->). intros H.
    rewrite app_comm_cons, app_assoc in H.
    apply app_inj_tail in H as [-> ->]. right. by exists post'.
Qed.

Lemma trace_ok_split evs lo :
  trace_ok evs lo →
  ∀ pre d post, evs = pre ++ Open d :: post →
    length (nodes_of pre) ≤ lo ∧
    ∀ n, n ∈ nodes_of post → Forall (le (length (nodes_of pre))) (data_deps n).
Proof.
  induction 1 as [|evs lo d' Hok IH|evs lo m Hok IH|evs lo n' Hok IH Hdeps];
    intros pre d post Heq.
  - by destruct pre.
  - apply snoc_eq_split in Heq as [(-> & -> & _)|(post' & -> & ->)].
    + split; [done|]. intros n Hn. by apply elem_of_nil in Hn.
    + destruct (IH _ _ _ eq_refl) as [Hlo Hpost]. split.
      * rewrite nodes_of_app, length_app. lia.
      * intros n. rewrite nodes_of_app. simpl. rewrite app_nil_r. apply Hpost.
  - apply snoc_eq_split in Heq as [(_ & _ & [=])|(post' & -> & ->)].
    destruct (IH _ _ _ eq_refl) as [Hlo Hpost]. split; [done|].
    intros n. rewrite nodes_of_app. simpl. rewrite app_nil_r. apply Hpost.
  - apply snoc_eq_split in Heq as [(_ & _ & [=])|(post' & -> & ->)].
    destruct (IH _ _ _ eq_refl) as [Hlo Hpost]. split; [done|].
    intros n. rewrite nodes_of_app. simpl. rewrite elem_of_app, list_elem_of_singleton.
    intros [Hn| ->]; [by apply Hpost|].
    eapply Forall_impl; [exact Hdeps|]. intros x Hx. simpl in Hx. lia.
Qed.

Lemma seq_prefix (l1 l2 : list nat) k :
  l1 ++ l2 = seq 0 k → l1 = seq 0 (length l1).
Proof.
  intros H.
  assert (Hlen : length l1 ≤ k).
  { rewrite <- (length_seq k 0), <- H, length_app. lia. }
  transitivity (take (length l1) (l1 ++ l2)); [by rewrite take_app_length|].
  rewrite H, take_seq. by rewrite Nat.min_l.
Qed.

(** C3.  In a run that completes without error, in any mode: take any
    device's [Open] event in the run; all ids handed out before it are
    those of the node records written before it (they are 0, 1, ...,
    up to their number), and no node record written after it names one
    of them as a data dependency.  So no node of a device depends on a
    node id of an earlier device. *)
Theorem deps_never_cross_devices self input_file s :
  run (convert self input_file) = (inr tt, s) →
  ∀ pre d post n dep,
    events s = pre ++ Open d :: post →
    n ∈ nodes_of post → dep ∈ data_deps n →
    node_ids pre = seq 0 (length (node_ids pre)) ∧
    length (node_ids pre) ≤ dep ∧
    dep ∉ node_ids pre.
Proof.
  intros Hrun pre d post n dep Hev Hn Hdep.
  assert (Hinit : local_deps init_state).
  { split; [reflexivity|]. exists 0. constructor. }
  pose proof (convert_local self input_file init_state Hinit) as H.
  unfold run in Hrun. rewrite Hrun in H. destruct H as [Hc [lo Htr]].
  assert (Hpre : node_ids pre = seq 0 (length (node_ids pre))).
  { unfold consecutive in Hc. rewrite Hev, node_ids_app in Hc.
    by eapply seq_prefix. }
  destruct (trace_ok_split _ _ Htr _ _ _ Hev) as [_ Hpost].
  specialize (Hpost n Hn). rewrite Forall_forall in Hpost.
  specialize (Hpost dep Hdep).
  assert (Hlen : length (node_ids pre) = length (nodes_of pre))
    by apply length_map.
  split_all; [done|lia|].
  rewrite Hpre. rewrite elem_of_seq. lia.
Qed.

(** ** Data-parallel passes *)

Lemma list_ascii_of_string_app a b :
  String.list_ascii_of_string (a +:+ b)
  = String.list_ascii_of_string a ++ String.list_ascii_of_string b.
Proof. induction a as [|c a IH]; simpl; [done|]. by rewrite IH. Qed.

Lemma starts_with_app p l t : starts_with p l = true → starts_with p (l ++ t) = true.
Proof.
  revert l. induction p as [|a p IH]; intros [|b l]; simpl; try done.
  intros [-> H]%andb_true_iff. by rewrite IH.
Qed.

Lemma starts_with_refl p : starts_with p p = true.
Proof. induction p as [|a p IH]; simpl; [done|]. by rewrite Ascii.eqb_refl. Qed.

Lemma ends_with_refl s : ends_with s s = true.
Proof. apply starts_with_refl. Qed.

Lemma ends_with_app_same suffix x y :
  ends_with suffix y = true → ends_with suffix (x +:+ y) = true.
Proof.
  unfold ends_with. intros H.
  rewrite list_ascii_of_string_app, rev_app_distr. by apply starts_with_app.
Qed.

Lemma never_ends_with_app suffix x y :
  never_ends_with suffix y → never_ends_with suffix (x +:+ y).
Proof.
  intros H t. rewrite list_ascii_of_string_app, rev_app_distr, <- app_assoc.
  apply H.
Qed.

Lemma never_ends_with_false suffix y :
  never_ends_with suffix y → ends_with suffix y = false.
Proof.
  intros H. unfold ends_with. specialize (H []). by rewrite app_nil_r in H.
Qed.

Lemma is_comp_node_same phase nid nm t a d :
  is_comp_node phase
    (mkNode nid ("COMP_NODE_" +:+ nm +:+ "_" +:+ phase) COMP_NODE t a d) = true.
Proof.
  unfold is_comp_node. cbn [node_type node_name].
  do 2 apply ends_with_app_same. apply ends_with_refl.
Qed.

Lemma is_comp_node_other phase phase' nid nm t a d :
  never_ends_with ("_" +:+ phase) ("_" +:+ phase') →
  is_comp_node phase
    (mkNode nid ("COMP_NODE_" +:+ nm +:+ "_" +:+ phase') COMP_NODE t a d) = false.
Proof.
  intros H. unfold is_comp_node. cbn [node_type node_name].
  apply never_ends_with_false. by do 2 apply never_ends_with_app.
Qed.

Lemma count_nodes_app P ns1 ns2 :
  count_nodes P (ns1 ++ ns2) = count_nodes P ns1 + count_nodes P ns2.
Proof. induction ns1 as [|n ns1 IH]; simpl; [done|]. rewrite IH. lia. Qed.

Ltac count_simpl :=
  rewrite ?count_nodes_app; cbn [count_nodes];
  rewrite ?is_comp_node_same;
  rewrite ?is_comp_node_other by (intros ?; reflexivity);
  cbn [is_comm_node is_comp_node node_type].

Example phase_test nm nid t :
  count_nodes (is_comp_node "FWD")
    [mkNode nid ("COMP_NODE_" +:+ nm +:+ "_" +:+ "FWD") COMP_NODE t [] [];
     mkNode nid ("COMP_NODE_" +:+ nm +:+ "_" +:+ "BWD_WG") COMP_NODE t [] [];
     mkNode nid ("COMM_COLL_NODE_" +:+ nm +:+ "_" +:+ "FWD") COMM_COLL_NODE t [] [];
     mkNode nid ("COMP_NODE_" +:+ nm +:+ "_" +:+ "BWD_IG") COMP_NODE t [] []] = 1.
Proof. count_simpl. done. Qed.
















(** ** The hybrid builders *)










(** ** The DLRM builder *)







(** ** Concrete runs *)

(** C2.  CUSTOM mode on [frozen, trainable]: the classification is
    [FP; FP+WG] as documented, but the backward sweep looks the kind up
    by the position in the reversed order: it skips layer b under layer
    a's kind, then builds a weight-gradient node for layer a under
    layer b's kind and stops with [AttributeError] on its missing
    predecessor.  Nothing of the backward sweep is written. *)
Theorem custom_frozen_trainable_run :
  (for_fold (range 2) [] custom_layer_type
     (mkState 0 frozen_trainable_layers [])).1 = inr ["FP"; "FP+WG"] ∧
  (run (convert example_converter custom_frozen_trainable)).1
    = inl AttributeError ∧
  node_summary (run (convert example_converter custom_frozen_trainable)).2
    = [ (0, "COMP_NODE_a_FWD", []); (1, "COMP_NODE_b_FWD", [0]) ] ∧
  next_node_id (run (convert example_converter custom_frozen_trainable)).2 = 3.
Proof. vm_compute. by split_all. Qed.

(** C1.  CUSTOM mode on two trainable layers: the run completes, and
    the input-gradient node of layer a (id 3) is written before the
    weight-gradient node (id 4) that it names as its dependency. *)
Theorem custom_forward_reference :
  (run (convert example_converter custom_both_trainable)).1 = inr tt ∧
  node_summary (run (convert example_converter custom_both_trainable)).2
    = [ (0, "COMP_NODE_a_FWD", []); (1, "COMP_NODE_b_FWD", [0]);
        (2, "COMP_NODE_b_BWD_WG", [1]); (3, "COMP_NODE_a_BWD_IG", [4]);
        (4, "COMP_NODE_a_BWD_WG", [2]) ].
Proof. vm_compute. by split. Qed.


(** C10, as stated, fails: a count that overstates the number of layer
    lines makes the CUSTOM builder raise [IndexError] before any output
    file is opened, while the same line under the exact count is
    converted. *)
Lemma custom_count_overstated_fails :
  run (convert example_converter custom_count_overstated)
    = (inl IndexError,
       mkState 0 (match get_layers (drop 2 custom_count_overstated) 2 with
                  | inr ls => ls
                  | inl _ => []
                  end) []) ∧
  length (drop 2 custom_count_overstated) = 1 ∧
  (run (convert example_converter custom_count_exact)).1 = inr tt.
Proof. vm_compute. by split_all. Qed.


(** ** Dispatch and layer loading *)



Lemma get_layers_count_irrelevant f n m : get_layers f n = get_layers f m.
Proof. induction f as [|line f IH]; simpl; [done|]. by rewrite IH. Qed.

Lemma get_layers_lines f n ls :
  get_layers f n = inr ls →
  length ls = length f ∧
  ∀ i line, f !! i = Some line →
    ∃ l, ls !! i = Some l ∧ Layer_init line = inr l.
Proof.
  revert ls. induction f as [|line f IH]; intros ls; simpl.
  - intros [= <-]. split; [done|]. intros i x Hx. by destruct i.
  - destruct (Layer_init line) as [e|l] eqn:Hline; [done|].
    destruct (get_layers f n) as [e|ls'] eqn:Hrest; [done|].
    intros [= <-]. destruct (IH ls' eq_refl) as [Hlen Hall]. split.
    + simpl. by rewrite Hlen.
    + intros [|i] x Hx; simpl in *.
      * injection Hx as <-. by exists l.
      * by apply Hall.
Qed.

Lemma get_layers_error f n e :
  get_layers f n = inl e → ∃ line, line ∈ f ∧ Layer_init line = inl e.
Proof.
  induction f as [|line f IH]; simpl; [done|].
  destruct (Layer_init line) as [e'|l] eqn:Hline.
  - intros [= <-]. exists line. split; [apply list_elem_of_here|done].
  - destruct (get_layers f n) as [e'|ls']; [|done].
    intros [= <-]. destruct (IH eq_refl) as (x & Hx & Hinit).
    exists x. split; [by apply list_elem_of_further|done].
Qed.

(** C10, as the code has it.  Layer loading ignores the declared
    count: the result of [get_layers] is the same for every count; it
    holds one record per remaining line, in order; it fails only on a
    line that does not parse, never because of the count.  The
    builders that do not consult the count themselves (MICRO, DATA,
    HYBRID_DLRM) therefore behave the same under every declared
    count. *)
Theorem get_layers_ignores_count f n m :
  get_layers f n = get_layers f m ∧
  (∀ ls, get_layers f n = inr ls →
     length ls = length f ∧
     ∀ i line, f !! i = Some line →
       ∃ l, ls !! i = Some l ∧ Layer_init line = inr l) ∧
  (∀ e, get_layers f n = inl e →
     ∃ line, line ∈ f ∧ Layer_init line = inl e) ∧
  (∀ self text,
     convert_microbenchmark self text f n = convert_microbenchmark self text f m ∧
     convert_data_parallel self text f n = convert_data_parallel self text f m) ∧
  (∀ self text b,
     convert_hybrid_dlrm self text f n b = convert_hybrid_dlrm self text f m b).
Proof.
  split_all.
  - apply get_layers_count_irrelevant.
  - apply get_layers_lines.
  - apply get_layers_error.
  - intros self text. split.
    + unfold convert_microbenchmark.
      by rewrite (get_layers_count_irrelevant f n m).
    + unfold convert_data_parallel.
      by rewrite (get_layers_count_irrelevant f n m).
  - intros self text b. unfold convert_hybrid_dlrm.
    by rewrite (get_layers_count_irrelevant f n m).
Qed.

(** ** The theorems at concrete inputs *)

Lemma deps_never_cross_devices_witness :
  run (convert example_converter_2x2 data_two_layers) = (inr tt, data_run) ∧
  events data_run = data_run_device0 ++ Open 1 :: data_run_device1 ∧
  data_run_node ∈ nodes_of data_run_device1 ∧
  14 ∈ data_deps data_run_node ∧
  node_ids data_run_device0 = seq 0 (length (node_ids data_run_device0)) ∧
  length (node_ids data_run_device0) ≤ 14 ∧
  14 ∉ node_ids data_run_device0.
Proof.
  assert (Hrun : run (convert example_converter_2x2 data_two_layers)
                 = (inr tt, data_run)) by (vm_compute; reflexivity).
  assert (Hev : events data_run
                = data_run_device0 ++ Open 1 :: data_run_device1)
    by (vm_compute; reflexivity).
  assert (Hn : data_run_node ∈ nodes_of data_run_device1).
  { vm_compute. apply list_elem_of_further, list_elem_of_here. }
  assert (Hdep : 14 ∈ data_deps data_run_node).
  { vm_compute. apply list_elem_of_here. }
  repeat (split; [assumption|]).
  exact (deps_never_cross_devices example_converter_2x2 data_two_layers
           data_run Hrun data_run_device0 1 data_run_device1 data_run_node 14
           Hev Hn Hdep).
Defined.





Lemma get_layers_ignores_count_witness :
  ∃ ls, get_layers (drop 2 data_two_layers) 7 = inr ls ∧ length ls = 2.
Proof.
  exists data_layers. split; [vm_compute; reflexivity|].
  apply (get_layers_ignores_count (drop 2 data_two_layers) 7 2).
  vm_compute. reflexivity.
Defined.

(** ** The layer parser *)

Lemma lookup_12 {A} (col : list A) :
  12 ≤ length col →
  ∃ c0 c1 c2 c3 c4 c5 c6 c7 c8 c9 c10 c11 rest,
    col = c0 :: c1 :: c2 :: c3 :: c4 :: c5 :: c6 :: c7 :: c8 :: c9 :: c10
          :: c11 :: rest.
Proof.
  intros H.
  do 12 (destruct col as [|? col]; [simpl in H; lia|]).
  by repeat eexists.
Qed.

Lemma Layer_init_inr line l :
  Layer_init line = inr l →
  ∃ c0 c1 c2 c3 c4 c5 c6 c7 c8 c9 c10 c11 rest v1 v2 v4 v5 v7 v8 v10,
    py_split line = c0 :: c1 :: c2 :: c3 :: c4 :: c5 :: c6 :: c7 :: c8 :: c9
                    :: c10 :: c11 :: rest ∧
    py_int c1 = Some v1 ∧ py_int c2 = Some v2 ∧ py_int c4 = Some v4 ∧
    py_int c5 = Some v5 ∧ py_int c7 = Some v7 ∧ py_int c8 = Some v8 ∧
    py_int c10 = Some v10 ∧
    l = mkLayer c0 (0 <? v1)%Z v2 c3 v4 None None v5 c6 v7 None None
          v8 c9 v10 c11 None None.
Proof.
  unfold Layer_init. intros H.
  destruct (py_split line) as [|c0 [|c1 [|c2 [|c3 [|c4 [|c5 [|c6 [|c7 [|c8
    [|c9 [|c10 [|c11 rest]]]]]]]]]]]]; simpl in H; try discriminate;
    repeat match type of H with
      | context [py_int ?c] => destruct (py_int c) eqn:?; simpl in H
      end; try discriminate.
  injection H as <-. by repeat eexists.
Qed.

Lemma Layer_init_inl line e : Layer_init line = inl e → e = layer_error line.
Proof.
  unfold Layer_init, layer_error.
  match goal with |- context [match ?p with _ => _ end] => destruct p end;
    intros H; by inversion H.
Qed.

Ltac in_list :=
  repeat first [ apply list_elem_of_here | apply list_elem_of_further ].

Lemma Layer_init_columns line l :
  Layer_init line = inr l → 12 ≤ length (py_split line).
Proof.
  intros Hl. apply Layer_init_inr in Hl
    as (c0&c1&c2&c3&c4&c5&c6&c7&c8&c9&c10&c11&rest&_&_&_&_&_&_&_&Hcol&_).
  rewrite Hcol. simpl. lia.
Qed.

(** X1.  [Layer.__init__] accepts a line exactly when it has at least
    twelve blank-separated columns and the columns 1, 2, 4, 5, 7, 8 and
    10 are integers.  The other columns, the update time in column 11
    among them, are taken as they are, and columns after the twelfth
    are not looked at. *)
Theorem Layer_init_accepts line :
  (∃ l, Layer_init line = inr l) ↔
  12 ≤ length (py_split line) ∧
  ∀ k, k ∈ int_columns →
    ∃ c v, py_split line !! k = Some c ∧ py_int c = Some v.
Proof.
  split.
  - intros [l Hl]. apply Layer_init_inr in Hl
      as (c0&c1&c2&c3&c4&c5&c6&c7&c8&c9&c10&c11&rest&v1&v2&v4&v5&v7&v8&v10
          &Hcol&H1&H2&H4&H5&H7&H8&H10&_).
    rewrite Hcol. split; [simpl; lia|].
    intros k Hk. unfold int_columns in Hk.
    repeat (apply elem_of_cons in Hk as [->|Hk]; [by eexists _, _|]).
    by apply elem_of_nil in Hk.
  - intros [Hlen Hint].
    destruct (lookup_12 _ Hlen)
      as (c0&c1&c2&c3&c4&c5&c6&c7&c8&c9&c10&c11&rest&Hcol).
    assert (Hk : ∀ k c, k ∈ int_columns → py_split line !! k = Some c →
                        ∃ v, py_int c = Some v).
    { intros k c Hin Hc. destruct (Hint k Hin) as (c'&v&Hc'&Hv).
      rewrite Hc in Hc'. injection Hc' as <-. by exists v. }
    rewrite Hcol in Hk. unfold int_columns in Hk.
    destruct (Hk 1 c1) as [v1 H1]; [in_list|done|].
    destruct (Hk 2 c2) as [v2 H2]; [in_list|done|].
    destruct (Hk 4 c4) as [v4 H4]; [in_list|done|].
    destruct (Hk 5 c5) as [v5 H5]; [in_list|done|].
    destruct (Hk 7 c7) as [v7 H7]; [in_list|done|].
    destruct (Hk 8 c8) as [v8 H8]; [in_list|done|].
    destruct (Hk 10 c10) as [v10 H10]; [in_list|done|].
    unfold Layer_init. rewrite Hcol. simpl.
    rewrite H1, H2, H4, H5, H7, H8, H10. simpl. by eexists.
Qed.

(** X2.  A layer that was parsed is trainable exactly when column 1 is
    a positive integer (zero and negative values mean frozen); it comes
    with all six node slots empty; and any line with the same first
    twelve columns gives the same layer. *)
Theorem Layer_init_result line l :
  Layer_init line = inr l →
  (is_trainable l = true ↔
   ∃ c v, py_split line !! 1 = Some c ∧ py_int c = Some v ∧ (0 < v)%Z) ∧
  Some (name l) = py_split line !! 0 ∧
  Some (bwd_wg_update_time l) = py_split line !! 11 ∧
  unlinked l ∧
  (∀ line', take 12 (py_split line') = take 12 (py_split line) →
     Layer_init line' = inr l).
Proof.
  intros Hl. pose proof Hl as Hl'. apply Layer_init_inr in Hl'
    as (c0&c1&c2&c3&c4&c5&c6&c7&c8&c9&c10&c11&rest&v1&v2&v4&v5&v7&v8&v10
        &Hcol&H1&H2&H4&H5&H7&H8&H10&->).
  rewrite Hcol. simpl. split_all; try done.
  - split.
    + intros Hv. exists c1, v1. split_all; try done. by apply Z.ltb_lt.
    + intros (c&v&Hc&Hv&Hpos). injection Hc as <-. rewrite H1 in Hv.
      injection Hv as <-. by apply Z.ltb_lt.
  - intros line' Htake. simpl in Htake.
    unfold Layer_init.
    destruct (py_split line') as [|d0 [|d1 [|d2 [|d3 [|d4 [|d5 [|d6 [|d7 [|d8
      [|d9 [|d10 [|d11 rest']]]]]]]]]]]]; simpl in Htake; try discriminate.
    injection Htake as -> -> -> -> -> -> -> -> -> -> -> ->. simpl.
    by rewrite H1, H2, H4, H5, H7, H8, H10.
Qed.

Lemma split_aux_blank s : is_blank s = true → split_aux s = (EmptyString, []).
Proof.
  induction s as [|c s IH]; [done|]. simpl.
  intros [Hc Hs]%andb_true_iff. rewrite (IH Hs), Hc. done.
Qed.

Lemma py_split_blank s : is_blank s = true → py_split s = [].
Proof. intros H. unfold py_split. by rewrite split_aux_blank. Qed.

(** X3.  Whatever goes wrong inside [Layer.__init__], the exception is
    the [ValueError] that quotes the line as it was read; and a line of
    blanks only, such as an empty line at the end of the file, is
    rejected in this way. *)
Theorem Layer_init_rejects line :
  (∀ e, Layer_init line = inl e → e = layer_error line) ∧
  (is_blank line = true → Layer_init line = inl (layer_error line)) ∧
  (length (py_split line) < 12 → Layer_init line = inl (layer_error line)).
Proof.
  split_all.
  - apply Layer_init_inl.
  - intros Hb. unfold Layer_init. by rewrite (py_split_blank _ Hb).
  - intros Hlen. destruct (Layer_init line) as [e|l] eqn:Hl.
    + by rewrite (Layer_init_inl _ _ Hl).
    + apply Layer_init_columns in Hl. lia.
Qed.

(** ** Loading and dispatch *)

(** X4.  [get_layers] stops at the first line that [Layer.__init__]
    rejects and raises that line's error: loading fails with [e]
    exactly when the lines split into a prefix of accepted lines and a
    line rejected with [e].  The declared count plays no part. *)
Theorem get_layers_first_error f num_layers e :
  get_layers f num_layers = inl e ↔
  ∃ pre line post,
    f = pre ++ line :: post ∧
    Forall (λ x, ∃ l, Layer_init x = inr l) pre ∧
    Layer_init line = inl e.
Proof.
  split.
  - revert e. induction f as [|x f IH]; intros e H; simpl in H; [done|].
    destruct (Layer_init x) as [e'|l] eqn:Hx.
    + injection H as ->. exists [], x, f. split_all; [done|constructor|done].
    + destruct (get_layers f num_layers) as [e'|ls] eqn:Hf; [|done].
      injection H as ->.
      destruct (IH e eq_refl) as (pre&line&post&->&Hpre&Hline).
      exists (x :: pre), line, post. split_all; [done| |done].
      constructor; [by exists l|done].
  - intros (pre&line&post&->&Hpre&Hline).
    induction Hpre as [|x pre [l Hx] _ IH]; simpl.
    + by rewrite Hline.
    + by rewrite Hx, IH.
Qed.

Lemma readline_drop2 input_file : layer_lines input_file = drop 2 input_file.
Proof. by destruct input_file as [|? [|? ?]]. Qed.

Lemma convert_unfold self input_file :
  convert self input_file
  = (let input_text := foldr String.append EmptyString input_file in
     let first_line := py_split (header_line1 input_file) in
     let line2 := header_line2 input_file in
     let f := layer_lines input_file in
     parallelism_type <- list_get first_line 0 ;;
     match py_int line2 with
     | None => raise (int_error line2)
     | Some num_layers =>
       if String.eqb parallelism_type "MICRO" then
         convert_microbenchmark self input_text f num_layers
       else if String.eqb parallelism_type "DATA" then
         convert_data_parallel self input_text f num_layers
       else if String.eqb parallelism_type "MODEL" then
         convert_model_parallel self input_text f num_layers
       else if String.eqb parallelism_type "HYBRID_DATA_MODEL" then
         convert_hybrid_data_model self input_text f num_layers
       else if String.eqb parallelism_type "HYBRID_MODEL_DATA" then
         convert_hybrid_model_data self input_text f num_layers
       else if String.eqb parallelism_type "CUSTOM" then
         convert_custom_paralellism self f num_layers
       else if String.eqb parallelism_type "HYBRID_DLRM"
               || String.eqb parallelism_type "HYBRID_DLRM_ENHANCED" then
         last_bottom <- list_get first_line 1 ;;
         match py_int last_bottom with
         | None => raise (int_error last_bottom)
         | Some last_bottom_layer =>
             convert_hybrid_dlrm self input_text f num_layers last_bottom_layer
         end
       else
         raise (ValueError ("Unsupported parallelism type, " +:+ parallelism_type))
     end)%M.
Proof.
  unfold convert, header_line1, header_line2, layer_lines.
  destruct (readline input_file) as [line1 f1]. simpl.
  by destruct (readline f1) as [line2 f2].
Qed.


(** X6.  The two DLRM tags need the boundary as the second token of the
    first line.  With the layer count in place, a missing boundary
    stops the run with [IndexError] and a boundary that is not an
    integer with the [ValueError] of [int]; both happen before the
    layers are loaded, so nothing has been opened or written and the
    layer lines are not looked at. *)
Theorem dlrm_boundary_errors self input_file tag num_layers :
  py_split (header_line1 input_file) !! 0 = Some tag →
  tag ∈ dlrm_modes →
  py_int (header_line2 input_file) = Some num_layers →
  (py_split (header_line1 input_file) !! 1 = None →
   run (convert self input_file) = (inl IndexError, init_state)) ∧
  (∀ c, py_split (header_line1 input_file) !! 1 = Some c →
        py_int c = None →
        run (convert self input_file) = (inl (int_error c), init_state)).
Proof.
  intros Htag Hin Hnl.
  assert (Hdlrm : String.eqb tag "HYBRID_DLRM"
                  || String.eqb tag "HYBRID_DLRM_ENHANCED" = true).
  { unfold dlrm_modes in Hin.
    apply elem_of_cons in Hin as [->|Hin]; [done|].
    apply elem_of_cons in Hin as [->|Hin]; [done|].
    by apply elem_of_nil in Hin. }
  assert (Hother : String.eqb tag "MICRO" = false ∧
                   String.eqb tag "DATA" = false ∧
                   String.eqb tag "MODEL" = false ∧
                   String.eqb tag "HYBRID_DATA_MODEL" = false ∧
                   String.eqb tag "HYBRID_MODEL_DATA" = false ∧
                   String.eqb tag "CUSTOM" = false).
  { unfold dlrm_modes in Hin.
    apply elem_of_cons in Hin as [->|Hin]; [done|].
    apply elem_of_cons in Hin as [->|Hin]; [done|].
    by apply elem_of_nil in Hin. }
  destruct Hother as (E1&E2&E3&E4&E5&E6).
  split.
  - intros Hnone. rewrite convert_unfold. unfold run. cbv zeta.
    unfold bind, list_get. rewrite Htag, Hnl. simpl.
    rewrite E1, E2, E3, E4, E5, E6, Hdlrm. by rewrite Hnone.
  - intros c Hc Hint. rewrite convert_unfold. unfold run. cbv zeta.
    unfold bind, list_get. rewrite Htag, Hnl. simpl.
    rewrite E1, E2, E3, E4, E5, E6, Hdlrm. rewrite Hc. simpl. by rewrite Hint.
Qed.

(** X7.  A layer line that does not parse stops the run before any
    output: in each of the eight modes, once the header is read (for
    the DLRM tags, the boundary included), a failure of [get_layers]
    is the outcome of the whole run and nothing has been opened or
    written. *)
Theorem load_error_no_output self input_file tag num_layers e :
  py_split (header_line1 input_file) !! 0 = Some tag →
  tag ∈ known_modes →
  py_int (header_line2 input_file) = Some num_layers →
  (tag ∈ dlrm_modes →
   ∃ c b, py_split (header_line1 input_file) !! 1 = Some c ∧
          py_int c = Some b) →
  get_layers (drop 2 input_file) num_layers = inl e →
  run (convert self input_file) = (inl e, init_state).
Proof.
  intros Htag Hin Hnl Hb Hload. rewrite <- readline_drop2 in Hload.
  rewrite convert_unfold. unfold run. cbv zeta.
  unfold bind at 1. unfold list_get. rewrite Htag, Hnl. simpl.
  unfold known_modes in Hin.
  repeat (apply elem_of_cons in Hin as [->|Hin];
          [simpl;
           try (destruct Hb as (c&b&Hc&Hbint); [unfold dlrm_modes; in_list|];
                unfold bind at 1; rewrite Hc; simpl; rewrite Hbint);
           unfold convert_microbenchmark, convert_data_parallel,
             convert_model_parallel, convert_hybrid_data_model,
             convert_hybrid_model_data, convert_custom_paralellism,
             convert_hybrid_dlrm;
           unfold bind at 1; by rewrite Hload|]).
  by apply elem_of_nil in Hin.
Qed.

(** ** The micro-benchmark builder *)










(** ** Properties of the events that every builder keeps *)

Lemma keeps_events_bind {A B} I (m : M A) (k : A → M B) :
  keeps_events I m → (∀ a, keeps_events I (k a)) → keeps_events I (bind m k).
Proof. intros Hm Hk. eapply triple_bind; [exact Hm|exact Hk]. Qed.

Lemma keeps_events_for_fold {A T} I (l : list A) (acc : T) body :
  (∀ x acc', keeps_events I (body x acc')) → keeps_events I (for_fold l acc body).
Proof. intros H. apply (triple_for_fold_inv (λ s, I (events s))), H. Qed.

Lemma keeps_events_for_each {A} I (l : list A) body :
  (∀ x, keeps_events I (body x)) → keeps_events I (for_each l body).
Proof. intros H. apply (triple_for_each_inv (λ s, I (events s))), H. Qed.

Lemma keeps_events_ret {A} I (a : A) : keeps_events I (ret a).
Proof. by intros s Hs. Qed.

Lemma keeps_events_raise {A} I e : keeps_events I (@raise A e).
Proof. by intros s Hs. Qed.

Lemma keeps_events_lift {A} I (r : exn + A) : keeps_events I (lift r).
Proof. intros s Hs. by destruct r. Qed.

Lemma keeps_events_get_layers_len I : keeps_events I get_layers_len.
Proof. by intros s Hs. Qed.

Lemma keeps_events_set_layers I ls : keeps_events I (set_layers ls).
Proof. by intros s Hs. Qed.

Lemma keeps_events_update_layer I i f : keeps_events I (update_layer i f).
Proof. by intros s Hs. Qed.

Lemma keeps_events_layer_at I i : keeps_events I (layer_at i).
Proof. intros s Hs. unfold layer_at. by destruct (layers s !! i). Qed.

Lemma keeps_events_list_get {A} I (l : list A) i : keeps_events I (list_get l i).
Proof. intros s Hs. unfold list_get. by destruct (l !! i). Qed.

Lemma keeps_events_clear_slots I f : keeps_events I (clear_slots f).
Proof.
  apply keeps_events_bind; [apply keeps_events_get_layers_len|]. intros n.
  apply keeps_events_for_each. intros i. apply keeps_events_update_layer.
Qed.

Lemma keeps_events_has_trainable_underneath I js :
  keeps_events I (has_trainable_underneath js).
Proof.
  induction js as [|j js IH]; [apply keeps_events_ret|].
  simpl. apply keeps_events_bind; [apply keeps_events_layer_at|].
  intros l. destruct (is_trainable l); [apply keeps_events_ret|apply IH].
Qed.

Lemma keeps_events_custom_layer_type I layer_id layer_types :
  keeps_events I (custom_layer_type layer_id layer_types).
Proof.
  apply keeps_events_bind; [apply keeps_events_has_trainable_underneath|].
  intros u. apply keeps_events_bind; [apply keeps_events_layer_at|].
  intros l. destruct (is_trainable l), u; apply keeps_events_ret.
Qed.

Ltac comp_shape_ok :=
  unfold comp_shape; simpl; split; [reflexivity|]; split; [reflexivity|];
  eexists _, _; split; [|reflexivity]; unfold phases; in_list.

Ltac comm_shape_ok :=
  unfold comm_shape; simpl; split; [reflexivity|]; split; [reflexivity|];
  eexists _, _, _, _; split; [reflexivity|]; split; [reflexivity|];
  unfold dim_masks, first_dim_only, all_but_first_dim; in_list.

Section written_nodes.
Context (self : Text2ChakraConverter) (I : list Event → Prop).
Hypothesis Hcomp :
  ∀ ev n, I ev → comp_shape n → I (ev ++ [Write (MsgNode n)]).

(** Peel the node records off the end of the events. *)
Ltac peel_comp :=
  repeat match goal with
    | |- I (_ ++ [Write (MsgNode _)]) => apply Hcomp; [|solve [comp_shape_ok]]
    end;
  try assumption.

Ltac comp_body :=
  intros [nid ls ev] Hev; simpl in Hev; unfold_prims; exec; peel_comp.

Lemma keeps_events_custom_forward idx acc :
  keeps_events I (custom_forward idx acc).
Proof using Hcomp. unfold custom_forward. comp_body. Qed.

Lemma keeps_events_custom_backward tys n fwd idx prev :
  keeps_events I (custom_backward tys n fwd idx prev).
Proof using Hcomp. unfold custom_backward. comp_body. Qed.

Lemma keeps_events_custom_pass tys : keeps_events I (custom_pass tys).
Proof using Hcomp.
  unfold custom_pass.
  apply keeps_events_bind; [apply keeps_events_get_layers_len|]. intros n.
  apply keeps_events_bind.
  { apply keeps_events_for_fold. intros. apply keeps_events_custom_forward. }
  intros fwd. apply keeps_events_bind; [|intros; apply keeps_events_ret].
  apply keeps_events_for_fold. intros. apply keeps_events_custom_backward.
Qed.

Hypothesis Hcomm :
  ∀ ev n, I ev → comm_shape self n → I (ev ++ [Write (MsgNode n)]).

Ltac peel :=
  repeat match goal with
    | |- I (_ ++ [Write (MsgNode _)]) =>
        first [ apply Hcomp; [|solve [comp_shape_ok]]
              | apply Hcomm; [|solve [comm_shape_ok]] ]
    end;
  try assumption.

Ltac body :=
  intros [nid ls ev] Hev; simpl in Hev; unfold_prims; exec; peel.

Lemma keeps_events_micro_body idx : keeps_events I (micro_body self idx).
Proof using Hcomp Hcomm. unfold micro_body. body. Qed.

Lemma keeps_events_data_forward idx acc : keeps_events I (data_forward idx acc).
Proof using Hcomp Hcomm. unfold data_forward. body. Qed.

Lemma keeps_events_data_backward n fwd idx :
  keeps_events I (data_backward self n fwd idx).
Proof using Hcomp Hcomm. unfold data_backward. body. Qed.

Lemma keeps_events_model_forward idx acc :
  keeps_events I (model_forward self idx acc).
Proof using Hcomp Hcomm. unfold model_forward. body. Qed.

Lemma keeps_events_model_backward nl n fwd idx :
  keeps_events I (model_backward self nl n fwd idx).
Proof using Hcomp Hcomm. unfold model_backward. body. Qed.

Lemma keeps_events_hybrid_data_model_forward idx acc :
  keeps_events I (hybrid_data_model_forward self idx acc).
Proof using Hcomp Hcomm. unfold hybrid_data_model_forward. body. Qed.

Lemma keeps_events_hybrid_data_model_backward nl n fwd idx :
  keeps_events I (hybrid_data_model_backward self nl n fwd idx).
Proof using Hcomp Hcomm. unfold hybrid_data_model_backward. body. Qed.

Lemma keeps_events_hybrid_model_data_forward idx acc :
  keeps_events I (hybrid_model_data_forward self idx acc).
Proof using Hcomp Hcomm. unfold hybrid_model_data_forward. body. Qed.

Lemma keeps_events_hybrid_model_data_backward nl n fwd idx :
  keeps_events I (hybrid_model_data_backward self nl n fwd idx).
Proof using Hcomp Hcomm. unfold hybrid_model_data_backward. body. Qed.

Lemma keeps_events_dlrm_forward b idx acc :
  keeps_events I (dlrm_forward self b idx acc).
Proof using Hcomp Hcomm. unfold dlrm_forward. body. Qed.

Lemma keeps_events_dlrm_backward b n fwd idx :
  keeps_events I (dlrm_backward self b n fwd idx).
Proof using Hcomp Hcomm. unfold dlrm_backward. body. Qed.

End written_nodes.

Section written_passes.
Context (self : Text2ChakraConverter) (I : list Event → Prop).
Hypothesis Hcomp :
  ∀ ev n, I ev → comp_shape n → I (ev ++ [Write (MsgNode n)]).
Hypothesis Hcomm :
  ∀ ev n, I ev → comm_shape self n → I (ev ++ [Write (MsgNode n)]).

Ltac pass_step :=
  cbv beta;
  lazymatch goal with
  | |- keeps_events _ (ret _) => apply keeps_events_ret
  | |- keeps_events _ get_layers_len => apply keeps_events_get_layers_len
  | |- keeps_events _ (clear_slots _) => apply keeps_events_clear_slots
  | |- keeps_events _ (micro_body _ _) =>
      apply (keeps_events_micro_body self I Hcomp Hcomm)
  | |- keeps_events _ (data_forward _ _) =>
      apply (keeps_events_data_forward self I Hcomp Hcomm)
  | |- keeps_events _ (data_backward _ _ _ _) =>
      apply (keeps_events_data_backward self I Hcomp Hcomm)
  | |- keeps_events _ (model_forward _ _ _) =>
      apply (keeps_events_model_forward self I Hcomp Hcomm)
  | |- keeps_events _ (model_backward _ _ _ _ _) =>
      apply (keeps_events_model_backward self I Hcomp Hcomm)
  | |- keeps_events _ (hybrid_data_model_forward _ _ _) =>
      apply (keeps_events_hybrid_data_model_forward self I Hcomp Hcomm)
  | |- keeps_events _ (hybrid_data_model_backward _ _ _ _ _) =>
      apply (keeps_events_hybrid_data_model_backward self I Hcomp Hcomm)
  | |- keeps_events _ (hybrid_model_data_forward _ _ _) =>
      apply (keeps_events_hybrid_model_data_forward self I Hcomp Hcomm)
  | |- keeps_events _ (hybrid_model_data_backward _ _ _ _ _) =>
      apply (keeps_events_hybrid_model_data_backward self I Hcomp Hcomm)
  | |- keeps_events _ (dlrm_forward _ _ _ _) =>
      apply (keeps_events_dlrm_forward self I Hcomp Hcomm)
  | |- keeps_events _ (dlrm_backward _ _ _ _ _) =>
      apply (keeps_events_dlrm_backward self I Hcomp Hcomm)
  | |- keeps_events _ (for_fold _ _ _) => apply keeps_events_for_fold; intros ? ?
  | |- keeps_events _ (for_each _ _) => apply keeps_events_for_each; intros ?
  | |- keeps_events _ (bind _ _) => apply keeps_events_bind; [|intros ?]
  end.

(** What a device does after its file is opened and headed. *)
Lemma keeps_events_micro_passes :
  keeps_events I (for_each (range (num_passes self)) (λ _, micro_pass self)).
Proof using Hcomp Hcomm. unfold micro_pass. repeat pass_step. Qed.

Lemma keeps_events_data_passes :
  keeps_events I
    (for_each (range (num_passes self)) (λ _, data_pass self) ;;
     clear_slots (set_bwd_wg_comm_node None)).
Proof using Hcomp Hcomm. unfold data_pass. repeat pass_step. Qed.

Lemma keeps_events_model_passes nl :
  keeps_events I
    (for_each (range (num_passes self)) (λ _, model_pass self nl) ;;
     clear_slots (set_bwd_wg_comp_node None)).
Proof using Hcomp Hcomm. unfold model_pass. repeat pass_step. Qed.

Lemma keeps_events_hybrid_data_model_passes nl :
  keeps_events I
    (for_each (range (num_passes self)) (λ _, hybrid_data_model_pass self nl) ;;
     clear_slots (set_bwd_wg_comm_node None)).
Proof using Hcomp Hcomm. unfold hybrid_data_model_pass. repeat pass_step. Qed.

Lemma keeps_events_hybrid_model_data_passes nl :
  keeps_events I
    (for_each (range (num_passes self)) (λ _, hybrid_model_data_pass self nl) ;;
     clear_slots (set_bwd_wg_comm_node None)).
Proof using Hcomp Hcomm. unfold hybrid_model_data_pass. repeat pass_step. Qed.

Lemma keeps_events_dlrm_passes b :
  keeps_events I
    (for_each (range (num_passes self)) (λ _, dlrm_pass self b) ;;
     clear_slots dlrm_clear).
Proof using Hcomp Hcomm. unfold dlrm_pass. repeat pass_step. Qed.

End written_passes.

(** ** The output as a sequence of files *)

Lemma write_nodes_snoc ns n :
  write_nodes (ns ++ [n]) = write_nodes ns ++ [Write (MsgNode n)].
Proof. unfold write_nodes. by rewrite map_app. Qed.

Lemma files_events_snoc header files ns :
  files_events header (files ++ [ns])
  = files_events header files ++ file_events header (length files) ns.
Proof.
  unfold files_events. rewrite imap_app, concat_app. simpl.
  by rewrite app_nil_r, Nat.add_0_r.
Qed.

Lemma in_device_node (G : Node → Prop) header k ev n :
  in_device G header k ev → G n → in_device G header k (ev ++ [Write (MsgNode n)]).
Proof.
  intros (files&ns&Hlen&->&Hfiles&Hns) Hn.
  exists files, (ns ++ [n]). split_all; [done| |done|].
  - unfold file_events. rewrite write_nodes_snoc.
    by rewrite <- !app_assoc, app_comm_cons, <- !app_assoc.
  - apply Forall_app. split; [done|]. by apply Forall_cons_2.
Qed.

Lemma in_device_done G header k ev :
  in_device G header k ev → after_devices G header (S k) ev.
Proof.
  intros (files&ns&Hlen&->&Hfiles&Hns).
  exists (files ++ [ns]). split_all.
  - rewrite length_app. simpl. lia.
  - by rewrite files_events_snoc, Hlen.
  - apply Forall_app. split; [done|]. by apply Forall_cons_2.
Qed.

Lemma after_devices_open G header k ev :
  after_devices G header k ev → in_device G header k ((ev ++ [Open k]) ++ header).
Proof.
  intros (files&Hlen&->&Hfiles).
  exists files, []. split_all; [done| |done|constructor].
  unfold file_events. simpl. by rewrite app_nil_r, <- app_assoc.
Qed.

(** A device whose file is headed by the metadata record. *)
Lemma device_files G text (rest : M unit) d :
  keeps_events (in_device G (metadata_header text) d) rest →
  triple (λ s, after_devices G (metadata_header text) d (events s))
    (open_output d ;;
     encode_message (MsgMetadata (get_global_metadata text)) ;; rest)
    (λ _ s, after_devices G (metadata_header text) (S d) (events s))
    (λ _ s, after_devices G (metadata_header text) (S d) (events s)).
Proof.
  intros Hrest [nid ls ev] Hs. simpl in Hs.
  unfold bind at 1. unfold open_output. simpl.
  unfold bind at 1. unfold encode_message. simpl.
  pose proof (after_devices_open _ _ _ _ Hs) as Hin.
  specialize (Hrest (mkState nid ls
                       ((ev ++ [Open d])
                        ++ [Write (MsgMetadata (get_global_metadata text))]))
                Hin).
  destruct (rest _) as [[e|[]] s']; by apply in_device_done.
Qed.

(** A device whose file has no header. *)
Lemma device_files_bare G (rest : M unit) d :
  keeps_events (in_device G [] d) rest →
  triple (λ s, after_devices G [] d (events s))
    (open_output d ;; rest)
    (λ _ s, after_devices G [] (S d) (events s))
    (λ _ s, after_devices G [] (S d) (events s)).
Proof.
  intros Hrest [nid ls ev] Hs. simpl in Hs.
  unfold bind at 1. unfold open_output. simpl.
  pose proof (after_devices_open _ _ _ _ Hs) as Hin.
  rewrite app_nil_r in Hin.
  specialize (Hrest (mkState nid ls (ev ++ [Open d])) Hin).
  destruct (rest _) as [[e|[]] s']; by apply in_device_done.
Qed.

Lemma devices_files G header (device : nat → M unit) N :
  (∀ d, triple (λ s, after_devices G header d (events s)) (device d)
          (λ _ s, after_devices G header (S d) (events s))
          (λ _ s, after_devices G header (S d) (events s))) →
  triple (λ s, events s = []) (for_each (seq 0 N) device)
    (λ r s, files_result G header N (inr r) s)
    (λ e s, files_result G header N (inl e) s).
Proof.
  intros Hdev.
  eapply triple_weaken.
  - apply (triple_for_each
             (λ i s, after_devices G header i (events s))
             (λ e s, files_result G header N (inl e) s) device N 0).
    intros i Hi. eapply triple_weaken; [apply (Hdev i)|done| |].
    + intros ? s Hs. by replace (i + 1) with (S i) by lia.
    + intros e s (files&Hlen&Hev&Hall). exists files. split_all; try done.
      lia.
  - intros s Hs. exists []. by split_all.
  - intros [] s (files&Hlen&Hev&Hall). exists files. simpl in Hlen.
    split_all; try done. lia.
  - done.
Qed.

Lemma load_files G header (device : nat → M unit) (r : exn + list Layer) N :
  (∀ d, triple (λ s, after_devices G header d (events s)) (device d)
          (λ _ s, after_devices G header (S d) (events s))
          (λ _ s, after_devices G header (S d) (events s))) →
  triple (λ s, events s = [])
    (ls <- lift r ;; set_layers ls ;; for_each (seq 0 N) device)
    (λ r s, files_result G header N (inr r) s)
    (λ e s, files_result G header N (inl e) s).
Proof.
  intros Hdev [nid ls ev] Hs. simpl in Hs. subst ev.
  unfold bind at 1. destruct r as [e|ls']; simpl.
  - exists []. split_all; try done. simpl. lia.
  - unfold bind at 1. unfold set_layers. simpl.
    by apply (devices_files G header device N Hdev (mkState nid ls' [])).
Qed.

Lemma in_device_comp self header k ev n :
  in_device (node_shape self) header k ev → comp_shape n →
  in_device (node_shape self) header k (ev ++ [Write (MsgNode n)]).
Proof. intros Hin Hn. apply in_device_node; [done|by left]. Qed.

Lemma in_device_comm self header k ev n :
  in_device (node_shape self) header k ev → comm_shape self n →
  in_device (node_shape self) header k (ev ++ [Write (MsgNode n)]).
Proof. intros Hin Hn. apply in_device_node; [done|by right]. Qed.

Lemma files_result_nothing G header N e s :
  events s = [] → files_result G header N (inl e) s.
Proof. intros Hs. exists []. split_all; try done. simpl. lia. Qed.

Ltac files_of_builder self :=
  unfold range;
  apply load_files; intros d; cbv beta;
  unfold micro_device, data_device, model_device, hybrid_data_model_device,
    hybrid_model_data_device, dlrm_device;
  apply device_files;
  first [ apply (keeps_events_micro_passes self)
        | apply (keeps_events_data_passes self)
        | apply (keeps_events_model_passes self)
        | apply (keeps_events_hybrid_data_model_passes self)
        | apply (keeps_events_hybrid_model_data_passes self)
        | apply (keeps_events_dlrm_passes self) ];
  first [ apply in_device_comp | apply in_device_comm ].

Lemma convert_microbenchmark_files self text f nl :
  triple (λ s, events s = []) (convert_microbenchmark self text f nl)
    (λ r s, files_result (node_shape self) (metadata_header text)
              (Z.to_nat (num_npus self)) (inr r) s)
    (λ e s, files_result (node_shape self) (metadata_header text)
              (Z.to_nat (num_npus self)) (inl e) s).
Proof. unfold convert_microbenchmark. files_of_builder self. Qed.

Lemma convert_data_parallel_files self text f nl :
  triple (λ s, events s = []) (convert_data_parallel self text f nl)
    (λ r s, files_result (node_shape self) (metadata_header text)
              (Z.to_nat (num_npus self)) (inr r) s)
    (λ e s, files_result (node_shape self) (metadata_header text)
              (Z.to_nat (num_npus self)) (inl e) s).
Proof. unfold convert_data_parallel. files_of_builder self. Qed.

Lemma convert_model_parallel_files self text f nl :
  triple (λ s, events s = []) (convert_model_parallel self text f nl)
    (λ r s, files_result (node_shape self) (metadata_header text)
              (Z.to_nat (num_npus self)) (inr r) s)
    (λ e s, files_result (node_shape self) (metadata_header text)
              (Z.to_nat (num_npus self)) (inl e) s).
Proof. unfold convert_model_parallel. files_of_builder self. Qed.

Lemma convert_hybrid_data_model_files self text f nl :
  triple (λ s, events s = []) (convert_hybrid_data_model self text f nl)
    (λ r s, files_result (node_shape self) (metadata_header text)
              (Z.to_nat (num_npus self)) (inr r) s)
    (λ e s, files_result (node_shape self) (metadata_header text)
              (Z.to_nat (num_npus self)) (inl e) s).
Proof. unfold convert_hybrid_data_model. files_of_builder self. Qed.

Lemma convert_hybrid_model_data_files self text f nl :
  triple (λ s, events s = []) (convert_hybrid_model_data self text f nl)
    (λ r s, files_result (node_shape self) (metadata_header text)
              (Z.to_nat (num_npus self)) (inr r) s)
    (λ e s, files_result (node_shape self) (metadata_header text)
              (Z.to_nat (num_npus self)) (inl e) s).
Proof. unfold convert_hybrid_model_data. files_of_builder self. Qed.

Lemma convert_hybrid_dlrm_files self text f nl b :
  triple (λ s, events s = []) (convert_hybrid_dlrm self text f nl b)
    (λ r s, files_result (node_shape self) (metadata_header text)
              (Z.to_nat (num_npus self)) (inr r) s)
    (λ e s, files_result (node_shape self) (metadata_header text)
              (Z.to_nat (num_npus self)) (inl e) s).
Proof. unfold convert_hybrid_dlrm. files_of_builder self. Qed.

Lemma convert_custom_paralellism_files self f nl :
  triple (λ s, events s = []) (convert_custom_paralellism self f nl)
    (λ r s, files_result comp_shape [] (Z.to_nat (num_npus self)) (inr r) s)
    (λ e s, files_result comp_shape [] (Z.to_nat (num_npus self)) (inl e) s).
Proof.
  unfold convert_custom_paralellism.
  intros [nid ls ev] Hs. simpl in Hs. subst ev.
  unfold bind at 1. destruct (get_layers f nl) as [e|ls']; simpl.
  { by apply files_result_nothing. }
  unfold bind at 1. unfold set_layers. simpl. unfold bind at 1.
  pose proof (keeps_events_for_fold (λ ev, ev = []) (range nl) []
                custom_layer_type
                (λ x acc, keeps_events_custom_layer_type _ x acc)
                (mkState nid ls' []) eq_refl) as Hty.
  destruct (for_fold (range nl) [] custom_layer_type _) as [[e|tys] s1].
  { by apply files_result_nothing. }
  unfold range.
  apply (devices_files comp_shape [] (custom_device self tys)); [|done].
  intros d. unfold custom_device. apply device_files_bare.
  apply keeps_events_for_each. intros p.
  apply keeps_events_custom_pass. intros ev n. apply in_device_node.
Qed.

Lemma convert_files self input_file :
  py_split (header_line1 input_file) !! 0 ≠ Some "CUSTOM" →
  triple (λ s, events s = []) (convert self input_file)
    (λ r s, files_result (node_shape self)
              (metadata_header (input_text_of input_file))
              (Z.to_nat (num_npus self)) (inr r) s)
    (λ e s, files_result (node_shape self)
              (metadata_header (input_text_of input_file))
              (Z.to_nat (num_npus self)) (inl e) s).
Proof.
  intros Htag. rewrite convert_unfold. cbv zeta.
  fold (input_text_of input_file).
  intros s Hs. unfold bind at 1. unfold list_get.
  destruct (py_split (header_line1 input_file) !! 0) as [tag|] eqn:Hty; simpl;
    [|by apply files_result_nothing].
  destruct (py_int (header_line2 input_file)) as [nl|]; simpl;
    [|by apply files_result_nothing].
  repeat match goal with
         | |- context [if ?b then _ else _] => destruct b eqn:?
         end.
  - by apply convert_microbenchmark_files.
  - by apply convert_data_parallel_files.
  - by apply convert_model_parallel_files.
  - by apply convert_hybrid_data_model_files.
  - by apply convert_hybrid_model_data_files.
  - exfalso. apply Htag. f_equal. by apply String.eqb_eq.
  - unfold bind at 1. unfold list_get.
    destruct (py_split (header_line1 input_file) !! 1) as [c|]; simpl;
      [|by apply files_result_nothing].
    destruct (py_int c) as [b|]; simpl; [|by apply files_result_nothing].
    by apply convert_hybrid_dlrm_files.
  - by apply files_result_nothing.
Qed.

Lemma convert_custom_files self input_file :
  py_split (header_line1 input_file) !! 0 = Some "CUSTOM" →
  triple (λ s, events s = []) (convert self input_file)
    (λ r s, files_result comp_shape [] (Z.to_nat (num_npus self)) (inr r) s)
    (λ e s, files_result comp_shape [] (Z.to_nat (num_npus self)) (inl e) s).
Proof.
  intros Htag. rewrite convert_unfold. cbv zeta.
  intros s Hs. unfold bind at 1. unfold list_get. rewrite Htag. simpl.
  destruct (py_int (header_line2 input_file)) as [nl|]; simpl;
    [|by apply files_result_nothing].
  by apply convert_custom_paralellism_files.
Qed.

(** X9.  Every mode but CUSTOM, every input, whether the run completes
    or stops with an exception: the events of the run are those of [k]
    files, for the devices [0, 1, ..., k - 1] in this order, each
    opened once, headed by the metadata record of the input text and
    holding node records only after it; [k] is at most [num_npus], and
    exactly [num_npus] when the run completes.  Every node written is a
    compute node (named after a layer and one of the phases FWD,
    BWD_IG, BWD_WG, without attributes) or a collective node (named
    after a layer and a kind, of duration zero, with the attributes
    [comm_type] for that kind, [comm_size] and [involved_dim]). *)
Theorem output_files self input_file :
  py_split (header_line1 input_file) !! 0 ≠ Some "CUSTOM" →
  files_result (node_shape self) (metadata_header (input_text_of input_file))
    (Z.to_nat (num_npus self))
    (run (convert self input_file)).1 (run (convert self input_file)).2.
Proof.
  intros Htag. unfold run.
  pose proof (convert_files self input_file Htag init_state eq_refl) as H.
  by destruct (convert self input_file init_state) as [[e|[]] s].
Qed.

(** X10.  CUSTOM mode, every input, whether the run completes or not:
    the events are those of [k] files for the devices [0, ..., k - 1],
    [k] at most [num_npus] and exactly [num_npus] when the run
    completes; a file holds no metadata record, in contrast to the
    other modes, and nothing but compute nodes: CUSTOM never writes a
    communication node. *)
Theorem custom_output_files self input_file :
  py_split (header_line1 input_file) !! 0 = Some "CUSTOM" →
  files_result comp_shape [] (Z.to_nat (num_npus self))
    (run (convert self input_file)).1 (run (convert self input_file)).2.
Proof.
  intros Htag. unfold run.
  pose proof (convert_custom_files self input_file Htag init_state eq_refl) as H.
  by destruct (convert self input_file init_state) as [[e|[]] s].
Qed.

(** ** Dependencies point backwards *)

Lemma no_forward_refs_node ev n :
  no_forward_refs ev → backward_deps n →
  no_forward_refs (ev ++ [Write (MsgNode n)]).
Proof.
  unfold no_forward_refs. intros Hev Hn. rewrite nodes_of_app. simpl.
  apply Forall_app. split; [done|]. by apply Forall_cons_2.
Qed.

Lemma no_forward_refs_other ev e :
  no_forward_refs ev → (∀ n, e ≠ Write (MsgNode n)) →
  no_forward_refs (ev ++ [e]).
Proof.
  unfold no_forward_refs. intros Hev He. rewrite nodes_of_app.
  destruct e as [d|[m|n]]; simpl; rewrite ?app_nil_r; try done.
  by destruct (He n).
Qed.

Lemma below_mono k k' slot : k ≤ k' → below k slot → below k' slot.
Proof. destruct slot; simpl; [lia|done]. Qed.

Lemma layer_below_mono k k' l : k ≤ k' → layer_below k l → layer_below k' l.
Proof.
  intros Hk (?&?&?&?&?&?). unfold layer_below.
  split_all; by apply (below_mono k k').
Qed.

Lemma slots_below_mono k k' ls : k ≤ k' → slots_below k ls → slots_below k' ls.
Proof.
  intros Hk H. unfold slots_below. eapply Forall_impl; [exact H|].
  intros l. by apply layer_below_mono.
Qed.

Lemma slots_below_alter k (f : Layer → Layer) i ls :
  slots_below k ls → (∀ l, layer_below k l → layer_below k (f l)) →
  slots_below k (alter f i ls).
Proof.
  unfold slots_below. intros Hls Hf. apply Forall_lookup_2. intros j l Hl.
  destruct (decide (i = j)) as [->|Hne].
  - rewrite list_lookup_alter_eq in Hl.
    destruct (ls !! j) as [l0|] eqn:Hl0; [|done]. simpl in Hl.
    injection Hl as <-. apply Hf. by apply (Forall_lookup_1 _ _ _ _ Hls Hl0).
  - rewrite list_lookup_alter_ne in Hl by done.
    by apply (Forall_lookup_1 _ _ _ _ Hls Hl).
Qed.

Lemma slots_below_fmap k (f : Layer → Layer) ls :
  slots_below k ls → (∀ l, layer_below k l → layer_below k (f l)) →
  slots_below k (f <$> ls).
Proof.
  unfold slots_below. intros Hls Hf. apply Forall_fmap.
  eapply Forall_impl; [exact Hls|]. intros l Hl. by apply Hf.
Qed.

(** The bounds that the hypotheses give on the slots that were read. *)
Ltac below_facts :=
  repeat match goal with
    | H : Some ?x = Some ?y |- _ => injection H as H; try subst x; try subst y
    end;
  repeat match goal with
    | Hs : slots_below ?k ?ls, Hl : ?ls !! ?i = Some ?l |- _ =>
        lazymatch goal with
        | _ : layer_below k l |- _ => fail
        | _ => pose proof (Forall_lookup_1 _ _ _ _ Hs Hl : layer_below k l)
        end
    end;
  repeat match goal with
    | H : layer_below _ _ |- _ => destruct H as (?&?&?&?&?&?)
    end;
  repeat match goal with
    | H : below _ (?sl ?l), E : ?sl ?l = Some _ |- _ =>
        rewrite E in H; simpl in H
    end;
  repeat match goal with
    | H : below _ (Some _) |- _ => simpl in H
    end.

Ltac setter_below :=
  let l := fresh "l" in
  intros l (?&?&?&?&?&?); unfold layer_below; simpl; split_all;
  first [ assumption | simpl; lia | exact I ].

Ltac solve_slots_below :=
  repeat (apply slots_below_alter; [|solve [setter_below]]);
  match goal with
  | H : slots_below ?k ?ls |- slots_below _ ?ls =>
      apply (slots_below_mono k); [lia|exact H]
  end.

Ltac solve_backward_deps :=
  unfold backward_deps; simpl;
  repeat (apply Forall_cons_2; [lia|]); apply Forall_nil_2.

Ltac solve_no_forward_refs :=
  repeat (apply no_forward_refs_node; [|solve [solve_backward_deps]]);
  assumption.

Ltac ordered_body :=
  intros [nid ls ev] [[Hs Hw] Ha]; simpl in Hs, Hw, Ha;
  unfold_prims; exec; below_facts;
  unfold ordered_exn, ordered_with, ordered; simpl; split_all;
  first [ solve [solve_no_forward_refs]
        | solve [solve_slots_below]
        | exact I
        | assumption
        | simpl; lia
        | eapply below_mono; [|eassumption]; lia ].

Lemma data_forward_ordered idx acc :
  triple (ordered_with acc) (data_forward idx acc)
    (λ acc' s, ordered_with acc' s) ordered_exn.
Proof. unfold data_forward. ordered_body. Qed.

Lemma data_backward_ordered self n fwd idx :
  triple (ordered_with fwd) (data_backward self n fwd idx)
    (λ _ s, ordered_with fwd s) ordered_exn.
Proof. unfold data_backward. ordered_body. Qed.

Lemma micro_body_ordered self idx :
  triple (ordered_with None) (micro_body self idx)
    (λ _ s, ordered_with None s) ordered_exn.
Proof. unfold micro_body. ordered_body. Qed.

Lemma model_forward_ordered self idx acc :
  triple (ordered_with acc) (model_forward self idx acc)
    (λ acc' s, ordered_with acc' s) ordered_exn.
Proof. unfold model_forward. ordered_body. Qed.

Lemma model_backward_ordered self nl n fwd idx :
  triple (ordered_with fwd) (model_backward self nl n fwd idx)
    (λ _ s, ordered_with fwd s) ordered_exn.
Proof. unfold model_backward. ordered_body. Qed.

Lemma hybrid_data_model_forward_ordered self idx acc :
  triple (ordered_with acc) (hybrid_data_model_forward self idx acc)
    (λ acc' s, ordered_with acc' s) ordered_exn.
Proof. unfold hybrid_data_model_forward. ordered_body. Qed.

Lemma hybrid_data_model_backward_ordered self nl n fwd idx :
  triple (ordered_with fwd) (hybrid_data_model_backward self nl n fwd idx)
    (λ _ s, ordered_with fwd s) ordered_exn.
Proof. unfold hybrid_data_model_backward. ordered_body. Qed.

Lemma hybrid_model_data_forward_ordered self idx acc :
  triple (ordered_with acc) (hybrid_model_data_forward self idx acc)
    (λ acc' s, ordered_with acc' s) ordered_exn.
Proof. unfold hybrid_model_data_forward. ordered_body. Qed.

Lemma hybrid_model_data_backward_ordered self nl n fwd idx :
  triple (ordered_with fwd) (hybrid_model_data_backward self nl n fwd idx)
    (λ _ s, ordered_with fwd s) ordered_exn.
Proof. unfold hybrid_model_data_backward. ordered_body. Qed.

Lemma dlrm_forward_ordered self b idx acc :
  triple (ordered_with acc) (dlrm_forward self b idx acc)
    (λ acc' s, ordered_with acc' s) ordered_exn.
Proof. unfold dlrm_forward. ordered_body. Qed.

Lemma dlrm_backward_ordered self b n fwd idx :
  triple (ordered_with fwd) (dlrm_backward self b n fwd idx)
    (λ _ s, ordered_with fwd s) ordered_exn.
Proof. unfold dlrm_backward. ordered_body. Qed.

(** A pass: a forward loop that carries a node reference and a backward
    loop that starts from it. *)
Lemma ordered_pass (fwd_body : nat → option node_ref → M (option node_ref))
    (bwd_body : nat → option node_ref → nat → M unit) :
  (∀ i acc, triple (ordered_with acc) (fwd_body i acc)
              (λ acc' s, ordered_with acc' s) ordered_exn) →
  (∀ n fwd i, triple (ordered_with fwd) (bwd_body n fwd i)
                (λ _ s, ordered_with fwd s) ordered_exn) →
  triple ordered
    (n <- get_layers_len ;;
     fwd <- for_fold (seq 0 n) None fwd_body ;;
     for_each (seq 0 n) (bwd_body n fwd))
    (λ _, ordered) ordered_exn.
Proof.
  intros Hf Hb.
  apply (triple_bind _ _ _ (λ _, ordered)); [by intros s Hs|]. intros n.
  apply (triple_bind _ _ _ (λ fwd s, ordered_with fwd s)).
  - eapply triple_weaken.
    + apply (triple_for_fold (λ _ acc s, ordered_with acc s) ordered_exn
               fwd_body n 0 None).
      intros i acc _. apply Hf.
    + intros s Hs. by split.
    + by intros acc s Hs.
    + done.
  - intros fwd. eapply triple_weaken.
    + apply (triple_for_each (λ _ s, ordered_with fwd s) ordered_exn
               (bwd_body n fwd) n 0).
      intros i _. apply Hb.
    + done.
    + by intros ? s [Hs _].
    + done.
Qed.

Lemma ordered_passes (pass : M unit) P (f : Layer → Layer) :
  triple ordered pass (λ _, ordered) ordered_exn →
  (∀ k l, layer_below k l → layer_below k (f l)) →
  triple ordered (for_each (range P) (λ _, pass) ;; clear_slots f)
    (λ _, ordered) ordered_exn.
Proof.
  intros Hpass Hf.
  apply (triple_bind _ _ _ (λ _, ordered)).
  - apply (triple_for_each_inv ordered). intros _. exact Hpass.
  - intros _ s [Hs Hw]. rewrite clear_slots_spec. split; simpl; [|done].
    apply slots_below_fmap; [done|]. apply Hf.
Qed.

Lemma ordered_device text d (rest : M unit) :
  triple ordered rest (λ _, ordered) ordered_exn →
  triple ordered
    (open_output d ;;
     encode_message (MsgMetadata (get_global_metadata text)) ;; rest)
    (λ _, ordered) ordered_exn.
Proof.
  intros Hrest [nid ls ev] [Hs Hw]. simpl in Hs, Hw.
  unfold bind at 1. unfold open_output. simpl.
  unfold bind at 1. unfold encode_message. simpl.
  apply Hrest. split; simpl; [done|].
  apply no_forward_refs_other; [|done]. by apply no_forward_refs_other.
Qed.

Lemma unlinked_below k l : unlinked l → layer_below k l.
Proof.
  intros (H1&H2&H3&H4&H5&H6). unfold layer_below.
  by rewrite H1, H2, H3, H4, H5, H6.
Qed.

Lemma ordered_run (device : nat → M unit) f nl N :
  (∀ d, triple ordered (device d) (λ _, ordered) ordered_exn) →
  triple (λ s, events s = [])
    (ls <- lift (get_layers f nl) ;; set_layers ls ;; for_each (range N) device)
    (λ _ s, no_forward_refs (events s)) ordered_exn.
Proof.
  intros Hdev [nid ls ev] Hs. simpl in Hs. subst ev.
  unfold bind at 1. destruct (get_layers f nl) as [e|ls'] eqn:Hload; simpl.
  { constructor. }
  unfold bind at 1. unfold set_layers. simpl.
  pose proof (triple_for_each_inv ordered ordered_exn device (range N) Hdev
                (mkState nid ls' [])) as H.
  destruct (for_each (range N) device _) as [[e|[]] s].
  - apply H. split; simpl; [|constructor].
    apply get_layers_unlinked in Hload.
    eapply Forall_impl; [exact Hload|]. intros l. apply unlinked_below.
  - apply H. split; simpl; [|constructor].
    apply get_layers_unlinked in Hload.
    eapply Forall_impl; [exact Hload|]. intros l. apply unlinked_below.
Qed.

Ltac setter_keeps_below :=
  let k := fresh "k" in
  let l := fresh "l" in
  intros k l (?&?&?&?&?&?); unfold layer_below, dlrm_clear; simpl; split_all;
  first [ assumption | exact I ].

Lemma convert_microbenchmark_ordered self text f nl :
  triple (λ s, events s = []) (convert_microbenchmark self text f nl)
    (λ _ s, no_forward_refs (events s)) ordered_exn.
Proof.
  unfold convert_microbenchmark. apply ordered_run. intros d.
  unfold micro_device. apply ordered_device.
  apply (triple_for_each_inv ordered). intros _. unfold micro_pass.
  apply (triple_bind _ _ _ (λ _, ordered)); [by intros s Hs|]. intros n.
  apply (triple_for_each_inv ordered). intros i.
  eapply triple_weaken; [apply micro_body_ordered| | |done].
  - intros s Hs. by split.
  - by intros ? s [Hs _].
Qed.

Lemma convert_data_parallel_ordered self text f nl :
  triple (λ s, events s = []) (convert_data_parallel self text f nl)
    (λ _ s, no_forward_refs (events s)) ordered_exn.
Proof.
  unfold convert_data_parallel. apply ordered_run. intros d.
  unfold data_device. apply ordered_device.
  apply ordered_passes; [|setter_keeps_below].
  apply (ordered_pass data_forward (data_backward self)).
  - apply data_forward_ordered.
  - apply data_backward_ordered.
Qed.

Lemma convert_model_parallel_ordered self text f nl :
  triple (λ s, events s = []) (convert_model_parallel self text f nl)
    (λ _ s, no_forward_refs (events s)) ordered_exn.
Proof.
  unfold convert_model_parallel. apply ordered_run. intros d.
  unfold model_device. apply ordered_device.
  apply ordered_passes; [|setter_keeps_below].
  apply (ordered_pass (model_forward self) (model_backward self nl)).
  - apply model_forward_ordered.
  - apply model_backward_ordered.
Qed.

Lemma convert_hybrid_data_model_ordered self text f nl :
  triple (λ s, events s = []) (convert_hybrid_data_model self text f nl)
    (λ _ s, no_forward_refs (events s)) ordered_exn.
Proof.
  unfold convert_hybrid_data_model. apply ordered_run. intros d.
  unfold hybrid_data_model_device. apply ordered_device.
  apply ordered_passes; [|setter_keeps_below].
  apply (ordered_pass (hybrid_data_model_forward self)
           (hybrid_data_model_backward self nl)).
  - apply hybrid_data_model_forward_ordered.
  - apply hybrid_data_model_backward_ordered.
Qed.

Lemma convert_hybrid_model_data_ordered self text f nl :
  triple (λ s, events s = []) (convert_hybrid_model_data self text f nl)
    (λ _ s, no_forward_refs (events s)) ordered_exn.
Proof.
  unfold convert_hybrid_model_data. apply ordered_run. intros d.
  unfold hybrid_model_data_device. apply ordered_device.
  apply ordered_passes; [|setter_keeps_below].
  apply (ordered_pass (hybrid_model_data_forward self)
           (hybrid_model_data_backward self nl)).
  - apply hybrid_model_data_forward_ordered.
  - apply hybrid_model_data_backward_ordered.
Qed.

Lemma convert_hybrid_dlrm_ordered self text f nl b :
  triple (λ s, events s = []) (convert_hybrid_dlrm self text f nl b)
    (λ _ s, no_forward_refs (events s)) ordered_exn.
Proof.
  unfold convert_hybrid_dlrm. apply ordered_run. intros d.
  unfold dlrm_device. apply ordered_device.
  apply ordered_passes; [|setter_keeps_below].
  apply (ordered_pass (dlrm_forward self b) (dlrm_backward self b)).
  - apply dlrm_forward_ordered.
  - apply dlrm_backward_ordered.
Qed.

Lemma convert_ordered self input_file :
  py_split (header_line1 input_file) !! 0 ≠ Some "CUSTOM" →
  triple (λ s, events s = []) (convert self input_file)
    (λ _ s, no_forward_refs (events s)) ordered_exn.
Proof.
  intros Htag. rewrite convert_unfold. cbv zeta.
  intros s Hs. unfold bind at 1. unfold list_get.
  assert (Hnone : no_forward_refs (events s)) by (rewrite Hs; constructor).
  destruct (py_split (header_line1 input_file) !! 0) as [tag|] eqn:Hty; simpl;
    [|done].
  destruct (py_int (header_line2 input_file)) as [nl|]; simpl; [|done].
  repeat match goal with
         | |- context [if ?b then _ else _] => destruct b eqn:?
         end.
  - by apply convert_microbenchmark_ordered.
  - by apply convert_data_parallel_ordered.
  - by apply convert_model_parallel_ordered.
  - by apply convert_hybrid_data_model_ordered.
  - by apply convert_hybrid_model_data_ordered.
  - exfalso. apply Htag. f_equal. by apply String.eqb_eq.
  - unfold bind at 1. unfold list_get.
    destruct (py_split (header_line1 input_file) !! 1) as [c|]; simpl; [|done].
    destruct (py_int c) as [b|]; simpl; [|done].
    by apply convert_hybrid_dlrm_ordered.
  - done.
Qed.

(** X11.  Every mode but CUSTOM, every input, whether the run completes
    or stops with an exception: each dependency of a written node is
    smaller than the node's own id and is the id of a node written
    before it.  The order of writing is a topological order of the
    dependency graph. *)
Theorem deps_written_earlier self input_file pre n post d :
  py_split (header_line1 input_file) !! 0 ≠ Some "CUSTOM" →
  nodes_of (events (run (convert self input_file)).2) = pre ++ n :: post →
  d ∈ data_deps n →
  d < node_id n ∧ d ∈ map node_id pre.
Proof.
  intros Htag Hsplit Hd. unfold run in Hsplit.
  pose proof (convert_ordered self input_file Htag init_state eq_refl) as Hord.
  pose proof (keeps_ids_convert self input_file init_state eq_refl) as Hids.
  assert (Hrefs : no_forward_refs (events (convert self input_file init_state).2)).
  { by destruct (convert self input_file init_state) as [[e|[]] s]. }
  assert (Hpre : ∃ k, node_ids (events (convert self input_file init_state).2)
                      = seq 0 k).
  { destruct (convert self input_file init_state) as [[e|[]] s]; [done|].
    by eexists. }
  clear Hord Hids. destruct Hpre as [k Hk].
  unfold no_forward_refs in Hrefs. unfold node_ids in Hk.
  rewrite Hsplit in Hrefs, Hk.
  apply Forall_app in Hrefs as [_ Hn]. apply Forall_cons_1 in Hn as [Hn _].
  assert (Hlt : d < node_id n).
  { unfold backward_deps in Hn. by apply (proj1 (Forall_forall _ _) Hn). }
  split; [done|].
  rewrite map_app in Hk. simpl in Hk.
  pose proof (seq_prefix _ _ _ Hk) as Hpre.
  rewrite Hpre in Hk.
  assert (Hid : node_id n = length (map node_id pre)).
  { assert (Hl : (seq 0 (length (map node_id pre)) ++ node_id n :: map node_id post)
                 !! length (map node_id pre) = Some (node_id n)).
    { rewrite lookup_app_r by (rewrite length_seq; lia).
      by rewrite length_seq, Nat.sub_diag. }
    rewrite Hk in Hl. apply lookup_seq in Hl. lia. }
  rewrite Hpre. apply elem_of_seq. lia.
Qed.

(** ** Runs that complete *)

(** *** DATA *)





(** *** MODEL and the two hybrids *)

(** A lookup that cannot fail, a slot that cannot be empty. *)
Ltac absurd_lookup :=
  match goal with
  | H : _ !! _ = None |- _ =>
      apply lookup_ge_None in H; rewrite ?length_alter in H; lia
  end.

Ltac absurd_slot :=
  match goal with
  | E : ?sl ?l = None, Hl : ?ls !! ?j = Some ?l,
    Hlink : linked_upto ?sl _ ?ls |- _ =>
      destruct (Hlink j l ltac:(lia) Hl) as [? Hsome]; congruence
  | E : ?sl ?l = None, Hl : ?ls !! ?j = Some ?l,
    Hlink : linked_from ?sl _ ?ls |- _ =>
      destruct (Hlink j l ltac:(lia) Hl) as [? Hsome]; congruence
  | E : ?sl ?l = None, Hl : ?ls !! ?j = Some ?l,
    Hlink : ∀ j l, _ → ?ls !! j = Some l → _ → is_Some (?sl l) |- _ =>
      destruct (Hlink j l ltac:(lia) Hl ltac:(lia)) as [? Hsome]; congruence
  | H : is_Some None |- _ => by destruct H
  | H : ?c → is_Some None |- _ =>
      let Hc := fresh in assert (Hc : c) by lia; by destruct (H Hc)
  end.


Ltac linked_goal :=
  unfold linked_upto, linked_from; intros;
  repeat match goal with
    | Hl : alter _ _ _ !! _ = Some _ |- _ => lookup_alter Hl
    end;
  simpl;
  first [ exfalso; lia
        | by eexists
        | match goal with
          | H : linked_upto _ _ _ |- _ => eapply H; [|eassumption]; lia
          | H : linked_from _ _ _ |- _ => eapply H; [|eassumption]; lia
          | H : ∀ j l, _ → _ !! j = Some l → _ → is_Some _ |- _ =>
              eapply H; [|eassumption|]; lia
          end ].















(** *** An understated count in MODEL and the two hybrids *)

Ltac doomed_start :=
  let nid := fresh "nid" in
  let ls := fresh "ls" in
  let ev := fresh "ev" in
  intros [nid ls ev] ?;
  unfold chain_forward_doomed, chain_backward_doomed, attribute_error in *;
  simpl in *;
  repeat match goal with
    | H : _ ∧ _ |- _ => destruct H
    end.

Ltac never_written_goal :=
  let j := fresh "j" in
  let l := fresh "l" in
  let Hl := fresh "Hl" in
  let Hpos := fresh "Hpos" in
  unfold never_written; intros j l Hl Hpos;
  rewrite ?length_alter in Hpos; lookup_alter Hl; simpl;
  first [ exfalso; lia
        | match goal with
          | H : never_written _ _ |- _ => eapply H; [eassumption|lia]
          end ].

(** The slot that [never_written] keeps empty was found filled. *)
Ltac never_written_absurd :=
  match goal with
  | E : bwd_ig_comm_node ?l = Some _, Hl : ?ls !! ?j = Some ?l,
    H : never_written _ ?ls |- _ =>
      rewrite (H j l Hl ltac:(lia)) in E; discriminate
  end.

Ltac doomed_finish :=
  bool_facts;
  first [ reflexivity
        | absurd_lookup
        | absurd_slot
        | exfalso; lia
        | never_written_absurd
        | split_all;
          first [ rewrite ?length_alter; lia
                | lia
                | intros; by eexists
                | solve [never_written_goal]
                | match goal with
                  | |- (?a ≤ ?b)%Z =>
                      destruct (decide (a ≤ b)%Z);
                      [assumption|exfalso; never_written_absurd]
                  end ] ].

Lemma model_forward_doomed self nl n i acc :
  i < n →
  triple (chain_forward_doomed nl n i acc) (model_forward self i acc)
    (λ acc' s, chain_forward_doomed nl n (i + 1) acc' s) attribute_error.
Proof.
  intros Hi. unfold model_forward. doomed_start. unfold_prims. exec.
  all: doomed_finish.
Qed.

Lemma model_backward_doomed self nl n fwd i :
  i < n → is_Some fwd → (1 ≤ nl)%Z →
  triple (chain_backward_doomed nl n i) (model_backward self nl n fwd i)
    (λ _ s, chain_backward_doomed nl n (i + 1) s) attribute_error.
Proof.
  intros Hi Hfwd Hnl. unfold model_backward. doomed_start. unfold_prims. exec.
  all: doomed_finish.
Qed.

Lemma hybrid_data_model_forward_doomed self nl n i acc :
  i < n →
  triple (chain_forward_doomed nl n i acc)
    (hybrid_data_model_forward self i acc)
    (λ acc' s, chain_forward_doomed nl n (i + 1) acc' s) attribute_error.
Proof.
  intros Hi. unfold hybrid_data_model_forward. doomed_start. unfold_prims. exec.
  all: doomed_finish.
Qed.

Lemma hybrid_data_model_backward_doomed self nl n fwd i :
  i < n → is_Some fwd → (1 ≤ nl)%Z →
  triple (chain_backward_doomed nl n i)
    (hybrid_data_model_backward self nl n fwd i)
    (λ _ s, chain_backward_doomed nl n (i + 1) s) attribute_error.
Proof.
  intros Hi Hfwd Hnl. unfold hybrid_data_model_backward. doomed_start.
  unfold_prims. exec.
  all: doomed_finish.
Qed.

Lemma hybrid_model_data_forward_doomed self nl n i acc :
  i < n →
  triple (chain_forward_doomed nl n i acc)
    (hybrid_model_data_forward self i acc)
    (λ acc' s, chain_forward_doomed nl n (i + 1) acc' s) attribute_error.
Proof.
  intros Hi. unfold hybrid_model_data_forward. doomed_start. unfold_prims. exec.
  all: doomed_finish.
Qed.

Lemma hybrid_model_data_backward_doomed self nl n fwd i :
  i < n → is_Some fwd → (1 ≤ nl)%Z →
  triple (chain_backward_doomed nl n i)
    (hybrid_model_data_backward self nl n fwd i)
    (λ _ s, chain_backward_doomed nl n (i + 1) s) attribute_error.
Proof.
  intros Hi Hfwd Hnl. unfold hybrid_model_data_backward. doomed_start.
  unfold_prims. exec.
  all: doomed_finish.
Qed.

(** A pass of a chaining builder under an understated count. *)
Lemma chain_pass_doomed nl n
    (fwd_body : nat → option node_ref → M (option node_ref))
    (bwd_body : nat → option node_ref → nat → M unit) :
  (1 ≤ nl < Z.of_nat n)%Z →
  (∀ i acc, i < n →
     triple (chain_forward_doomed nl n i acc) (fwd_body i acc)
       (λ acc' s, chain_forward_doomed nl n (i + 1) acc' s) attribute_error) →
  (∀ fwd i, i < n → is_Some fwd →
     triple (chain_backward_doomed nl n i) (bwd_body n fwd i)
       (λ _ s, chain_backward_doomed nl n (i + 1) s) attribute_error) →
  triple (doomed nl n)
    (k <- get_layers_len ;;
     fwd <- for_fold (seq 0 k) None fwd_body ;;
     for_each (seq 0 k) (bwd_body k fwd))
    no_return attribute_error.
Proof.
  intros Hnl Hf Hb. apply (triple_len n); [by intros s [Hs _]|].
  apply (triple_bind _ _ _ (λ fwd s, chain_forward_doomed nl n n fwd s)).
  - eapply triple_weaken.
    + apply (triple_for_fold (chain_forward_doomed nl n) attribute_error
               fwd_body n 0 None).
      intros i acc Hi. apply Hf. lia.
    + intros s [Hlen Hnw]. unfold chain_forward_doomed. split_all; [done..|lia].
    + by intros acc s Hs.
    + done.
  - intros fwd s Hs.
    assert (Hfwd : is_Some fwd).
    { destruct Hs as (_ & _ & Hacc). apply Hacc. lia. }
    revert s Hs. eapply triple_weaken.
    + apply (triple_for_each (chain_backward_doomed nl n) attribute_error
               (bwd_body n fwd) n 0).
      intros i Hi. apply Hb; [lia|done].
    + intros s (Hlen & Hnw & _). unfold chain_backward_doomed.
      split_all; [lia|done..].
    + intros ? s (Hle & _). simpl in Hle. unfold no_return. lia.
    + done.
Qed.

(** A loop that has a first round, and whose first round cannot return. *)
Lemma for_each_doomed (P : state → Prop) (body : nat → M unit) k E :
  0 < k →
  triple P (body 0) no_return E →
  triple P (for_each (seq 0 k) body) no_return E.
Proof.
  intros Hk Hbody. destruct k as [|k]; [lia|].
  unfold for_each. simpl.
  apply (triple_bind _ _ _ no_return); [exact Hbody|]. by intros ? s Hs.
Qed.

Lemma devices_doomed nl n text (pass : M unit) passes (f : Layer → Layer)
    devices :
  (1 ≤ passes)%Z → (1 ≤ devices)%Z →
  triple (doomed nl n) pass no_return attribute_error →
  triple (doomed nl n)
    (for_each (range devices)
       (λ d, open_output d ;;
             encode_message (MsgMetadata (get_global_metadata text)) ;;
             for_each (range passes) (λ _, pass) ;;
             clear_slots f))
    no_return attribute_error.
Proof.
  intros Hp Hd Hpass. unfold range. apply for_each_doomed; [lia|].
  intros [nid ls ev] Hs.
  unfold bind at 1. unfold open_output. simpl.
  unfold bind at 1. unfold encode_message. simpl. unfold bind at 1.
  pose proof (for_each_doomed (doomed nl n) (λ _, pass) (Z.to_nat passes)
                attribute_error ltac:(lia) Hpass
                (mkState nid ls
                   ((ev ++ [Open 0])
                    ++ [Write (MsgMetadata (get_global_metadata text))])) Hs)
    as H.
  by destruct (for_each (seq 0 (Z.to_nat passes)) (λ _, pass) _) as [[e|[]] s1].
Qed.

Lemma run_doomed (m : M unit) (ls : list Layer) f nl :
  get_layers f nl = inr ls →
  triple (doomed nl (length ls)) m no_return attribute_error →
  ∀ s, ((ls' <- lift (get_layers f nl) ;; set_layers ls' ;; m) s).1
       = inl AttributeError.
Proof.
  intros Hls Hm [nid ls0 ev]. unfold bind at 1. rewrite Hls. simpl.
  unfold bind at 1. unfold set_layers. simpl.
  assert (Hs : doomed nl (length ls) (mkState nid ls ev)).
  { split; [done|]. simpl. apply unlinked_never_written.
    by apply (get_layers_unlinked f nl). }
  specialize (Hm (mkState nid ls ev) Hs).
  destruct (m _) as [[e|[]] s]; [|done]. simpl. by rewrite Hm.
Qed.

(** X14.  MODEL, HYBRID_DATA_MODEL and HYBRID_MODEL_DATA with a declared
    count that understates the number of layer lines (at least one, but
    fewer than there are), at least one device and at least one pass:
    the run does not convert fewer layers, it stops with
    [AttributeError].  The backward loop leaves out the input-gradient
    communication node of the layer it visits at position
    [num_layers - 1], and the next layer asks for it. *)
Theorem chain_run_understated self input_file tag num_layers ls :
  py_split (header_line1 input_file) !! 0 = Some tag →
  tag ∈ chain_modes →
  py_int (header_line2 input_file) = Some num_layers →
  get_layers (drop 2 input_file) num_layers = inr ls →
  (1 ≤ num_layers < Z.of_nat (length ls))%Z →
  (1 ≤ num_npus self)%Z → (1 ≤ num_passes self)%Z →
  (run (convert self input_file)).1 = inl AttributeError.
Proof.
  intros Htag Hin Hnl Hls Hcount Hnpus Hpasses.
  rewrite <- readline_drop2 in Hls.
  rewrite convert_unfold. unfold run. cbv zeta.
  unfold bind at 1. unfold list_get. rewrite Htag, Hnl. simpl.
  unfold chain_modes in Hin.
  apply elem_of_cons in Hin as [->|Hin]; simpl.
  { unfold convert_model_parallel. apply (run_doomed _ ls); [done|].
    unfold model_device. apply devices_doomed; [done..|]. unfold model_pass.
    apply (chain_pass_doomed num_layers (length ls) (model_forward self)
             (model_backward self num_layers)); [done| |].
    - intros. by apply model_forward_doomed.
    - intros. apply model_backward_doomed; [done..|lia]. }
  apply elem_of_cons in Hin as [->|Hin]; simpl.
  { unfold convert_hybrid_data_model. apply (run_doomed _ ls); [done|].
    unfold hybrid_data_model_device. apply devices_doomed; [done..|].
    unfold hybrid_data_model_pass.
    apply (chain_pass_doomed num_layers (length ls)
             (hybrid_data_model_forward self)
             (hybrid_data_model_backward self num_layers)); [done| |].
    - intros. by apply hybrid_data_model_forward_doomed.
    - intros. apply hybrid_data_model_backward_doomed; [done..|lia]. }
  apply elem_of_cons in Hin as [->|Hin]; simpl.
  { unfold convert_hybrid_model_data. apply (run_doomed _ ls); [done|].
    unfold hybrid_model_data_device. apply devices_doomed; [done..|].
    unfold hybrid_model_data_pass.
    apply (chain_pass_doomed num_layers (length ls)
             (hybrid_model_data_forward self)
             (hybrid_model_data_backward self num_layers)); [done| |].
    - intros. by apply hybrid_model_data_forward_doomed.
    - intros. apply hybrid_model_data_backward_doomed; [done..|lia]. }
  by apply elem_of_nil in Hin.
Qed.

(** ** The classification loop of CUSTOM *)

Lemma has_trainable_underneath_run k a s :
  a + k ≤ length (layers s) →
  has_trainable_underneath (seq a k) s
  = (inr (existsb is_trainable (take k (drop a (layers s)))), s).
Proof.
  revert a. induction k as [|k IH]; intros a Hk; [done|].
  assert (Ha : a < length (layers s)) by lia.
  destruct (lookup_lt_is_Some_2 _ _ Ha) as [l Hl].
  simpl. unfold bind, layer_at. rewrite Hl.
  rewrite (drop_S _ _ _ Hl). simpl.
  destruct (is_trainable l); [done|].
  simpl. apply IH. lia.
Qed.

Lemma custom_layer_type_run i acc s l :
  layers s !! i = Some l →
  custom_layer_type i acc s = (inr (acc ++ [layer_kind (layers s) i l]), s).
Proof.
  intros Hl. unfold custom_layer_type. unfold bind at 1.
  rewrite (has_trainable_underneath_run i 0 s)
    by (apply lookup_lt_Some in Hl; lia).
  rewrite drop_0. unfold bind, layer_at. rewrite Hl. unfold layer_kind.
  by destruct (is_trainable l), (existsb is_trainable (take i (layers s))).
Qed.

Lemma custom_layer_types_run k a acc s :
  a + k ≤ length (layers s) →
  for_fold (seq a k) acc custom_layer_type s
  = (inr (acc ++ imap (λ j, layer_kind (layers s) (a + j))
                   (take k (drop a (layers s)))), s).
Proof.
  revert a acc. induction k as [|k IH]; intros a acc Hk.
  - simpl. unfold ret. by rewrite app_nil_r.
  - assert (Ha : a < length (layers s)) by lia.
    destruct (lookup_lt_is_Some_2 _ _ Ha) as [l Hl].
    simpl. unfold bind at 1. rewrite (custom_layer_type_run a acc s l Hl).
    rewrite IH by lia. rewrite (drop_S _ _ _ Hl). simpl.
    rewrite <- app_assoc. simpl. rewrite Nat.add_0_r.
    do 4 f_equal. apply imap_ext. intros j x _. simpl. f_equal. lia.
Qed.

Lemma for_fold_app {A T} (l1 l2 : list A) (acc : T) (body : A → T → M T) s :
  for_fold (l1 ++ l2) acc body s
  = (acc' <- for_fold l1 acc body ;; for_fold l2 acc' body)%M s.
Proof.
  revert acc s. induction l1 as [|x l1 IH]; intros acc s; [done|].
  simpl. unfold bind at 1 2 3.
  destruct (body x acc s) as [[e|a] s']; [done|]. apply IH.
Qed.

Lemma custom_layer_types_overrun k acc s :
  length (layers s) < k →
  for_fold (seq 0 k) acc custom_layer_type s = (inl IndexError, s).
Proof.
  intros Hk.
  replace k with (length (layers s) + S (k - S (length (layers s)))) by lia.
  rewrite seq_app, for_fold_app. unfold bind at 1.
  rewrite custom_layer_types_run by lia.
  simpl. unfold bind at 1. unfold custom_layer_type. unfold bind at 1.
  rewrite (has_trainable_underneath_run _ 0 s) by lia.
  unfold bind at 1. unfold layer_at.
  by rewrite (lookup_ge_None_2 (layers s) (length (layers s))) by lia.
Qed.

(** X15. The classification loop of CUSTOM over a declared count of at
    most the number of layers gives every layer its kind and leaves the
    state as it is: a trainable layer is FP+IG+WG when some layer of a
    smaller index is trainable and FP+WG otherwise, a frozen layer is
    FP+IG when some layer of a smaller index is trainable and FP
    otherwise. Over a larger count the loop raises IndexError. *)
Theorem custom_classification s num_layers :
  (Z.to_nat num_layers ≤ length (layers s) →
   for_fold (range num_layers) [] custom_layer_type s
   = (inr (layer_kinds (Z.to_nat num_layers) (layers s)), s)) ∧
  (length (layers s) < Z.to_nat num_layers →
   for_fold (range num_layers) [] custom_layer_type s = (inl IndexError, s)).
Proof.
  unfold range, layer_kinds. split; intros Hk.
  - rewrite custom_layer_types_run by lia. by rewrite drop_0.
  - by apply custom_layer_types_overrun.
Qed.

Lemma custom_kinds_run k s :
  k ≤ length (layers s) →
  for_fold (seq 0 k) [] custom_layer_type s
  = (inr (layer_kinds k (layers s)), s).
Proof.
  intros Hk. unfold layer_kinds.
  rewrite custom_layer_types_run by lia. by rewrite drop_0.
Qed.

Lemma convert_custom self input_file num_layers :
  py_split (header_line1 input_file) !! 0 = Some "CUSTOM" →
  py_int (header_line2 input_file) = Some num_layers →
  run (convert self input_file)
  = convert_custom_paralellism self (drop 2 input_file) num_layers init_state.
Proof.
  intros Htag Hnl. rewrite <- readline_drop2.
  rewrite convert_unfold. unfold run. cbv zeta.
  unfold bind at 1. unfold list_get. rewrite Htag, Hnl. by simpl.
Qed.

(** X16. CUSTOM with a declared count above the number of layer lines
    stops with IndexError in the classification loop, after the layers
    are loaded and before any file is opened. *)
Theorem custom_overstated_count self input_file num_layers ls :
  py_split (header_line1 input_file) !! 0 = Some "CUSTOM" →
  py_int (header_line2 input_file) = Some num_layers →
  get_layers (drop 2 input_file) num_layers = inr ls →
  length ls < Z.to_nat num_layers →
  run (convert self input_file) = (inl IndexError, mkState 0 ls []).
Proof.
  intros Htag Hnl Hls Hlen. rewrite (convert_custom _ _ _ Htag Hnl).
  unfold convert_custom_paralellism. unfold bind at 1. rewrite Hls. simpl.
  unfold bind at 1. unfold set_layers, init_state. simpl.
  unfold bind at 1. unfold range.
  by rewrite custom_layer_types_overrun by (simpl; lia).
Qed.

(** ** When CUSTOM completes *)

Lemma layer_kinds_lookup k ls i l :
  i < k → ls !! i = Some l →
  layer_kinds k ls !! i = Some (layer_kind ls i l).
Proof.
  intros Hi Hl. unfold layer_kinds. rewrite list_lookup_imap.
  assert (H : take k ls !! i = Some l) by (by apply lookup_take_Some).
  by rewrite H.
Qed.

Lemma layer_kinds_length k ls :
  k ≤ length ls → length (layer_kinds k ls) = k.
Proof.
  intros Hk. unfold layer_kinds. rewrite length_imap, length_take. lia.
Qed.

Lemma layer_kinds_known k ls i ty :
  layer_kinds k ls !! i = Some ty → ty ∈ custom_kinds.
Proof.
  unfold layer_kinds. rewrite list_lookup_imap. intros H.
  apply fmap_Some in H as (l & _ & ->). unfold layer_kind, custom_kinds.
  destruct (is_trainable l), (existsb is_trainable (take i ls)); in_list.
Qed.

Lemma no_trainable_before ls i :
  (∀ k l, k < i → ls !! k = Some l → is_trainable l = false) →
  existsb is_trainable (take i ls) = false.
Proof.
  intros H. destruct (existsb is_trainable (take i ls)) eqn:E; [|done].
  apply existsb_exists in E as (x & Hin & Hx).
  apply list_elem_of_In, list_elem_of_lookup in Hin as [k Hk].
  apply lookup_take_Some in Hk as [Hk Hlt].
  by rewrite (H k x Hlt Hk) in Hx.
Qed.



Lemma kinds_before_first k j ls i :
  first_trainable_at j ls → i < j → j < k →
  layer_kinds k ls !! i = Some "FP".
Proof.
  intros [Hbefore (lj & Hlj & Hj)] Hi Hk.
  assert (Hlen : i < length ls) by (apply lookup_lt_Some in Hlj; lia).
  destruct (lookup_lt_is_Some_2 _ _ Hlen) as [l Hl].
  assert (Hik : i < k) by lia.
  rewrite (layer_kinds_lookup _ _ _ l Hik Hl). unfold layer_kind.
  rewrite (Hbefore i l Hi Hl).
  rewrite no_trainable_before; [done|].
  intros j' l' ? Hl'. apply (Hbefore j' l'); [lia|done].
Qed.

Lemma kinds_at_first k j ls :
  first_trainable_at j ls → j < k →
  layer_kinds k ls !! j = Some "FP+WG".
Proof.
  intros [Hbefore (lj & Hlj & Hj)] Hk.
  rewrite (layer_kinds_lookup _ _ _ lj Hk Hlj). unfold layer_kind.
  rewrite Hj. by rewrite (no_trainable_before _ _ Hbefore).
Qed.



Ltac custom_finish :=
  bool_facts;
  first [ reflexivity
        | by left
        | by right
        | absurd_lookup
        | absurd_slot
        | exfalso; lia
        | split_all;
          first [ reflexivity
                | rewrite ?length_alter; lia
                | intros; by eexists
                | solve [linked_goal] ] ].

Lemma custom_forward_total n i acc :
  i < n →
  triple (custom_forward_linked n i acc) (custom_forward i acc)
    (λ acc' s, custom_forward_linked n (i + 1) acc' s) no_exn.
Proof.
  intros Hi [nid ls ev] (Hlen & Hacc & Hlink).
  unfold custom_forward_linked. simpl in *.
  unfold custom_forward. unfold_prims. exec.
  all: custom_finish.
Qed.



Lemma custom_backward_stuck tys j n fwd idx prev :
  idx < n → 0 < j →
  (∀ i, i < j → tys !! i = Some "FP") → tys !! j = Some "FP+WG" →
  triple (custom_backward_doomed j n idx prev)
    (custom_backward tys n fwd idx prev)
    (λ prev' s, custom_backward_doomed j n (idx + 1) prev' s)
    attribute_error.
Proof.
  intros Hi Hj Hfp Hwg [nid ls ev] (Hle & -> & Hlen).
  unfold custom_backward_doomed, attribute_error. simpl in *.
  unfold custom_backward. unfold_prims.
  destruct (decide (idx = j)) as [->|Hne].
  - rewrite Hwg. exec. all: custom_finish.
  - rewrite (Hfp idx) by lia. exec. all: custom_finish.
Qed.

Lemma custom_backward_counted tys n fwd idx prev :
  idx < n → (∀ i ty, tys !! i = Some ty → ty ∈ custom_kinds) →
  triple (custom_backward_short (length tys) n idx prev)
    (custom_backward tys n fwd idx prev)
    (λ prev' s, custom_backward_short (length tys) n (idx + 1) prev' s)
    index_or_attribute_error.
Proof.
  intros Hi Hknown [nid ls ev] (Hle & Hlen).
  unfold custom_backward_short, index_or_attribute_error. simpl in *.
  unfold custom_backward. unfold_prims.
  destruct (tys !! idx) as [ty|] eqn:Hty.
  - pose proof (Hknown idx ty Hty) as Hin. apply lookup_lt_Some in Hty.
    unfold custom_kinds in Hin.
    repeat (apply elem_of_cons in Hin as [->|Hin]; [exec; custom_finish|]).
    by apply elem_of_nil in Hin.
  - exec; custom_finish.
Qed.

Lemma custom_forward_loop n E :
  triple (has_layers n) (for_fold (seq 0 n) None custom_forward)
    (λ fwd s, has_layers n s ∧ (0 < n → is_Some fwd)) E.
Proof.
  eapply triple_weaken.
  - apply (triple_for_fold (custom_forward_linked n) no_exn custom_forward
             n 0 None).
    intros i acc Hi. apply custom_forward_total. lia.
  - intros s Hs. unfold custom_forward_linked. split_all; [done|lia|].
    intros j l Hj. lia.
  - by intros acc s (Hlen & Hacc & _).
  - by intros e s [].
Qed.


(** A pass of CUSTOM whose backward loop cannot get through. *)
Lemma custom_pass_doomed tys n (I : nat → option node_ref → state → Prop) E :
  0 < n →
  (∀ s, has_layers n s → I 0 None s) →
  (∀ prev s, ¬ I n prev s) →
  (∀ fwd idx prev, idx < n →
     triple (I idx prev) (custom_backward tys n fwd idx prev)
       (λ prev' s, I (idx + 1) prev' s) E) →
  triple (has_layers n) (custom_pass tys) no_return E.
Proof.
  intros Hn Hstart Hend Hbody. unfold custom_pass.
  apply (triple_len n); [done|].
  eapply triple_bind; [apply custom_forward_loop|]. intros fwd.
  apply (triple_bind _ _ _ no_return); [|by intros ? s Hs].
  eapply triple_weaken.
  - apply (triple_for_fold I E (custom_backward tys n fwd) n 0 None).
    intros i acc Hi. apply Hbody. lia.
  - intros s [Hs _]. by apply Hstart.
  - intros prev s Hs. by apply (Hend prev s).
  - done.
Qed.


Lemma custom_devices_doomed self tys n E :
  (1 ≤ num_npus self)%Z → (1 ≤ num_passes self)%Z →
  triple (has_layers n) (custom_pass tys) no_return E →
  triple (has_layers n)
    (for_each (range (num_npus self)) (custom_device self tys))
    no_return E.
Proof.
  intros Hd Hp Hpass. unfold range. apply for_each_doomed; [lia|].
  unfold custom_device. apply (triple_bind _ _ _ (λ _, has_layers n)).
  - by intros [nid ls ev] Hs.
  - intros ?. unfold range. apply for_each_doomed; [lia|exact Hpass].
Qed.

(** The builder of CUSTOM, from the loaded layers on. *)
Lemma convert_custom_paralellism_run self f nl ls s :
  get_layers f nl = inr ls → Z.to_nat nl ≤ length ls →
  convert_custom_paralellism self f nl s
  = for_each (range (num_npus self))
      (custom_device self (layer_kinds (Z.to_nat nl) ls))
      (mkState (next_node_id s) ls (events s)).
Proof.
  intros Hls Hnl. destruct s as [nid ls0 ev].
  unfold convert_custom_paralellism. unfold bind at 1. rewrite Hls. simpl.
  unfold bind at 1. unfold set_layers. simpl.
  unfold bind at 1. unfold range at 1.
  by rewrite custom_kinds_run by (simpl; lia).
Qed.


Lemma convert_custom_paralellism_doomed self f nl ls s E :
  get_layers f nl = inr ls → Z.to_nat nl ≤ length ls →
  (1 ≤ num_npus self)%Z → (1 ≤ num_passes self)%Z →
  triple (has_layers (length ls))
    (custom_pass (layer_kinds (Z.to_nat nl) ls)) no_return E →
  stops_with E (convert_custom_paralellism self f nl s).
Proof.
  intros Hls Hnl Hd Hp Hpass.
  rewrite (convert_custom_paralellism_run _ _ _ ls) by done.
  pose proof (custom_devices_doomed self _ _ E Hd Hp Hpass
                (mkState (next_node_id s) ls (events s)) eq_refl) as H.
  unfold stops_with. by destruct (for_each _ _ _) as [[e|[]] s1].
Qed.


(** X18. CUSTOM with a frozen first layer and a trainable layer after
    it, within a declared count of at most the number of layer lines,
    with at least one device and one pass: the run stops with
    AttributeError. The backward loop takes the kinds in the order of
    the layers while it visits the layers from the last one, so it
    makes no node before the position of the first trainable layer,
    and the node it makes there has no predecessor. *)
Theorem custom_run_frozen_first self input_file num_layers ls j :
  py_split (header_line1 input_file) !! 0 = Some "CUSTOM" →
  py_int (header_line2 input_file) = Some num_layers →
  get_layers (drop 2 input_file) num_layers = inr ls →
  first_trainable_at j ls → 0 < j < Z.to_nat num_layers →
  Z.to_nat num_layers ≤ length ls →
  (1 ≤ num_npus self)%Z → (1 ≤ num_passes self)%Z →
  (run (convert self input_file)).1 = inl AttributeError.
Proof.
  intros Htag Hnl Hls Hfirst Hj Hlen Hd Hp.
  rewrite (convert_custom _ _ _ Htag Hnl).
  assert (H : stops_with attribute_error
                (convert_custom_paralellism self (drop 2 input_file)
                   num_layers init_state)).
  { apply (convert_custom_paralellism_doomed _ _ _ ls); [done..|].
    apply (custom_pass_doomed _ _ (custom_backward_doomed j (length ls)));
      [lia| | |].
    - intros s Hs. unfold custom_backward_doomed. split_all; [lia|done|done].
    - intros prev s (Hle & _). lia.
    - intros fwd idx prev Hidx. apply custom_backward_stuck; [done|lia| |].
      + intros i Hi. apply (kinds_before_first _ j); [done|lia|lia].
      + apply kinds_at_first; [done|lia]. }
  destruct (convert_custom_paralellism _ _ _ _) as [[e|[]] s1]; [|done].
  simpl in *. unfold attribute_error in H. by subst.
Qed.

(** X19. CUSTOM with a declared count below the number of layer lines,
    with at least one device and one pass, never completes: the run
    stops with IndexError or AttributeError. The backward loop visits
    every layer and has a kind for the declared count of them only. *)
Theorem custom_run_understated self input_file num_layers ls :
  py_split (header_line1 input_file) !! 0 = Some "CUSTOM" →
  py_int (header_line2 input_file) = Some num_layers →
  get_layers (drop 2 input_file) num_layers = inr ls →
  Z.to_nat num_layers < length ls →
  (1 ≤ num_npus self)%Z → (1 ≤ num_passes self)%Z →
  (run (convert self input_file)).1 = inl IndexError ∨
  (run (convert self input_file)).1 = inl AttributeError.
Proof.
  intros Htag Hnl Hls Hlen Hd Hp.
  rewrite (convert_custom _ _ _ Htag Hnl).
  assert (H : stops_with index_or_attribute_error
                (convert_custom_paralellism self (drop 2 input_file)
                   num_layers init_state)).
  { apply (convert_custom_paralellism_doomed _ _ _ ls); [done|lia|done..|].
    apply (custom_pass_doomed _ _
             (custom_backward_short
                (length (layer_kinds (Z.to_nat num_layers) ls)) (length ls)));
      [lia| | |].
    - intros s Hs. split; [lia|done].
    - intros prev s (Hle & _). rewrite layer_kinds_length in Hle; lia.
    - intros fwd idx prev Hidx. apply custom_backward_counted; [done|].
      intros i ty. apply layer_kinds_known. }
  destruct (convert_custom_paralellism _ _ _ _) as [[e|[]] s1]; [|done].
  simpl. destruct H as [->| ->]; [by left|by right].
Qed.

(** ** The further properties at concrete inputs *)

Lemma not_dlrm_mode (tag : string) :
  String.eqb tag "HYBRID_DLRM" = false →
  String.eqb tag "HYBRID_DLRM_ENHANCED" = false →
  tag ∉ dlrm_modes.
Proof.
  intros H1 H2 Hin. unfold dlrm_modes in Hin.
  apply elem_of_cons in Hin as [->|Hin]; [done|].
  apply elem_of_cons in Hin as [->|Hin]; [done|].
  by apply elem_of_nil in Hin.
Qed.

Lemma data_layers_length : length data_layers = 2.
Proof. vm_compute. reflexivity. Qed.

Lemma Layer_init_result_witness :
  Layer_init (example_line "b" "1" "ALLREDUCE") = inr data_layer_b ∧
  Some (name data_layer_b) = py_split (example_line "b" "1" "ALLREDUCE") !! 0 ∧
  unlinked data_layer_b.
Proof.
  assert (H : Layer_init (example_line "b" "1" "ALLREDUCE") = inr data_layer_b)
    by (vm_compute; reflexivity).
  destruct (Layer_init_result _ _ H) as (_ & Hname & _ & Hun & _).
  split; [exact H|]. split; [exact Hname|exact Hun].
Defined.

Lemma dlrm_boundary_errors_witness :
  py_split (header_line1 dlrm_no_boundary) !! 0 = Some "HYBRID_DLRM" ∧
  "HYBRID_DLRM" ∈ dlrm_modes ∧
  py_int (header_line2 dlrm_no_boundary) = Some 1%Z ∧
  py_split (header_line1 dlrm_no_boundary) !! 1 = None ∧
  run (convert example_converter dlrm_no_boundary) = (inl IndexError, init_state).
Proof.
  assert (Htag : py_split (header_line1 dlrm_no_boundary) !! 0
                 = Some "HYBRID_DLRM") by (vm_compute; reflexivity).
  assert (Hin : "HYBRID_DLRM" ∈ dlrm_modes) by (unfold dlrm_modes; in_list).
  assert (Hnl : py_int (header_line2 dlrm_no_boundary) = Some 1%Z)
    by (vm_compute; reflexivity).
  assert (Hnone : py_split (header_line1 dlrm_no_boundary) !! 1 = None)
    by (vm_compute; reflexivity).
  split; [exact Htag|]. split; [exact Hin|]. split; [exact Hnl|].
  split; [exact Hnone|].
  exact (proj1 (dlrm_boundary_errors example_converter dlrm_no_boundary
                  "HYBRID_DLRM" 1%Z Htag Hin Hnl) Hnone).
Defined.

Lemma load_error_no_output_witness :
  py_split (header_line1 data_blank_tail) !! 0 = Some "DATA" ∧
  "DATA" ∈ known_modes ∧
  py_int (header_line2 data_blank_tail) = Some 1%Z ∧
  get_layers (drop 2 data_blank_tail) 1 = inl (layer_error newline) ∧
  run (convert example_converter data_blank_tail)
  = (inl (layer_error newline), init_state).
Proof.
  assert (Htag : py_split (header_line1 data_blank_tail) !! 0 = Some "DATA")
    by (vm_compute; reflexivity).
  assert (Hin : "DATA" ∈ known_modes) by (unfold known_modes; in_list).
  assert (Hnl : py_int (header_line2 data_blank_tail) = Some 1%Z)
    by (vm_compute; reflexivity).
  assert (Hload : get_layers (drop 2 data_blank_tail) 1
                  = inl (layer_error newline)) by (vm_compute; reflexivity).
  assert (Hb : "DATA" ∈ dlrm_modes →
               ∃ c b, py_split (header_line1 data_blank_tail) !! 1 = Some c ∧
                      py_int c = Some b).
  { intros Hd. by destruct (not_dlrm_mode "DATA" eq_refl eq_refl). }
  split; [exact Htag|]. split; [exact Hin|]. split; [exact Hnl|].
  split; [exact Hload|].
  exact (load_error_no_output example_converter data_blank_tail "DATA" 1%Z
           (layer_error newline) Htag Hin Hnl Hb Hload).
Defined.


Lemma output_files_witness :
  py_split (header_line1 data_two_layers) !! 0 ≠ Some "CUSTOM" ∧
  files_result (node_shape example_converter_2x2)
    (metadata_header (input_text_of data_two_layers))
    (Z.to_nat (num_npus example_converter_2x2))
    (run (convert example_converter_2x2 data_two_layers)).1
    (run (convert example_converter_2x2 data_two_layers)).2.
Proof.
  assert (Htag : py_split (header_line1 data_two_layers) !! 0 ≠ Some "CUSTOM").
  { intros H. vm_compute in H. discriminate. }
  split; [exact Htag|].
  exact (output_files example_converter_2x2 data_two_layers Htag).
Defined.

Lemma custom_output_files_witness :
  py_split (header_line1 custom_both_trainable) !! 0 = Some "CUSTOM" ∧
  files_result comp_shape [] (Z.to_nat (num_npus example_converter))
    (run (convert example_converter custom_both_trainable)).1
    (run (convert example_converter custom_both_trainable)).2.
Proof.
  assert (Htag : py_split (header_line1 custom_both_trainable) !! 0
                 = Some "CUSTOM") by (vm_compute; reflexivity).
  split; [exact Htag|].
  exact (custom_output_files example_converter custom_both_trainable Htag).
Defined.

Lemma deps_written_earlier_witness :
  py_split (header_line1 data_two_layers) !! 0 ≠ Some "CUSTOM" ∧
  nodes_of (events (run (convert example_converter_2x2 data_two_layers)).2)
  = take 1 data_run_nodes ++ data_run_second :: drop 2 data_run_nodes ∧
  0 ∈ data_deps data_run_second ∧
  0 < node_id data_run_second ∧
  0 ∈ map node_id (take 1 data_run_nodes).
Proof.
  assert (Htag : py_split (header_line1 data_two_layers) !! 0 ≠ Some "CUSTOM").
  { intros H. vm_compute in H. discriminate. }
  assert (Hsplit :
    nodes_of (events (run (convert example_converter_2x2 data_two_layers)).2)
    = take 1 data_run_nodes ++ data_run_second :: drop 2 data_run_nodes)
    by (vm_compute; reflexivity).
  assert (Hd : 0 ∈ data_deps data_run_second).
  { vm_compute. apply list_elem_of_here. }
  split; [exact Htag|]. split; [exact Hsplit|]. split; [exact Hd|].
  exact (deps_written_earlier example_converter_2x2 data_two_layers
           (take 1 data_run_nodes) data_run_second (drop 2 data_run_nodes) 0
           Htag Hsplit Hd).
Defined.



Lemma chain_run_understated_witness :
  py_split (header_line1 model_count_understated) !! 0 = Some "MODEL" ∧
  "MODEL" ∈ chain_modes ∧
  py_int (header_line2 model_count_understated) = Some 1%Z ∧
  get_layers (drop 2 model_count_understated) 1 = inr data_layers ∧
  (1 ≤ 1 < Z.of_nat (length data_layers))%Z ∧
  (1 ≤ num_npus example_converter)%Z ∧
  (1 ≤ num_passes example_converter)%Z ∧
  (run (convert example_converter model_count_understated)).1
  = inl AttributeError.
Proof.
  assert (Htag : py_split (header_line1 model_count_understated) !! 0
                 = Some "MODEL") by (vm_compute; reflexivity).
  assert (Hin : "MODEL" ∈ chain_modes) by (unfold chain_modes; in_list).
  assert (Hnl : py_int (header_line2 model_count_understated) = Some 1%Z)
    by (vm_compute; reflexivity).
  assert (Hls : get_layers (drop 2 model_count_understated) 1 = inr data_layers)
    by (vm_compute; reflexivity).
  assert (Hcount : (1 ≤ 1 < Z.of_nat (length data_layers))%Z).
  { rewrite data_layers_length. lia. }
  assert (Hnpus : (1 ≤ num_npus example_converter)%Z) by (simpl; lia).
  assert (Hpasses : (1 ≤ num_passes example_converter)%Z) by (simpl; lia).
  split; [exact Htag|]. split; [exact Hin|]. split; [exact Hnl|].
  split; [exact Hls|]. split; [exact Hcount|]. split; [exact Hnpus|].
  split; [exact Hpasses|].
  exact (chain_run_understated example_converter model_count_understated
           "MODEL" 1%Z data_layers Htag Hin Hnl Hls Hcount Hnpus Hpasses).
Defined.

Lemma custom_overstated_count_witness :
  py_split (header_line1 custom_count_overstated) !! 0 = Some "CUSTOM" ∧
  py_int (header_line2 custom_count_overstated) = Some 2%Z ∧
  get_layers (drop 2 custom_count_overstated) 2 = inr (take 1 data_layers) ∧
  length (take 1 data_layers) < Z.to_nat 2 ∧
  run (convert example_converter custom_count_overstated)
  = (inl IndexError, mkState 0 (take 1 data_layers) []).
Proof.
  assert (Htag : py_split (header_line1 custom_count_overstated) !! 0
                 = Some "CUSTOM") by (vm_compute; reflexivity).
  assert (Hnl : py_int (header_line2 custom_count_overstated) = Some 2%Z)
    by (vm_compute; reflexivity).
  assert (Hls : get_layers (drop 2 custom_count_overstated) 2
                = inr (take 1 data_layers)) by (vm_compute; reflexivity).
  assert (Hlen : length (take 1 data_layers) < Z.to_nat 2)
    by (vm_compute; lia).
  split; [exact Htag|]. split; [exact Hnl|]. split; [exact Hls|].
  split; [exact Hlen|].
  exact (custom_overstated_count example_converter custom_count_overstated
           2%Z (take 1 data_layers) Htag Hnl Hls Hlen).
Defined.


Lemma custom_run_frozen_first_witness :
  py_split (header_line1 custom_frozen_trainable) !! 0 = Some "CUSTOM" ∧
  py_int (header_line2 custom_frozen_trainable) = Some 2%Z ∧
  get_layers (drop 2 custom_frozen_trainable) 2 = inr frozen_trainable_layers ∧
  first_trainable_at 1 frozen_trainable_layers ∧
  0 < 1 < Z.to_nat 2 ∧
  Z.to_nat 2 ≤ length frozen_trainable_layers ∧
  (1 ≤ num_npus example_converter)%Z ∧
  (1 ≤ num_passes example_converter)%Z ∧
  (run (convert example_converter custom_frozen_trainable)).1
  = inl AttributeError.
Proof.
  assert (Htag : py_split (header_line1 custom_frozen_trainable) !! 0
                 = Some "CUSTOM") by (vm_compute; reflexivity).
  assert (Hnl : py_int (header_line2 custom_frozen_trainable) = Some 2%Z)
    by (vm_compute; reflexivity).
  assert (Hls : get_layers (drop 2 custom_frozen_trainable) 2
                = inr frozen_trainable_layers) by (vm_compute; reflexivity).
  assert (Hfirst : first_trainable_at 1 frozen_trainable_layers).
  { split.
    - intros i l Hi Hl. assert (i = 0) as -> by lia.
      vm_compute in Hl. injection Hl as <-. reflexivity.
    - exists frozen_trainable_layer_b. split; vm_compute; reflexivity. }
  assert (Hj : 0 < 1 < Z.to_nat 2) by (vm_compute; lia).
  assert (Hlen : Z.to_nat 2 ≤ length frozen_trainable_layers)
    by (vm_compute; lia).
  assert (Hnpus : (1 ≤ num_npus example_converter)%Z) by (simpl; lia).
  assert (Hpasses : (1 ≤ num_passes example_converter)%Z) by (simpl; lia).
  split; [exact Htag|]. split; [exact Hnl|]. split; [exact Hls|].
  split; [exact Hfirst|]. split; [exact Hj|]. split; [exact Hlen|].
  split; [exact Hnpus|]. split; [exact Hpasses|].
  exact (custom_run_frozen_first example_converter custom_frozen_trainable
           2%Z frozen_trainable_layers 1 Htag Hnl Hls Hfirst Hj Hlen
           Hnpus Hpasses).
Defined.

Lemma custom_run_understated_witness :
  py_split (header_line1 custom_count_understated) !! 0 = Some "CUSTOM" ∧
  py_int (header_line2 custom_count_understated) = Some 1%Z ∧
  get_layers (drop 2 custom_count_understated) 1 = inr data_layers ∧
  Z.to_nat 1 < length data_layers ∧
  (1 ≤ num_npus example_converter)%Z ∧
  (1 ≤ num_passes example_converter)%Z ∧
  ((run (convert example_converter custom_count_understated)).1
   = inl IndexError ∨
   (run (convert example_converter custom_count_understated)).1
   = inl AttributeError).
Proof.
  assert (Htag : py_split (header_line1 custom_count_understated) !! 0
                 = Some "CUSTOM") by (vm_compute; reflexivity).
  assert (Hnl : py_int (header_line2 custom_count_understated) = Some 1%Z)
    by (vm_compute; reflexivity).
  assert (Hls : get_layers (drop 2 custom_count_understated) 1
                = inr data_layers) by (vm_compute; reflexivity).
  assert (Hlen : Z.to_nat 1 < length data_layers) by (vm_compute; lia).
  assert (Hnpus : (1 ≤ num_npus example_converter)%Z) by (simpl; lia).
  assert (Hpasses : (1 ≤ num_passes example_converter)%Z) by (simpl; lia).
  split; [exact Htag|]. split; [exact Hnl|]. split; [exact Hls|].
  split; [exact Hlen|]. split; [exact Hnpus|]. split; [exact Hpasses|].
  exact (custom_run_understated example_converter custom_count_understated
           1%Z data_layers Htag Hnl Hls Hlen Hnpus Hpasses).
Defined.
